(** * RecoNIC diagnostic harness: simple_read and the register test tools

    A shallow embedding of [examples/rdma_test/simple_read.c],
    [examples/register_test/register_test.c] and
    [examples/register_test/register_test_arm.c], with the properties the
    specification states about them.

    Conventions.
    - C integers are [Z] with the wrap-around of each cast written out
      ([to_uint32], [to_uint16], [to_uint64]).
    - A [char *] that may be [NULL] is an [option string]; a pointer that
      is only tested against [NULL] and handed on is a [Z] with [0] for
      [NULL]; a [struct rdma_buff_t *] is an [option rdma_buff_t].
    - Every call that leaves the program (libc, sockets, the RecoNIC
      driver) is recorded as an [event] of the run; what the call returns
      is read from a [world], one field per call site.
    - [return] from inside a function is the [inr] branch of the monad
      [M]: the rest of the function is skipped. *)

From Stdlib Require Import ZArith List String Ascii Bool Lia Sorted.
Import ListNotations.
Local Open Scope string_scope.
Local Open Scope Z_scope.

(** ** Integer casts *)

Definition to_uint16 (x : Z) : Z := x mod 2 ^ 16.
Definition to_uint32 (x : Z) : Z := x mod 2 ^ 32.
Definition to_uint64 (x : Z) : Z := x mod 2 ^ 64.

(** [(int) x] for a [long] x: keep the low 32 bits, read as signed. *)
Definition to_int32 (x : Z) : Z := (x + 2 ^ 31) mod 2 ^ 32 - 2 ^ 31.

Definition LONG_MAX : Z := 2 ^ 63 - 1.
Definition LONG_MIN : Z := - 2 ^ 63.

(** ** libc: [atoi]

    glibc defines [atoi (s)] as [(int) strtol (s, NULL, 10)]: leading white
    space is skipped, one optional sign is read, then decimal digits up to
    the first other character; [strtol] saturates at the bounds of [long]. *)

Definition isspace (c : ascii) : bool :=
  let n := N_of_ascii c in
  (N.eqb n 32 || (N.leb 9 n && N.leb n 13))%bool.

Definition digit_of (c : ascii) : option Z :=
  let n := Z.of_N (N_of_ascii c) in
  if (48 <=? n) && (n <=? 57) then Some (n - 48) else None.

Fixpoint skip_spaces (s : string) : string :=
  match s with
  | String c r => if isspace c then skip_spaces r else s
  | EmptyString => s
  end.

Fixpoint read_digits (s : string) (acc : Z) : Z :=
  match s with
  | String c r =>
      match digit_of c with
      | Some d => read_digits r (10 * acc + d)
      | None => acc
      end
  | EmptyString => acc
  end.

Definition clamp_long (x : Z) : Z := Z.max LONG_MIN (Z.min LONG_MAX x).

Definition strtol10 (s : string) : Z :=
  match skip_spaces s with
  | String "-" r => clamp_long (- read_digits r 0)
  | String "+" r => clamp_long (read_digits r 0)
  | r => clamp_long (read_digits r 0)
  end.

Definition atoi (s : string) : Z := to_int32 (strtol10 s).

(** ** Memory images and byte order

    The hosts the harness runs on (x86-64, AArch64) are little-endian: the
    memory image of a [uint64_t] is its eight bytes, least significant
    first.  Bytes are integers in [0, 256). *)

Fixpoint le_bytes (n : nat) (x : Z) : list Z :=
  match n with
  | O => []
  | S n' => x mod 256 :: le_bytes n' (x / 256)
  end.

Fixpoint le_value (l : list Z) : Z :=
  match l with
  | [] => 0
  | b :: r => b + 256 * le_value r
  end.

(** Big-endian (network order) bytes of a 64-bit value, most significant
    first: what the specification calls the coordination wire message. *)
Definition be_bytes64 (x : Z) : list Z := rev (le_bytes 8 x).

(** [&x] handed to [send]: the eight bytes of the object. *)
Definition store64 (x : Z) : list Z := le_bytes 8 x.

(** [recv] into [&x], then reading [x]. *)
Definition load64 (bytes : list Z) : Z := le_value (firstn 8 bytes).

Definition bswap64 (x : Z) : Z := le_value (rev (le_bytes 8 x)).

(** Modelled from the spec: [htonll] and [ntohll] are macros of the RecoNIC
    library headers, which are not part of the sources.  The specification
    says the address is serialized in network byte order (big-endian) as an
    unsigned 64-bit integer; on a little-endian host that is the byte swap
    of the 64-bit value, in both directions. *)
Definition htonll (x : Z) : Z := bswap64 x.
Definition ntohll (x : Z) : Z := bswap64 x.

(** ** libc: [strstr] *)

(** [strstr h n]: the suffix of [h] that starts at the first occurrence of
    [n], [None] when there is none. *)
Fixpoint strstr (h n : string) : option string :=
  if String.prefix n h then Some h
  else match h with
       | EmptyString => None
       | String _ r => strstr r n
       end.

(** ** simple_read.c *)

Module SimpleRead.

(** *** Configuration *)

Definition DEVICE_NAME_DEFAULT : string := "/dev/reconic-mm".
Definition PCIE_RESOURCE_DEFAULT : string :=
  "/sys/bus/pci/devices/0005:01:00.0/resource2".
Definition DEFAULT_PAYLOAD_SIZE : Z := 1024.
Definition DEFAULT_QP_DEPTH : Z := 64.
Definition DEFAULT_QP_ID : Z := 2.
Definition MAX_RETRIES : Z := 10.

(** Modelled from the spec: the macro [HOST_MEM] of the driver's header is
    not part of the sources; the specification names the default buffer
    placement [host_mem]. *)
Definition HOST_MEM : string := "host_mem".

Record rdma_config_t : Type := mk_config {
  device_name : string;
  pcie_resource : string;
  src_ip_str : option string;
  dst_ip_str : option string;
  src_ip : Z;
  dst_ip : Z;
  tcp_port : Z;
  udp_port : Z;
  payload_size : Z;
  qp_id : Z;
  dst_qp_id : Z;
  qp_location : string;
  is_server : Z;
  is_client : Z;
  verbose : Z;
  debug : Z
}.

Definition init_config : rdma_config_t :=
  {| device_name := DEVICE_NAME_DEFAULT;
     pcie_resource := PCIE_RESOURCE_DEFAULT;
     src_ip_str := None;
     dst_ip_str := None;
     src_ip := 0;
     dst_ip := 0;
     tcp_port := 11111;
     udp_port := 22222;
     payload_size := DEFAULT_PAYLOAD_SIZE;
     qp_id := DEFAULT_QP_ID;
     dst_qp_id := DEFAULT_QP_ID;
     qp_location := HOST_MEM;
     is_server := 0;
     is_client := 0;
     verbose := 0;
     debug := 0 |}.

(** Field updates, one per assignment of the parser. *)
Definition set_device_name v c := mk_config v (pcie_resource c) (src_ip_str c) (dst_ip_str c) (src_ip c) (dst_ip c) (tcp_port c) (udp_port c) (payload_size c) (qp_id c) (dst_qp_id c) (qp_location c) (is_server c) (is_client c) (verbose c) (debug c).
Definition set_pcie_resource v c := mk_config (device_name c) v (src_ip_str c) (dst_ip_str c) (src_ip c) (dst_ip c) (tcp_port c) (udp_port c) (payload_size c) (qp_id c) (dst_qp_id c) (qp_location c) (is_server c) (is_client c) (verbose c) (debug c).
Definition set_src_ip_str v c := mk_config (device_name c) (pcie_resource c) v (dst_ip_str c) (src_ip c) (dst_ip c) (tcp_port c) (udp_port c) (payload_size c) (qp_id c) (dst_qp_id c) (qp_location c) (is_server c) (is_client c) (verbose c) (debug c).
Definition set_dst_ip_str v c := mk_config (device_name c) (pcie_resource c) (src_ip_str c) v (src_ip c) (dst_ip c) (tcp_port c) (udp_port c) (payload_size c) (qp_id c) (dst_qp_id c) (qp_location c) (is_server c) (is_client c) (verbose c) (debug c).
Definition set_src_ip v c := mk_config (device_name c) (pcie_resource c) (src_ip_str c) (dst_ip_str c) v (dst_ip c) (tcp_port c) (udp_port c) (payload_size c) (qp_id c) (dst_qp_id c) (qp_location c) (is_server c) (is_client c) (verbose c) (debug c).
Definition set_dst_ip v c := mk_config (device_name c) (pcie_resource c) (src_ip_str c) (dst_ip_str c) (src_ip c) v (tcp_port c) (udp_port c) (payload_size c) (qp_id c) (dst_qp_id c) (qp_location c) (is_server c) (is_client c) (verbose c) (debug c).
Definition set_tcp_port v c := mk_config (device_name c) (pcie_resource c) (src_ip_str c) (dst_ip_str c) (src_ip c) (dst_ip c) v (udp_port c) (payload_size c) (qp_id c) (dst_qp_id c) (qp_location c) (is_server c) (is_client c) (verbose c) (debug c).
Definition set_udp_port v c := mk_config (device_name c) (pcie_resource c) (src_ip_str c) (dst_ip_str c) (src_ip c) (dst_ip c) (tcp_port c) v (payload_size c) (qp_id c) (dst_qp_id c) (qp_location c) (is_server c) (is_client c) (verbose c) (debug c).
Definition set_payload_size v c := mk_config (device_name c) (pcie_resource c) (src_ip_str c) (dst_ip_str c) (src_ip c) (dst_ip c) (tcp_port c) (udp_port c) v (qp_id c) (dst_qp_id c) (qp_location c) (is_server c) (is_client c) (verbose c) (debug c).
Definition set_qp_id v c := mk_config (device_name c) (pcie_resource c) (src_ip_str c) (dst_ip_str c) (src_ip c) (dst_ip c) (tcp_port c) (udp_port c) (payload_size c) v (dst_qp_id c) (qp_location c) (is_server c) (is_client c) (verbose c) (debug c).
Definition set_dst_qp_id v c := mk_config (device_name c) (pcie_resource c) (src_ip_str c) (dst_ip_str c) (src_ip c) (dst_ip c) (tcp_port c) (udp_port c) (payload_size c) (qp_id c) v (qp_location c) (is_server c) (is_client c) (verbose c) (debug c).
Definition set_qp_location v c := mk_config (device_name c) (pcie_resource c) (src_ip_str c) (dst_ip_str c) (src_ip c) (dst_ip c) (tcp_port c) (udp_port c) (payload_size c) (qp_id c) (dst_qp_id c) v (is_server c) (is_client c) (verbose c) (debug c).
Definition set_is_server v c := mk_config (device_name c) (pcie_resource c) (src_ip_str c) (dst_ip_str c) (src_ip c) (dst_ip c) (tcp_port c) (udp_port c) (payload_size c) (qp_id c) (dst_qp_id c) (qp_location c) v (is_client c) (verbose c) (debug c).
Definition set_is_client v c := mk_config (device_name c) (pcie_resource c) (src_ip_str c) (dst_ip_str c) (src_ip c) (dst_ip c) (tcp_port c) (udp_port c) (payload_size c) (qp_id c) (dst_qp_id c) (qp_location c) (is_server c) v (verbose c) (debug c).
Definition set_verbose v c := mk_config (device_name c) (pcie_resource c) (src_ip_str c) (dst_ip_str c) (src_ip c) (dst_ip c) (tcp_port c) (udp_port c) (payload_size c) (qp_id c) (dst_qp_id c) (qp_location c) (is_server c) (is_client c) v (debug c).
Definition set_debug v c := mk_config (device_name c) (pcie_resource c) (src_ip_str c) (dst_ip_str c) (src_ip c) (dst_ip c) (tcp_port c) (udp_port c) (payload_size c) (qp_id c) (dst_qp_id c) (qp_location c) (is_server c) (is_client c) (verbose c) v.

(** *** Argument parsing

    [getopt_long] is libc: the parser is modelled on the sequence of its
    results, one [getopt_result] per loop iteration (the option character it
    returns, ["?"] for an option it does not know, and [optarg]). *)

Record getopt_result : Type := Opt { opt_char : ascii; optarg : string }.

Section Parse.

(** [convert_ip_addr_to_uint] belongs to the RecoNIC library. *)
Variable convert_ip_addr_to_uint : string -> Z.

(** One iteration of the [switch]: [inl] is [break] with the updated
    configuration, [inr (code, printed)] a [return code] from
    [parse_arguments] after the lines [printed] to [stderr].  [print_usage]
    writes to [stdout]; what [getopt_long] itself prints for an option it
    does not know is libc's. *)
Definition parse_option (o : getopt_result) (cfg : rdma_config_t)
  : rdma_config_t + Z * list string :=
  let a := optarg o in
  match opt_char o with
  | "d"%char => inl (set_device_name a cfg)
  | "p"%char => inl (set_pcie_resource a cfg)
  | "r"%char =>
      inl (set_src_ip (convert_ip_addr_to_uint a) (set_src_ip_str (Some a) cfg))
  | "i"%char =>
      inl (set_dst_ip (convert_ip_addr_to_uint a) (set_dst_ip_str (Some a) cfg))
  | "t"%char => inl (set_tcp_port (to_uint16 (atoi a)) cfg)
  | "u"%char => inl (set_udp_port (to_uint16 (atoi a)) cfg)
  | "z"%char => inl (set_payload_size (to_uint32 (atoi a)) cfg)
  | "q"%char =>
      let cfg1 := set_qp_id (to_uint32 (atoi a)) cfg in
      inl (set_dst_qp_id (qp_id cfg1) cfg1)
  | "l"%char =>
      if String.eqb a "host_mem" || String.eqb a "dev_mem"
      then inl (set_qp_location a cfg)
      else inr (-1,
                ["Error: Invalid QP location. Use 'host_mem' or 'dev_mem'"])
  | "s"%char => inl (set_is_server 1 cfg)
  | "c"%char => inl (set_is_client 1 cfg)
  | "v"%char => inl (set_verbose 1 cfg)
  | "g"%char => inl (set_verbose 1 (set_debug 1 cfg))
  | "h"%char => inr (1, [])
  | _ => inr (-1, [])
  end.

(** The [while] loop: the configuration is updated in place, so it is
    returned with the status also when the parser gives up. *)
Fixpoint parse_loop (opts : list getopt_result) (cfg : rdma_config_t)
  : option (Z * list string) * rdma_config_t :=
  match opts with
  | [] => (None, cfg)
  | o :: rest =>
      match parse_option o cfg with
      | inl cfg' => parse_loop rest cfg'
      | inr stop => (Some stop, cfg)
      end
  end.

Definition is_null (p : option string) : bool :=
  match p with None => true | Some _ => false end.

(** [parse_arguments]: the status, the configuration as the call leaves
    it, and the lines written to [stderr]. *)
Definition parse_arguments (opts : list getopt_result) (cfg : rdma_config_t)
  : Z * rdma_config_t * list string :=
  match parse_loop opts cfg with
  | (Some (code, printed), cfg') => (code, cfg', printed)
  | (None, cfg') =>
      (* Validate required parameters *)
      if is_null (src_ip_str cfg') || is_null (dst_ip_str cfg') then
        (-1, cfg',
         ["Error: Source and destination IP addresses are required"])
      else if (is_server cfg' =? 0) && (is_client cfg' =? 0) then
        (-1, cfg', ["Error: Must specify either --server or --client mode"])
      else if negb (is_server cfg' =? 0) && negb (is_client cfg' =? 0) then
        (-1, cfg', ["Error: Cannot be both server and client"])
      else (0, cfg', [])
  end.

End Parse.

(** *** Driver objects *)

(** [struct mac_addr_t]: the 48-bit link-layer address. *)
Definition mac_addr_t : Type := Z.

(** [struct rdma_buff_t]: the host-virtual pointer [buffer] and the
    device-bus address [dma_addr] of an allocation. *)
Record rdma_buff_t : Type := { buffer : Z; dma_addr : Z }.

(** The access keys and the opcode are macros of the driver's headers; the
    program only hands them on, so they are kept symbolic. *)
Inductive access_key : Type := P_KEY | R_KEY.
Inductive rnic_opcode : Type := RNIC_OP_READ.

(** *** Events of a run

    Every diagnostic written to [stderr] is recorded.  Of the lines written
    to [stdout] only those that mark the progress of a session are: the
    banners, the listings under [verbose] and the figures of the performance
    summary (elapsed time and bandwidth are floating point) are left out, so
    that [cfg->verbose] has no effect on the events. *)

Inductive msg : Type :=
| Text (s : string)
| NoArpEntry (ip : string)
| ResolveFailed (ip : string)
| PostSendFailed (ret : Z)
| Mismatch (i expected got : Z)
| VerifyPassed (words : Z)
| VerifyFailed (errors words : Z)
| Summary (payload : Z) (location : string)
| DebugValue (i v : Z)
| ClientCompleted (ok : bool).

Inductive event : Type :=
(* libc *)
| EvSocket
| EvClose (fd : Z)
| EvSetsockopt (fd : Z)
| EvBind (fd : Z) (ip : string) (port : Z)
| EvListen (fd backlog : Z)
| EvAccept (fd : Z)
| EvConnect (fd : Z) (ip : string) (port : Z)
| EvSend (fd : Z) (bytes : list Z)
| EvRecv (fd len : Z)
| EvOpen (path : string)
| EvPopen (command : string)
| EvPclose
| EvGetchar
| EvClockGettime
(* RecoNIC driver *)
| EvGetMacAddrFromStrIp (sockfd : Z) (ip : string)
| EvCreateRnDev (pcie : string) (hugepages n : Z)
| EvCreateRdmaDev (rn : Z)
| EvAllocateRdmaBuffer (rn size : Z) (location : string)
| EvOpenRdmaDev (rdma : Z) (mac : mac_addr_t) (ip port : Z)
    (data_addr ipkterr_addr err_addr resp_err_addr : Z)
| EvAllocateRdmaPd (rdma idx : Z)
| EvRegisterMemoryRegion (rdma pd : Z) (key : access_key) (buf : rdma_buff_t)
| EvWriteFromBuffer (dev : string) (fd : Z) (words : list Z) (size addr : Z)
| EvReadToBuffer (dev : string) (fd size addr : Z)
| EvAllocateRdmaQp (rdma qpid dst_qpid pd sq_addr meta_addr depth : Z)
    (location : string) (dst_mac : mac_addr_t) (dst_ip : Z)
    (p_key r_key : access_key)
| EvConfigLastRqPsn (rdma qpid psn : Z)
| EvConfigSqPsn (rdma qpid psn : Z)
| EvCreateAWqe (rdma qpid wrid wqe_idx laddr len : Z) (opcode : rnic_opcode)
    (remote_offset : Z) (r_key : access_key)
| EvRdmaPostSend (rdma qpid : Z)
| EvDumpRegisters (rdma is_sender qpid : Z)
| EvDestroyRnDev (rn : Z)
(* the program's own stores into a host-resident driver buffer *)
| EvStoreWords (ptr : Z) (words : list Z)
(* diagnostics *)
| EvStderr (m : msg)
| EvStdout (m : msg).

(** *** The world: what each call returns

    One field per call site.  Each call is made at most once in a run, so a
    field is the result of that one call. *)

Record world : Type := {
  (* RecoNIC library functions and macros used as values *)
  convert_ip_addr_to_uint : string -> Z;
  convert_mac_addr_str_to_uint : string -> mac_addr_t;
  HUGE_PAGE_SHIFT : Z;
  preallocated_hugepages : Z;
  (* setup_rdma_environment *)
  setup_socket : Z;
  get_mac_addr_from_str_ip : mac_addr_t;
  create_rn_dev : Z;
  create_rdma_dev : Z;
  alloc_cidb_buffer : option rdma_buff_t;
  alloc_data_buf : option rdma_buff_t;
  alloc_ipkterr_buf : option rdma_buff_t;
  alloc_err_buf : option rdma_buff_t;
  alloc_resp_err_buf : option rdma_buff_t;
  setup_allocate_rdma_pd : Z;
  setup_open : Z;
  (* get_remote_mac_address: the lines of [arp -a], [None] when [popen]
     fails; and the unset [*mac_addr] of the caller *)
  arp_output : option (list string);
  uninit_mac : mac_addr_t;
  (* run_rdma_server and run_rdma_client *)
  uninit_fpga_fd : Z;
  alloc_run_buffer : option rdma_buff_t;
  run_allocate_rdma_pd : Z;
  write_from_buffer : Z;
  run_socket : Z;
  bind_ret : Z;
  listen_ret : Z;
  accept_ret : Z;
  send_ret : Z;
  client_open : Z;
  connect_ret : Z;
  recv_ret : Z;
  recv_bytes : list Z;
  rdma_post_send : Z;
  read_to_buffer : Z;
  (* the words [read_to_buffer] copies out of device memory, and the words
     found in host memory at a pointer, by word index *)
  dev_words : Z -> Z;
  host_words : Z -> Z -> Z
}.

(** *** The monad of a run *)

Record state : Type := {
  rn_dev : Z;
  rdma_dev : Z;
  trace : list event
}.

Definition initial_state : state :=
  {| rn_dev := 0; rdma_dev := 0; trace := [] |}.

(** [inl a]: the statement completed with [a]; [inr code]: the enclosing
    function executed [return code]. *)
Definition M (A : Type) : Type := state -> (A + Z) * state.

Definition ret {A} (a : A) : M A := fun s => (inl a, s).

Definition bind {A B} (m : M A) (k : A -> M B) : M B :=
  fun s =>
    match m s with
    | (inl a, s') => k a s'
    | (inr code, s') => (inr code, s')
    end.

Definition return_ {A} (code : Z) : M A := fun s => (inr code, s).

Definition emit (e : event) : M unit :=
  fun s => (inl tt, {| rn_dev := rn_dev s; rdma_dev := rdma_dev s;
                       trace := trace s ++ [e] |}).

Definition get_rn_dev : M Z := fun s => (inl (rn_dev s), s).
Definition get_rdma_dev : M Z := fun s => (inl (rdma_dev s), s).
Definition set_rn_dev (v : Z) : M unit :=
  fun s => (inl tt, {| rn_dev := v; rdma_dev := rdma_dev s; trace := trace s |}).
Definition set_rdma_dev (v : Z) : M unit :=
  fun s => (inl tt, {| rn_dev := rn_dev s; rdma_dev := v; trace := trace s |}).

Definition when (b : bool) (m : M unit) : M unit :=
  if b then m else ret tt.

(** A call of a function of the program: its [return] ends the callee, not
    the caller. *)
Definition call {A} (m : M A) (of_code : Z -> A) : M A :=
  fun s =>
    match m s with
    | (inl a, s') => (inl a, s')
    | (inr code, s') => (inl (of_code code), s')
    end.

Notation "x <- c1 ;; c2" := (bind c1 (fun x => c2))
  (at level 61, c1 at next level, right associativity).
Notation "c1 ;; c2" := (bind c1 (fun _ => c2))
  (at level 61, right associativity).

(** The status a function returns and the events of its run. *)
Definition status {A} (r : (A + Z) * state) : A + Z := fst r.
Definition events {A} (r : (A + Z) * state) : list event := trace (snd r).

Definition perror (s : string) : M unit := emit (EvStderr (Text s)).
Definition eprint (s : string) : M unit := emit (EvStderr (Text s)).

(** Lines written to [stderr] one after the other. *)
Fixpoint eprint_lines (lines : list string) : M unit :=
  match lines with
  | [] => ret tt
  | l :: rest => eprint l ;; eprint_lines rest
  end.

(** A [char *] the parser has checked to be set. *)
Definition cstr (p : option string) : string :=
  match p with Some s => s | None => "" end.

(** *** get_remote_mac_address *)

(** The [getline] loop over the output of [arp -a]; [mac] is [*mac_addr],
    written only when an entry is found. *)
Fixpoint arp_loop (w : world) (ip_str : string) (lines : list string)
    (mac : mac_addr_t) : M (Z * mac_addr_t) :=
  match lines with
  | [] => ret (-1, mac)
  | line :: rest =>
      match strstr line "no match found" with
      | Some _ => emit (EvStderr (NoArpEntry ip_str)) ;; ret (-1, mac)
      | None =>
          match strstr line "at" with
          | Some mac_ptr =>
              let mac_str := substring 3 17 mac_ptr in
              ret (0, convert_mac_addr_str_to_uint w mac_str)
          | None => arp_loop w ip_str rest mac
          end
      end
  end.

(** Returns the status together with [*mac_addr]. *)
Definition get_remote_mac_address (w : world) (ip_str : string)
    (mac : mac_addr_t) : M (Z * mac_addr_t) :=
  let command := substring 0 127 ("arp -a " ++ ip_str) in
  emit (EvPopen command) ;;
  match arp_output w with
  | None => perror "Error executing arp command" ;; ret (-1, mac)
  | Some lines =>
      r <- arp_loop w ip_str lines mac ;;
      emit EvPclose ;;
      ret r
  end.

(** *** setup_rdma_environment *)

Definition setup_rdma_environment (w : world) (cfg : rdma_config_t) : M Z :=
  emit EvSocket ;;
  let sockfd := setup_socket w in
  when (sockfd <? 0) (perror "Error creating socket" ;; return_ (-1)) ;;
  emit (EvGetMacAddrFromStrIp sockfd (cstr (src_ip_str cfg))) ;;
  let src_mac := get_mac_addr_from_str_ip w in
  emit (EvClose sockfd) ;;
  emit (EvCreateRnDev (pcie_resource cfg) (preallocated_hugepages w) 8) ;;
  set_rn_dev (create_rn_dev w) ;;
  rn <- get_rn_dev ;;
  when (rn =? 0)
    (eprint "Error: Failed to create RecoNIC device" ;; return_ (-1)) ;;
  emit (EvCreateRdmaDev rn) ;;
  set_rdma_dev (create_rdma_dev w) ;;
  rdma <- get_rdma_dev ;;
  when (rdma =? 0)
    (eprint "Error: Failed to create RDMA device" ;; return_ (-1)) ;;
  let cidb_buffer_size := to_uint32 (Z.shiftl 1 (HUGE_PAGE_SHIFT w)) in
  emit (EvAllocateRdmaBuffer rn cidb_buffer_size "host_mem") ;;
  match alloc_cidb_buffer w with
  | None => eprint "Error: Failed to allocate CIDB buffer" ;; return_ (-1)
  | Some cidb_buffer =>
      emit (EvAllocateRdmaBuffer rn (4096 * 4096) "host_mem") ;;
      emit (EvAllocateRdmaBuffer rn 8192 "host_mem") ;;
      emit (EvAllocateRdmaBuffer rn (256 * 256) "host_mem") ;;
      emit (EvAllocateRdmaBuffer rn 65536 "host_mem") ;;
      match alloc_data_buf w, alloc_ipkterr_buf w,
            alloc_err_buf w, alloc_resp_err_buf w with
      | Some data_buf, Some ipkterr_buf, Some err_buf, Some resp_err_buf =>
          emit (EvOpenRdmaDev rdma src_mac (src_ip cfg) (udp_port cfg)
                  (dma_addr data_buf) (dma_addr ipkterr_buf)
                  (dma_addr err_buf) (dma_addr resp_err_buf)) ;;
          emit (EvAllocateRdmaPd rdma 0) ;;
          when (setup_allocate_rdma_pd w =? 0)
            (eprint "Error: Failed to allocate protection domain" ;;
             return_ (-1)) ;;
          emit (EvOpen (device_name cfg)) ;;
          when (setup_open w <? 0)
            (perror "Error opening device file" ;; return_ (-1)) ;;
          return_ 0
      | _, _, _, _ =>
          eprint "Error: Failed to allocate system buffers" ;; return_ (-1)
      end
  end.

(** *** The golden pattern *)

(** [for (uint32_t i = first; i < first + k; i++) a[i] = f (i);] as the
    list of the words stored. *)
Fixpoint fill_loop (f : Z -> Z) (k : nat) (i : Z) : list Z :=
  match k with
  | O => []
  | S k' => f i :: fill_loop f k' (i + 1)
  end.

(** The words the server writes: [test_data[i] = i % 256] for
    [i < payload_size / 4]. *)
Definition server_test_data (cfg : rdma_config_t) : list Z :=
  fill_loop (fun i => i mod 256) (Z.to_nat (payload_size cfg / 4)) 0.

(** The words the client compares with: [golden_data[i] = i % 256] for
    [i < payload_size / 4]. *)
Definition client_golden_data (cfg : rdma_config_t) : list Z :=
  fill_loop (fun i => i mod 256) (Z.to_nat (payload_size cfg / 4)) 0.

(** *** run_rdma_server *)

Definition run_rdma_server (w : world) (cfg : rdma_config_t) : M Z :=
  r <- get_remote_mac_address w (cstr (dst_ip_str cfg)) (uninit_mac w) ;;
  let dst_mac := snd r in
  when (fst r <? 0)
    (emit (EvStderr (ResolveFailed (cstr (dst_ip_str cfg)))) ;; return_ (-1)) ;;
  rn <- get_rn_dev ;;
  rdma <- get_rdma_dev ;;
  (* Allocate data buffer *)
  emit (EvAllocateRdmaBuffer rn (payload_size cfg) (qp_location cfg)) ;;
  match alloc_run_buffer w with
  | None => eprint "Error: Failed to allocate data buffer" ;; return_ (-1)
  | Some data_buffer =>
      (* Get protection domain *)
      emit (EvAllocateRdmaPd rdma 0) ;;
      let pd := run_allocate_rdma_pd w in
      (* Register memory region *)
      emit (EvRegisterMemoryRegion rdma pd R_KEY data_buffer) ;;
      (* Initialize test data; [local_fpga_fd] is never assigned *)
      (if String.eqb (qp_location cfg) "dev_mem" then
         emit (EvWriteFromBuffer (device_name cfg) (uninit_fpga_fd w)
                 (server_test_data cfg) (payload_size cfg)
                 (dma_addr data_buffer)) ;;
         when (write_from_buffer w <? 0)
           (eprint "Error: Failed to write test data to device memory" ;;
            return_ (-1))
       else
         emit (EvStoreWords (buffer data_buffer) (server_test_data cfg))) ;;
      (* Setup TCP server for coordination *)
      emit EvSocket ;;
      let server_sockfd := run_socket w in
      when (server_sockfd <? 0)
        (perror "Error creating server socket" ;; return_ (-1)) ;;
      emit (EvSetsockopt server_sockfd) ;;
      emit (EvBind server_sockfd (cstr (src_ip_str cfg)) (tcp_port cfg)) ;;
      when (bind_ret w <? 0)
        (perror "Error binding server socket" ;;
         emit (EvClose server_sockfd) ;; return_ (-1)) ;;
      emit (EvListen server_sockfd 1) ;;
      when (listen_ret w <? 0)
        (perror "Error listening on server socket" ;;
         emit (EvClose server_sockfd) ;; return_ (-1)) ;;
      emit (EvAccept server_sockfd) ;;
      let client_sockfd := accept_ret w in
      when (client_sockfd <? 0)
        (perror "Error accepting client connection" ;;
         emit (EvClose server_sockfd) ;; return_ (-1)) ;;
      (* Send buffer address to client *)
      let buffer_offset := htonll (to_uint64 (buffer data_buffer)) in
      emit (EvSend client_sockfd (store64 buffer_offset)) ;;
      when (negb (send_ret w =? 8))
        (eprint "Error sending buffer offset to client" ;;
         emit (EvClose client_sockfd) ;;
         emit (EvClose server_sockfd) ;; return_ (-1)) ;;
      (* Setup QP for RDMA operations *)
      emit (EvAllocateRdmaQp rdma (qp_id cfg) (dst_qp_id cfg) pd
              (dma_addr data_buffer) (to_uint64 (dma_addr data_buffer + 64))
              DEFAULT_QP_DEPTH (qp_location cfg) dst_mac (dst_ip cfg)
              P_KEY R_KEY) ;;
      emit (EvConfigLastRqPsn rdma (qp_id cfg) 0xabc) ;;
      emit (EvConfigSqPsn rdma (qp_id cfg) (0xabc + 1)) ;;
      emit (EvStdout (Text
        "Server setup complete. Press Enter when client finishes RDMA read...")) ;;
      emit EvGetchar ;;
      when (negb (debug cfg =? 0)) (emit (EvDumpRegisters rdma 0 (qp_id cfg))) ;;
      emit (EvClose client_sockfd) ;;
      emit (EvClose server_sockfd) ;;
      emit (EvStdout (Text "Server operation completed successfully")) ;;
      return_ 0
  end.

(** *** run_rdma_client *)

(** The comparison loop: [k] iterations from index [i], [errors] mismatches
    counted so far; the first ten are printed. *)
Fixpoint verify_loop (received_data : Z -> Z) (golden_data : list Z)
    (k : nat) (i : Z) (errors : Z) : M Z :=
  match k with
  | O => ret errors
  | S k' =>
      let expected := nth (Z.to_nat i) golden_data 0 in
      let got := received_data i in
      if negb (got =? expected) then
        when (errors <? 10) (emit (EvStderr (Mismatch i expected got))) ;;
        verify_loop received_data golden_data k' (i + 1) (errors + 1)
      else
        verify_loop received_data golden_data k' (i + 1) errors
  end.

(** [for (int i = 0; i < 16 && i < payload_size / 4; i++) printf (...)]. *)
Fixpoint debug_loop (received_data : Z -> Z) (words : Z) (k : nat) (i : Z)
    : M unit :=
  match k with
  | O => ret tt
  | S k' =>
      if (i <? 16) && (i <? words) then
        emit (EvStdout (DebugValue i (received_data i))) ;;
        debug_loop received_data words k' (i + 1)
      else ret tt
  end.

Definition run_rdma_client (w : world) (cfg : rdma_config_t) : M Z :=
  (* Open device file for DMA operations *)
  emit (EvOpen (device_name cfg)) ;;
  let local_fpga_fd := client_open w in
  when (local_fpga_fd <? 0)
    (perror "Error opening device file in client" ;; return_ (-1)) ;;
  r <- get_remote_mac_address w (cstr (dst_ip_str cfg)) (uninit_mac w) ;;
  let dst_mac := snd r in
  when (fst r <? 0)
    (emit (EvStderr (ResolveFailed (cstr (dst_ip_str cfg)))) ;; return_ (-1)) ;;
  (* Connect to server *)
  emit EvSocket ;;
  let client_sockfd := run_socket w in
  when (client_sockfd <? 0)
    (perror "Error creating client socket" ;; return_ (-1)) ;;
  emit (EvConnect client_sockfd (cstr (dst_ip_str cfg)) (tcp_port cfg)) ;;
  when (connect_ret w <? 0)
    (perror "Error connecting to server" ;;
     emit (EvClose client_sockfd) ;; return_ (-1)) ;;
  (* Receive remote buffer offset *)
  emit (EvRecv client_sockfd 8) ;;
  when (negb (recv_ret w =? 8))
    (eprint "Error receiving remote buffer offset" ;;
     emit (EvClose client_sockfd) ;; return_ (-1)) ;;
  let remote_offset := ntohll (load64 (recv_bytes w)) in
  rn <- get_rn_dev ;;
  rdma <- get_rdma_dev ;;
  (* Allocate receive buffer *)
  emit (EvAllocateRdmaBuffer rn (payload_size cfg) (qp_location cfg)) ;;
  match alloc_run_buffer w with
  | None =>
      eprint "Error: Failed to allocate receive buffer" ;;
      emit (EvClose client_sockfd) ;; return_ (-1)
  | Some recv_buffer =>
      (* Get protection domain and setup QP *)
      emit (EvAllocateRdmaPd rdma 0) ;;
      let pd := run_allocate_rdma_pd w in
      emit (EvAllocateRdmaQp rdma (qp_id cfg) (dst_qp_id cfg) pd
              (dma_addr recv_buffer) (to_uint64 (dma_addr recv_buffer + 64))
              DEFAULT_QP_DEPTH (qp_location cfg) dst_mac (dst_ip cfg)
              P_KEY R_KEY) ;;
      emit (EvConfigLastRqPsn rdma (qp_id cfg) 0xabc) ;;
      emit (EvConfigSqPsn rdma (qp_id cfg) (0xabc + 1)) ;;
      (* Create RDMA read WQE *)
      emit (EvCreateAWqe rdma (qp_id cfg) 0 0 (dma_addr recv_buffer)
              (payload_size cfg) RNIC_OP_READ remote_offset R_KEY) ;;
      (* Execute RDMA read operation *)
      emit EvClockGettime ;;
      emit (EvRdmaPostSend rdma (qp_id cfg)) ;;
      let ret_ := rdma_post_send w in
      when (ret_ <? 0)
        (emit (EvStderr (PostSendFailed ret_)) ;;
         emit (EvClose client_sockfd) ;; return_ (-1)) ;;
      emit EvClockGettime ;;
      emit (EvStdout (Text "RDMA read operation completed")) ;;
      (* Retrieve and verify data *)
      received_data <-
        (if String.eqb (qp_location cfg) "dev_mem" then
           emit (EvReadToBuffer (device_name cfg) local_fpga_fd
                   (payload_size cfg) (dma_addr recv_buffer)) ;;
           when (read_to_buffer w <? 0)
             (eprint "Error: Failed to read data from device memory" ;;
              emit (EvClose client_sockfd) ;; return_ (-1)) ;;
           ret (dev_words w)
         else
           ret (host_words w (buffer recv_buffer))) ;;
      (* Generate golden data for verification *)
      let golden_data := client_golden_data cfg in
      let words := payload_size cfg / 4 in
      (* Verify data integrity *)
      emit (EvStdout (Text "Verifying received data...")) ;;
      errors <- verify_loop received_data golden_data (Z.to_nat words) 0 0 ;;
      (if errors =? 0 then emit (EvStdout (VerifyPassed words))
       else emit (EvStdout (VerifyFailed errors words))) ;;
      (* Print performance summary *)
      emit (EvStdout (Summary (payload_size cfg) (qp_location cfg))) ;;
      (* Debug output *)
      when (negb (debug cfg =? 0))
        (debug_loop received_data words 16 0 ;;
         emit (EvDumpRegisters rdma 1 (qp_id cfg))) ;;
      emit (EvClose client_sockfd) ;;
      emit (EvStdout (ClientCompleted (errors =? 0))) ;;
      return_ (if errors =? 0 then 0 else -1)
  end.

(** *** cleanup_resources and main *)

Definition cleanup_resources : M unit :=
  rn <- get_rn_dev ;;
  when (negb (rn =? 0)) (emit (EvDestroyRnDev rn)).

(** [main] on the results of [getopt_long] for its command line; the
    configuration it ran with is returned beside the run. *)
Definition main (w : world) (opts : list getopt_result)
    : rdma_config_t * ((Z + Z) * state) :=
  let parsed := parse_arguments (convert_ip_addr_to_uint w) opts init_config in
  let config := snd (fst parsed) in
  (config,
   ((* what [parse_arguments] wrote to [stderr] *)
    eprint_lines (snd parsed) ;;
    let result := fst (fst parsed) in
    when (negb (result =? 0)) (return_ (if result >? 0 then 0 else 1)) ;;
    r <- call (setup_rdma_environment w config) (fun c => c) ;;
    when (r <? 0)
      (eprint "Error: Failed to setup RDMA environment" ;;
       cleanup_resources ;; return_ 1) ;;
    result <- (if negb (is_server config =? 0)
               then call (run_rdma_server w config) (fun c => c)
               else call (run_rdma_client w config) (fun c => c)) ;;
    cleanup_resources ;;
    return_ (if result =? 0 then 0 else 1)) initial_state).

(** The exit status of a run. *)
Definition exit_code (r : (Z + Z) * state) : Z :=
  match fst r with inl c => c | inr c => c end.

End SimpleRead.

(** ** The register test tools *)

(** Lines of the report of a register write; the timing figure of the ARM
    tool is floating point and is not part of the line. *)
Inductive line : Type :=
| LWriting (value offset : Z)
| LWriteResult
| LAddress (offset : Z)
| LWritten (value : Z)
| LReadBack (read_back : Z)
| LWriteTime
| LStatusSuccess
| LStatusWarning
| LDifference (d : Z)
| LDebugBase
| LDebugAddress (offset : Z).

Local Open Scope list_scope.

(** *** libc: [strtoull] in base 16

    glibc: leading white space is skipped, one optional sign is read, then
    an optional ["0x"] or ["0X"], then hexadecimal digits up to the first
    other character.  The result is paired with [*endptr], the rest of the
    string.  Without any digit the result is 0 and [*endptr] is the whole
    string, or the ["x"] when a prefix was read.  A value above
    [ULLONG_MAX] gives [ULLONG_MAX]; a minus sign negates the value modulo
    [2 ^ 64]. *)

Definition ULLONG_MAX : Z := 2 ^ 64 - 1.

Definition hex_digit_of (c : ascii) : option Z :=
  let n := Z.of_N (N_of_ascii c) in
  if (48 <=? n) && (n <=? 57) then Some (n - 48)
  else if (97 <=? n) && (n <=? 102) then Some (n - 87)
  else if (65 <=? n) && (n <=? 70) then Some (n - 55)
  else None.

Fixpoint read_hex_digits (s : string) (acc : Z) : Z * string :=
  match s with
  | String c r =>
      match hex_digit_of c with
      | Some d => read_hex_digits r (16 * acc + d)
      | None => (acc, s)
      end
  | EmptyString => (acc, s)
  end.

Definition starts_with_hex_digit (s : string) : bool :=
  match s with
  | String c _ => match hex_digit_of c with Some _ => true | None => false end
  | EmptyString => false
  end.

Definition is_x (c : ascii) : bool :=
  (Ascii.eqb c "x" || Ascii.eqb c "X")%bool.

Definition strtoull16 (nptr : string) : Z * string :=
  let s1 := skip_spaces nptr in
  let '(negative, s2) :=
    match s1 with
    | String "-" r => (true, r)
    | String "+" r => (false, r)
    | _ => (false, s1)
    end in
  let '(prefixed, s3) :=
    match s2 with
    | String "0" (String x r) => if is_x x then (true, r) else (false, s2)
    | _ => (false, s2)
    end in
  if starts_with_hex_digit s3 then
    let '(v, rest) := read_hex_digits s3 0 in
    (if v >? ULLONG_MAX then ULLONG_MAX
     else if negative then (- v) mod 2 ^ 64 else v, rest)
  else if prefixed then
    (0, match s2 with String _ r => r | EmptyString => s2 end)
  else (0, nptr).

(** *** What the two tools share *)

Module ToolTypes.

(** Lines of the report of a register read; the timing figure of the ARM
    tool is floating point and is not part of the line. *)
Inductive read_line : Type :=
| RReading (offset : Z)
| RReadResult
| RAddress (offset : Z)
| RValue (value : Z)
| RBinary (bits : string)
| RTime
| RDebugBase
| RDebugAddress (offset : Z)
| RDebugNote.

(** What a tool does besides accessing the window: its messages and its
    calls on the resource file. *)
Inductive tool_event : Type :=
| TUsage
| TListRegisters
| TError (message : string)
| THexNull
| THexInvalid (str : string)
| TOpen (path : string)
| TMmap (fd : Z)
| TMunmap
| TClose (fd : Z)
| TReadReport (lines : list read_line)
| TWriteReport (lines : list line)
| TUsleep (microseconds : Z).

(** What the calls on the resource file return; [None] is [MAP_FAILED]. *)
Record tool_world (bar : Type) : Type := {
  open_ret : Z;
  mmap_ret : option bar;
  munmap_ret : Z
}.

Arguments open_ret {bar} _.
Arguments mmap_ret {bar} _.
Arguments munmap_ret {bar} _.

(** The options of a tool after the [getopt_long] loop. *)
Record tool_args : Type := {
  device : string;
  pcie_resource : string;
  address : Z;
  value : Z;
  operation : Z;
  address_set : Z;
  value_set : Z;
  verbose : Z;
  debug : Z
}.

(** [parse_hex_value], the same in the two tools: the value and what is
    printed to [stderr]. *)
Definition parse_hex_value (str : option string) : Z * list tool_event :=
  match str with
  | None => (0, [THexNull])
  | Some s =>
      let '(value, endptr) :=
        if (String.prefix "0x" s || String.prefix "0X" s)%bool
        then strtoull16 (substring 2 (String.length s - 2) s)
        else strtoull16 s in
      match endptr with
      | EmptyString => (value, [])
      | String _ _ => (0, [THexInvalid s])
      end
  end.

End ToolTypes.

(** *** register_test.c *)

Module RegisterTest.

Definition DEVICE_NAME_DEFAULT : string := "/dev/reconic-mm".
Definition PCIE_RESOURCE_DEFAULT : string :=
  "/sys/bus/pci/devices/0000:d8:00.0/resource2".

Section Tool.

(** The mapped BAR window.  [read32_data] and [write32_data] belong to the
    RecoNIC control API; a read may change the device (clear-on-read
    registers), so it returns the device too. *)
Variable bar : Type.
Variable read32_data : bar -> Z -> Z * bar.
Variable write32_data : bar -> Z -> Z -> bar.

(** The globals [verbose] and [debug]. *)
Variables verbose debug : Z.

Definition test_register_write (axil_base : bar) (offset value : Z)
  : Z * list line * bar :=
  let out0 := if negb (verbose =? 0) then [LWriting value offset] else [] in
  let axil1 := write32_data axil_base offset value in
  (* Read back to verify *)
  let (read_back, axil2) := read32_data axil1 offset in
  let out1 := out0 ++ [LWriteResult; LAddress offset; LWritten value;
                       LReadBack read_back] in
  let out2 := out1 ++ (if value =? read_back then [LStatusSuccess]
                       else [LStatusWarning]) in
  let out3 := out2 ++ (if negb (debug =? 0)
                       then [LDebugBase; LDebugAddress offset] else []) in
  (0, out3, axil2).

End Tool.

Section Program.

Import ToolTypes.

Variable bar : Type.
Variable read32_data : bar -> Z -> Z * bar.
Variable write32_data : bar -> Z -> Z -> bar.

(** [printBinary]: the 32 bits of [addr], the most significant first, with
    a space after each of the first three bytes.  [k] bits are left to
    print, bit [k - 1] first. *)
Fixpoint printBinary_loop (addr : Z) (k : nat) : string :=
  match k with
  | O => EmptyString
  | S i =>
      let mask := Z.shiftl 1 (Z.of_nat i) in
      let separator :=
        if (Z.of_nat i mod 8 =? 0) && (0 <? Z.of_nat i)
        then " "%string else ""%string in
      String (if Z.land addr mask =? 0 then "0"%char else "1"%char)
        (String.append separator (printBinary_loop addr i))
  end.

Definition printBinary (addr : Z) : string := printBinary_loop addr 32.

Definition test_register_read (verbose debug : Z) (axil_base : bar)
    (offset : Z) : Z * list read_line * bar :=
  let out0 := if negb (verbose =? 0) then [RReading offset] else [] in
  let (value, axil1) := read32_data axil_base offset in
  let out1 := out0 ++ [RReadResult; RAddress offset; RValue value;
                       RBinary (printBinary value)] in
  let out2 := out1 ++ (if negb (debug =? 0)
                       then [RDebugBase; RDebugAddress offset] else []) in
  (0, out2, axil1).

Definition initial_args : tool_args :=
  {| device := DEVICE_NAME_DEFAULT;
     pcie_resource := PCIE_RESOURCE_DEFAULT;
     address := 0; value := 0; operation := 0;
     address_set := 0; value_set := 0;
     verbose := 0; debug := 0 |}.

(** One iteration of the [switch] of [main]: the options after it, or the
    status the program exits with, and what is printed. *)
Definition main_option (o : SimpleRead.getopt_result) (a : tool_args)
  : (tool_args + Z) * list tool_event :=
  let arg := SimpleRead.optarg o in
  match SimpleRead.opt_char o with
  | "d"%char =>
      (inl {| device := arg; pcie_resource := pcie_resource a;
              address := address a; value := value a;
              operation := operation a; address_set := address_set a;
              value_set := value_set a; verbose := verbose a;
              debug := debug a |}, [])
  | "p"%char =>
      (inl {| device := device a; pcie_resource := arg;
              address := address a; value := value a;
              operation := operation a; address_set := address_set a;
              value_set := value_set a; verbose := verbose a;
              debug := debug a |}, [])
  | "a"%char =>
      let (v, errors) := parse_hex_value (Some arg) in
      (inl {| device := device a; pcie_resource := pcie_resource a;
              address := to_uint32 v; value := value a;
              operation := operation a; address_set := 1;
              value_set := value_set a; verbose := verbose a;
              debug := debug a |}, errors)
  | "v"%char =>
      let (v, errors) := parse_hex_value (Some arg) in
      (inl {| device := device a; pcie_resource := pcie_resource a;
              address := address a; value := to_uint32 v;
              operation := operation a; address_set := address_set a;
              value_set := 1; verbose := verbose a;
              debug := debug a |}, errors)
  | "r"%char =>
      (inl {| device := device a; pcie_resource := pcie_resource a;
              address := address a; value := value a;
              operation := 1; address_set := address_set a;
              value_set := value_set a; verbose := verbose a;
              debug := debug a |}, [])
  | "w"%char =>
      (inl {| device := device a; pcie_resource := pcie_resource a;
              address := address a; value := value a;
              operation := 2; address_set := address_set a;
              value_set := value_set a; verbose := verbose a;
              debug := debug a |}, [])
  | "l"%char => (inr 0, [TListRegisters])
  | "V"%char =>
      (inl {| device := device a; pcie_resource := pcie_resource a;
              address := address a; value := value a;
              operation := operation a; address_set := address_set a;
              value_set := value_set a; verbose := 1;
              debug := debug a |}, [])
  | "g"%char =>
      (inl {| device := device a; pcie_resource := pcie_resource a;
              address := address a; value := value a;
              operation := operation a; address_set := address_set a;
              value_set := value_set a; verbose := 1;
              debug := 1 |}, [])
  | "h"%char => (inr 0, [TUsage])
  | _ => (inr 1, [TUsage])
  end.

Fixpoint main_loop (opts : list SimpleRead.getopt_result) (a : tool_args)
  : (tool_args + Z) * list tool_event :=
  match opts with
  | [] => (inl a, [])
  | o :: rest =>
      match main_option o a with
      | (inl a', printed) =>
          let (r, more) := main_loop rest a' in (r, printed ++ more)
      | (inr code, printed) => (inr code, printed)
      end
  end.

(** [main]: the exit status, the events, and the window as the run leaves
    it ([None] when it was never mapped). *)
Definition main (w : tool_world bar) (opts : list SimpleRead.getopt_result)
  : Z * list tool_event * option bar :=
  match main_loop opts initial_args with
  | (inr code, printed) => (code, printed, None)
  | (inl a, printed) =>
      if operation a =? 0 then
        (1, printed ++
            [TError "Error: Must specify either -r (read) or -w (write) operation";
             TUsage], None)
      else if address_set a =? 0 then
        (1, printed ++
            [TError "Error: Must specify register address with -a option";
             TUsage], None)
      else if (operation a =? 2) && (value_set a =? 0) then
        (1, printed ++
            [TError "Error: Must specify value with -v option for write operation";
             TUsage], None)
      else
        let pcie_resource_fd := open_ret w in
        if pcie_resource_fd <? 0 then
          (1, printed ++
              [TOpen (pcie_resource a);
               TError "Error: Unable to open PCIe resource file"], None)
        else
          match mmap_ret w with
          | None =>
              (1, printed ++
                  [TOpen (pcie_resource a); TMmap pcie_resource_fd;
                   TError "Error: Failed to mmap PCIe resource";
                   TClose pcie_resource_fd], None)
          | Some axil_base =>
              let '(result, report, axil1) :=
                if operation a =? 1 then
                  let '(r, lines, b) :=
                    test_register_read (verbose a) (debug a) axil_base
                      (address a) in
                  (r, [TReadReport lines], b)
                else if operation a =? 2 then
                  let '(r, lines, b) :=
                    test_register_write bar read32_data write32_data
                      (verbose a) (debug a) axil_base (address a) (value a) in
                  (r, [TWriteReport lines], b)
                else (0, [], axil_base) in
              (result,
               printed ++
               [TOpen (pcie_resource a); TMmap pcie_resource_fd] ++
               report ++ [TMunmap] ++
               (if negb (munmap_ret w =? 0) then [TError "munmap"] else []) ++
               [TClose pcie_resource_fd],
               Some axil1)
          end
  end.

End Program.

End RegisterTest.

(** *** register_test_arm.c *)

Module RegisterTestArm.

(** The accesses of the ARM tool to the window, with the barriers issued
    around them. *)
Inductive access : Type :=
| Rmb
| Wmb
| Load (offset value : Z)
| Store (offset value : Z).

Section Tool.

(** The mapped BAR window behind a [volatile uint32_t *]: a load returns
    the value and the device after it, a store the device after it. *)
Variable bar : Type.
Variable load : bar -> Z -> Z * bar.
Variable store : bar -> Z -> Z -> bar.

Variables verbose debug : Z.

Definition arm_read32_data (base_address : bar) (offset : Z)
  : Z * bar * list access :=
  let (value, base1) := load base_address offset in
  (value, base1, [Rmb; Load offset value; Rmb]).

Definition arm_write32_data (base_address : bar) (offset value : Z)
  : bar * list access :=
  let base1 := store base_address offset value in
  (* read back to ensure the write completed; the value is dropped *)
  let (dropped, base2) := load base1 offset in
  (base2, [Wmb; Store offset value; Wmb; Load offset dropped; Rmb]).

Definition test_register_write (axil_base : bar) (offset value : Z)
  : Z * list line * bar * list access :=
  let out0 := if negb (verbose =? 0) then [LWriting value offset] else [] in
  let '(axil1, acc1) := arm_write32_data axil_base offset value in
  (* Read back to verify *)
  let '(read_back, axil2, acc2) := arm_read32_data axil1 offset in
  let out1 := out0 ++ [LWriteResult; LAddress offset; LWritten value;
                       LReadBack read_back] in
  let out2 := out1 ++ (if negb (verbose =? 0) then [LWriteTime] else []) in
  let out3 := out2 ++ (if value =? read_back then [LStatusSuccess]
                       else LStatusWarning ::
                            (if negb (debug =? 0)
                             then [LDifference (Z.lxor value read_back)]
                             else [])) in
  let out4 := out3 ++ (if negb (debug =? 0)
                       then [LDebugBase; LDebugAddress offset] else []) in
  (0, out4, axil2, acc1 ++ acc2).

End Tool.

Section Program.

Import ToolTypes.

Variable bar : Type.
Variable load : bar -> Z -> Z * bar.
Variable store : bar -> Z -> Z -> bar.

(** The register offsets of [reconic_reg.h] the comprehensive tests use. *)
Variables RN_SCR_VERSION RN_SCR_FATAL_ERR RN_SCR_TRMHR_REG RN_SCR_TRMLR_REG
  RN_SCR_TEMPLATE_REG RN_CLR_TEMPLATE : Z.

Definition test_register_read (verbose debug : Z) (axil_base : bar)
    (offset : Z) : Z * list read_line * bar * list access :=
  let out0 := if negb (verbose =? 0) then [RReading offset] else [] in
  let '(value, axil1, acc) := arm_read32_data bar load axil_base offset in
  let out1 := out0 ++ [RReadResult; RAddress offset; RValue value] in
  let out2 := out1 ++ (if negb (verbose =? 0) then [RTime] else []) in
  let out3 := out2 ++ (if negb (debug =? 0)
                       then [RDebugBase; RDebugAddress offset;
                             RDebugNote; RDebugNote]
                       else []) in
  (0, out3, axil1, acc).

(** The state of the comprehensive tests: the window, what was printed and
    the accesses made. *)
Definition tests_state : Type := bar * list tool_event * list access.

Definition read_step (verbose debug : Z) (offset : Z) (s : tests_state)
  : tests_state :=
  let '(b, ev, acc) := s in
  let '(_, lines, b', acc') := test_register_read verbose debug b offset in
  (b', ev ++ [TReadReport lines], acc ++ acc').

Definition write_step (verbose debug : Z) (offset v : Z) (s : tests_state)
  : tests_state :=
  let '(b, ev, acc) := s in
  let '(_, lines, b', acc') :=
    test_register_write bar load store verbose debug b offset v in
  (b', ev ++ [TWriteReport lines], acc ++ acc').

(** Test 3: each value is written to the template register, with a pause
    after it. *)
Fixpoint template_loop (verbose debug : Z) (test_values : list Z)
    (s : tests_state) : tests_state :=
  match test_values with
  | [] => s
  | v :: rest =>
      let '(b, ev, acc) := write_step verbose debug RN_SCR_TEMPLATE_REG v s in
      template_loop verbose debug rest (b, ev ++ [TUsleep 1000], acc)
  end.

(** Test 5: [iterations] reads of the version register, the values
    dropped. *)
Fixpoint timing_loop (iterations : nat) (s : tests_state) : tests_state :=
  match iterations with
  | O => s
  | S k =>
      let '(b, ev, acc) := s in
      let '(_, b', acc') := arm_read32_data bar load b RN_SCR_VERSION in
      timing_loop k (b', ev, acc ++ acc')
  end.

Definition test_values : list Z :=
  [0x12345678; 0xDEADBEEF; 0xCAFEBABE; 0x55AA55AA; 0x00000000; 0xFFFFFFFF].

Definition run_comprehensive_tests (verbose debug : Z) (axil_base : bar)
  : Z * tests_state :=
  let s0 : tests_state := (axil_base, [], []) in
  (* Test 1: version register *)
  let s1 := read_step verbose debug RN_SCR_VERSION s0 in
  (* Test 2: status registers *)
  let s2 := read_step verbose debug RN_SCR_TRMLR_REG
              (read_step verbose debug RN_SCR_TRMHR_REG
                 (read_step verbose debug RN_SCR_FATAL_ERR s1)) in
  (* Test 3: template register *)
  let s3 := template_loop verbose debug test_values s2 in
  (* Test 4: CLR template register *)
  let s4 := write_step verbose debug RN_CLR_TEMPLATE 0x87654321 s3 in
  (* Test 5: timing *)
  let s5 := timing_loop 100 s4 in
  (0, s5).

Definition DEVICE_NAME_DEFAULT : string := "/dev/reconic-mm".
Definition PCIE_RESOURCE_DEFAULT : string :=
  "/sys/bus/pci/devices/0000:d8:00.0/resource2".

Definition initial_args : tool_args :=
  {| device := DEVICE_NAME_DEFAULT;
     pcie_resource := PCIE_RESOURCE_DEFAULT;
     address := 0; value := 0; operation := 0;
     address_set := 0; value_set := 0;
     verbose := 0; debug := 0 |}.

(** One iteration of the [switch] of [main]; besides the options of
    [register_test], [-t] asks for the comprehensive tests. *)
Definition main_option (o : SimpleRead.getopt_result) (a : tool_args)
  : (tool_args + Z) * list tool_event :=
  let arg := SimpleRead.optarg o in
  match SimpleRead.opt_char o with
  | "d"%char =>
      (inl {| device := arg; pcie_resource := pcie_resource a;
              address := address a; value := value a;
              operation := operation a; address_set := address_set a;
              value_set := value_set a; verbose := verbose a;
              debug := debug a |}, [])
  | "p"%char =>
      (inl {| device := device a; pcie_resource := arg;
              address := address a; value := value a;
              operation := operation a; address_set := address_set a;
              value_set := value_set a; verbose := verbose a;
              debug := debug a |}, [])
  | "a"%char =>
      let (v, errors) := parse_hex_value (Some arg) in
      (inl {| device := device a; pcie_resource := pcie_resource a;
              address := to_uint32 v; value := value a;
              operation := operation a; address_set := 1;
              value_set := value_set a; verbose := verbose a;
              debug := debug a |}, errors)
  | "v"%char =>
      let (v, errors) := parse_hex_value (Some arg) in
      (inl {| device := device a; pcie_resource := pcie_resource a;
              address := address a; value := to_uint32 v;
              operation := operation a; address_set := address_set a;
              value_set := 1; verbose := verbose a;
              debug := debug a |}, errors)
  | "r"%char =>
      (inl {| device := device a; pcie_resource := pcie_resource a;
              address := address a; value := value a;
              operation := 1; address_set := address_set a;
              value_set := value_set a; verbose := verbose a;
              debug := debug a |}, [])
  | "w"%char =>
      (inl {| device := device a; pcie_resource := pcie_resource a;
              address := address a; value := value a;
              operation := 2; address_set := address_set a;
              value_set := value_set a; verbose := verbose a;
              debug := debug a |}, [])
  | "l"%char => (inr 0, [TListRegisters])
  | "t"%char =>
      (inl {| device := device a; pcie_resource := pcie_resource a;
              address := address a; value := value a;
              operation := 3; address_set := address_set a;
              value_set := value_set a; verbose := verbose a;
              debug := debug a |}, [])
  | "V"%char =>
      (inl {| device := device a; pcie_resource := pcie_resource a;
              address := address a; value := value a;
              operation := operation a; address_set := address_set a;
              value_set := value_set a; verbose := 1;
              debug := debug a |}, [])
  | "g"%char =>
      (inl {| device := device a; pcie_resource := pcie_resource a;
              address := address a; value := value a;
              operation := operation a; address_set := address_set a;
              value_set := value_set a; verbose := 1;
              debug := 1 |}, [])
  | "h"%char => (inr 0, [TUsage])
  | _ => (inr 1, [TUsage])
  end.

Fixpoint main_loop (opts : list SimpleRead.getopt_result) (a : tool_args)
  : (tool_args + Z) * list tool_event :=
  match opts with
  | [] => (inl a, [])
  | o :: rest =>
      match main_option o a with
      | (inl a', printed) =>
          let (r, more) := main_loop rest a' in (r, printed ++ more)
      | (inr code, printed) => (inr code, printed)
      end
  end.

(** [main]: the exit status, the events, the window as the run leaves it
    ([None] when it was never mapped) and the accesses made to it. *)
Definition main (w : tool_world bar) (opts : list SimpleRead.getopt_result)
  : Z * list tool_event * option bar * list access :=
  match main_loop opts initial_args with
  | (inr code, printed) => (code, printed, None, [])
  | (inl a, printed) =>
      if operation a =? 0 then
        (1, printed ++
            [TError "Error: Must specify operation: -r (read), -w (write), -t (test), or -l (list)";
             TUsage], None, [])
      else if ((operation a =? 1) || (operation a =? 2))
              && (address_set a =? 0) then
        (1, printed ++
            [TError "Error: Must specify register address with -a option for read/write operations";
             TUsage], None, [])
      else if (operation a =? 2) && (value_set a =? 0) then
        (1, printed ++
            [TError "Error: Must specify value with -v option for write operation";
             TUsage], None, [])
      else
        let pcie_resource_fd := open_ret w in
        if pcie_resource_fd <? 0 then
          (1, printed ++
              [TOpen (pcie_resource a);
               TError "Error: Unable to open PCIe resource file"], None, [])
        else
          match mmap_ret w with
          | None =>
              (1, printed ++
                  [TOpen (pcie_resource a); TMmap pcie_resource_fd;
                   TError "Error: Failed to mmap PCIe resource";
                   TClose pcie_resource_fd], None, [])
          | Some axil_base =>
              let '(result, report, axil1, acc) :=
                if operation a =? 1 then
                  let '(r, lines, b, acc) :=
                    test_register_read (verbose a) (debug a) axil_base
                      (address a) in
                  (r, [TReadReport lines], b, acc)
                else if operation a =? 2 then
                  let '(r, lines, b, acc) :=
                    test_register_write bar load store
                      (verbose a) (debug a) axil_base (address a) (value a) in
                  (r, [TWriteReport lines], b, acc)
                else if operation a =? 3 then
                  let '(r, (b, ev, acc)) :=
                    run_comprehensive_tests (verbose a) (debug a) axil_base in
                  (r, ev, b, acc)
                else (0, [], axil_base, []) in
              (result,
               printed ++
               [TOpen (pcie_resource a); TMmap pcie_resource_fd] ++
               report ++ [TMunmap] ++
               (if negb (munmap_ret w =? 0) then [TError "munmap"] else []) ++
               [TClose pcie_resource_fd],
               Some axil1, acc)
          end
  end.

End Program.

End RegisterTestArm.

(** * Vocabulary of the properties *)

Local Open Scope Z_scope.

Definition is_byte (b : Z) : Prop := 0 <= b < 256.

(** A command line as [getopt_long] reports it. *)
Definition option_of (c : ascii) (a : string) : SimpleRead.getopt_result :=
  SimpleRead.Opt c a.

Definition client_command_line : list SimpleRead.getopt_result :=
  [option_of "r" "192.168.1.101"; option_of "i" "192.168.1.100";
   option_of "c" ""].

Definition server_command_line : list SimpleRead.getopt_result :=
  [option_of "r" "192.168.1.100"; option_of "i" "192.168.1.101";
   option_of "s" ""].

(** The state with the device globals [rn], [rdma] and the events [tr]. *)
Definition st (rn rdma : Z) (tr : list SimpleRead.event) : SimpleRead.state :=
  {| SimpleRead.rn_dev := rn; SimpleRead.rdma_dev := rdma;
     SimpleRead.trace := tr |}.

(** The command [get_remote_mac_address] runs for an address. *)
Definition arp_command (ip : string) : string :=
  substring 0 127 ("arp -a " ++ ip).

(** The last [n] events of a run, in order. *)
Definition last_events (n : nat) (l : list SimpleRead.event)
  : list SimpleRead.event := rev (firstn n (rev l)).

(** Classes of events. *)
Definition is_allocate_rdma_qp (e : SimpleRead.event) : bool :=
  match e with
  | SimpleRead.EvAllocateRdmaQp _ _ _ _ _ _ _ _ _ _ _ _ => true
  | _ => false
  end.

Definition is_recv (e : SimpleRead.event) : bool :=
  match e with SimpleRead.EvRecv _ _ => true | _ => false end.

Definition is_post_send (e : SimpleRead.event) : bool :=
  match e with SimpleRead.EvRdmaPostSend _ _ => true | _ => false end.

(** RETRIEVE: the DMA read-back of the received buffer. *)
Definition is_retrieve (e : SimpleRead.event) : bool :=
  match e with SimpleRead.EvReadToBuffer _ _ _ _ => true | _ => false end.

(** VERIFY: the announcement of the comparison, a reported mismatch, and
    the verdict. *)
Definition is_verify (e : SimpleRead.event) : bool :=
  match e with
  | SimpleRead.EvStdout (SimpleRead.Text s) =>
      String.eqb s "Verifying received data..."
  | SimpleRead.EvStdout (SimpleRead.VerifyPassed _) => true
  | SimpleRead.EvStdout (SimpleRead.VerifyFailed _ _) => true
  | SimpleRead.EvStderr (SimpleRead.Mismatch _ _ _) => true
  | _ => false
  end.

(** A world in which every call succeeds, up to what [recv] returns and
    delivers, what [rdma_post_send] returns and what the receive buffer
    holds in host memory.  The data buffer has the host pointer
    [0x7f0000001000] and the bus address [0x40000000]. *)
Definition demo_world (recv_ret_ : Z) (recv_bytes_ : list Z)
    (post_send_ : Z) (host_words_ : Z -> Z -> Z) : SimpleRead.world :=
  {| SimpleRead.convert_ip_addr_to_uint := fun _ => 0;
     SimpleRead.convert_mac_addr_str_to_uint := fun _ => 0;
     SimpleRead.HUGE_PAGE_SHIFT := 21;
     SimpleRead.preallocated_hugepages := 0;
     SimpleRead.setup_socket := 3;
     SimpleRead.get_mac_addr_from_str_ip := 1;
     SimpleRead.create_rn_dev := 4096;
     SimpleRead.create_rdma_dev := 8192;
     SimpleRead.alloc_cidb_buffer :=
       Some {| SimpleRead.buffer := 0x1000; SimpleRead.dma_addr := 0x10000 |};
     SimpleRead.alloc_data_buf :=
       Some {| SimpleRead.buffer := 0x2000; SimpleRead.dma_addr := 0x20000 |};
     SimpleRead.alloc_ipkterr_buf :=
       Some {| SimpleRead.buffer := 0x3000; SimpleRead.dma_addr := 0x30000 |};
     SimpleRead.alloc_err_buf :=
       Some {| SimpleRead.buffer := 0x4000; SimpleRead.dma_addr := 0x40000 |};
     SimpleRead.alloc_resp_err_buf :=
       Some {| SimpleRead.buffer := 0x5000; SimpleRead.dma_addr := 0x50000 |};
     SimpleRead.setup_allocate_rdma_pd := 0x6000;
     SimpleRead.setup_open := 4;
     SimpleRead.arp_output :=
       Some ["? (192.168.1.100) at 0a:35:00:01:02:03 [ether] on eth1"];
     SimpleRead.uninit_mac := 0;
     SimpleRead.uninit_fpga_fd := 0;
     SimpleRead.alloc_run_buffer :=
       Some {| SimpleRead.buffer := 0x7f0000001000;
               SimpleRead.dma_addr := 0x40000000 |};
     SimpleRead.run_allocate_rdma_pd := 0x6000;
     SimpleRead.write_from_buffer := 0;
     SimpleRead.run_socket := 5;
     SimpleRead.bind_ret := 0;
     SimpleRead.listen_ret := 0;
     SimpleRead.accept_ret := 6;
     SimpleRead.send_ret := 8;
     SimpleRead.client_open := 4;
     SimpleRead.connect_ret := 0;
     SimpleRead.recv_ret := recv_ret_;
     SimpleRead.recv_bytes := recv_bytes_;
     SimpleRead.rdma_post_send := post_send_;
     SimpleRead.read_to_buffer := 0;
     SimpleRead.dev_words := fun _ => 0;
     SimpleRead.host_words := host_words_ |}.

(** The indexes, from [i] on and [k] of them, at which the received words
    differ from the golden ones. *)
Fixpoint mismatches (received_data : Z -> Z) (golden_data : list Z)
    (k : nat) (i : Z) : list Z :=
  match k with
  | O => []
  | S k' =>
      if received_data i =? nth (Z.to_nat i) golden_data 0
      then mismatches received_data golden_data k' (i + 1)
      else i :: mismatches received_data golden_data k' (i + 1)
  end.

(** The line printed for a mismatch at index [i]. *)
Definition mismatch_line (received_data : Z -> Z) (golden_data : list Z)
    (i : Z) : SimpleRead.event :=
  SimpleRead.EvStderr
    (SimpleRead.Mismatch i (nth (Z.to_nat i) golden_data 0) (received_data i)).

(** A payload size the specification calls valid, as a [uint32_t]. *)
Definition valid_payload (P : Z) : Prop :=
  4 <= P < 2 ^ 32 /\ P mod 4 = 0.

(** The reader's buffer, zeroed. *)
Definition zeroed : Z -> Z := fun _ => 0.

(** The word indexes below [n] whose pattern word is not zero. *)
Definition nonzero_pattern_indexes (n : Z) : list Z :=
  filter (fun i => negb (i mod 256 =? 0)) (map Z.of_nat (seq 0 (Z.to_nat n))).

(** What the link-layer lookup returns, apart from its events: the status
    and [*mac_addr]. *)
Fixpoint arp_result (w : SimpleRead.world) (lines : list string)
    (mac : SimpleRead.mac_addr_t) : Z * SimpleRead.mac_addr_t :=
  match lines with
  | [] => (-1, mac)
  | line :: rest =>
      match strstr line "no match found" with
      | Some _ => (-1, mac)
      | None =>
          match strstr line "at" with
          | Some mac_ptr =>
              (0, SimpleRead.convert_mac_addr_str_to_uint w
                    (substring 3 17 mac_ptr))
          | None => arp_result w rest mac
          end
      end
  end.

Definition lookup_result (w : SimpleRead.world) : Z * SimpleRead.mac_addr_t :=
  match SimpleRead.arp_output w with
  | None => (-1, SimpleRead.uninit_mac w)
  | Some lines => arp_result w lines (SimpleRead.uninit_mac w)
  end.

(** The calls of the data-reader before queue-pair provisioning succeed,
    and the receive buffer is [b]. *)
Definition client_reaches_provisioning (w : SimpleRead.world)
    (b : SimpleRead.rdma_buff_t) : Prop :=
  0 <= SimpleRead.client_open w /\
  fst (lookup_result w) = 0 /\
  0 <= SimpleRead.run_socket w /\
  0 <= SimpleRead.connect_ret w /\
  SimpleRead.recv_ret w = 8 /\
  SimpleRead.alloc_run_buffer w = Some b.

(** The lines of the debug listing of the received words. *)
Fixpoint debug_lines (received_data : Z -> Z) (words : Z) (k : nat) (i : Z)
  : list SimpleRead.event :=
  match k with
  | O => []
  | S k' =>
      if (i <? 16) && (i <? words)
      then SimpleRead.EvStdout (SimpleRead.DebugValue i (received_data i))
           :: debug_lines received_data words k' (i + 1)
      else []
  end.

(** Host memory in which every word is zero. *)
Definition zeroed_memory : Z -> Z -> Z := fun _ _ => 0.

(** The remote addresses of the work requests built in a run, and the
    messages sent on the coordination socket. *)
Fixpoint wqe_remote_offsets (l : list SimpleRead.event) : list Z :=
  match l with
  | [] => []
  | SimpleRead.EvCreateAWqe _ _ _ _ _ _ _ remote_offset _ :: r =>
      remote_offset :: wqe_remote_offsets r
  | _ :: r => wqe_remote_offsets r
  end.

Fixpoint sent_messages (l : list SimpleRead.event) : list (list Z) :=
  match l with
  | [] => []
  | SimpleRead.EvSend _ bytes :: r => bytes :: sent_messages r
  | _ :: r => sent_messages r
  end.

(** The stages of the data-provider role.  The specification has one
    PROVISION stage for the buffer and the queue pair; the two are kept
    apart here. *)
Inductive stage : Type :=
| OPEN_LOCAL_DEVICE
| RESOLVE_PEER
| PROVISION_BUFFER
| SEED_DATA
| BIND_LISTEN_RENDEZVOUS
| ACCEPT
| SEND_LOCAL_ADDR
| PROVISION_QP
| WAIT_FOR_OPERATOR_SIGNAL
| CLOSE.

(** The stage a call belongs to; diagnostics belong to none. *)
Definition stage_of (e : SimpleRead.event) : option stage :=
  match e with
  | SimpleRead.EvOpen _ => Some OPEN_LOCAL_DEVICE
  | SimpleRead.EvPopen _ | SimpleRead.EvPclose => Some RESOLVE_PEER
  | SimpleRead.EvAllocateRdmaBuffer _ _ _
  | SimpleRead.EvAllocateRdmaPd _ _
  | SimpleRead.EvRegisterMemoryRegion _ _ _ _ => Some PROVISION_BUFFER
  | SimpleRead.EvWriteFromBuffer _ _ _ _ _
  | SimpleRead.EvStoreWords _ _ => Some SEED_DATA
  | SimpleRead.EvSocket | SimpleRead.EvSetsockopt _
  | SimpleRead.EvBind _ _ _ | SimpleRead.EvListen _ _ =>
      Some BIND_LISTEN_RENDEZVOUS
  | SimpleRead.EvAccept _ => Some ACCEPT
  | SimpleRead.EvSend _ _ => Some SEND_LOCAL_ADDR
  | SimpleRead.EvAllocateRdmaQp _ _ _ _ _ _ _ _ _ _ _ _
  | SimpleRead.EvConfigLastRqPsn _ _ _
  | SimpleRead.EvConfigSqPsn _ _ _ => Some PROVISION_QP
  | SimpleRead.EvGetchar => Some WAIT_FOR_OPERATOR_SIGNAL
  | SimpleRead.EvClose _ => Some CLOSE
  | _ => None
  end.

Fixpoint stages (l : list SimpleRead.event) : list stage :=
  match l with
  | [] => []
  | e :: r =>
      match stage_of e with
      | Some s => s :: stages r
      | None => stages r
      end
  end.

(** The order the specification gives: the queue pair is provisioned with
    the buffer, before the data is seeded. *)
Definition spec_rank (s : stage) : nat :=
  match s with
  | OPEN_LOCAL_DEVICE => 0
  | RESOLVE_PEER => 1
  | PROVISION_BUFFER => 2
  | PROVISION_QP => 2
  | SEED_DATA => 3
  | BIND_LISTEN_RENDEZVOUS => 4
  | ACCEPT => 5
  | SEND_LOCAL_ADDR => 6
  | WAIT_FOR_OPERATOR_SIGNAL => 7
  | CLOSE => 8
  end.

(** The order of [run_rdma_server]: the queue pair is provisioned after
    the address is sent. *)
Definition code_rank (s : stage) : nat :=
  match s with
  | OPEN_LOCAL_DEVICE => 0
  | RESOLVE_PEER => 1
  | PROVISION_BUFFER => 2
  | SEED_DATA => 3
  | BIND_LISTEN_RENDEZVOUS => 4
  | ACCEPT => 5
  | SEND_LOCAL_ADDR => 6
  | PROVISION_QP => 7
  | WAIT_FOR_OPERATOR_SIGNAL => 8
  | CLOSE => 9
  end.

(** The stages of a run never step back in the given order. *)
Fixpoint in_order (rank : stage -> nat) (l : list stage) : bool :=
  match l with
  | a :: r =>
      match r with
      | b :: _ => Nat.leb (rank a) (rank b) && in_order rank r
      | [] => true
      end
  | [] => true
  end.

(** A run of stages, each named once. *)
Fixpoint collapse (l : list stage) : list stage :=
  match l with
  | a :: r =>
      match r with
      | b :: _ =>
          if Nat.eqb (code_rank a) (code_rank b) then collapse r
          else a :: collapse r
      | [] => [a]
      end
  | [] => []
  end.

(** Every [Q] event of the run comes after some [P] event. *)
Fixpoint preceded (P Q : SimpleRead.event -> bool) (seen : bool)
    (l : list SimpleRead.event) : bool :=
  match l with
  | [] => true
  | e :: r => (if Q e then seen else true) && preceded P Q (seen || P e) r
  end.

Definition is_bind (e : SimpleRead.event) : bool :=
  match e with SimpleRead.EvBind _ _ _ => true | _ => false end.

Definition is_send (e : SimpleRead.event) : bool :=
  match e with SimpleRead.EvSend _ _ => true | _ => false end.

(** A register window for examples: the word at [0x102000] (the version
    register) is read-only, every other word keeps what is written. *)
Definition toy_bar : Type := Z -> Z.

Definition toy_read (b : toy_bar) (offset : Z) : Z * toy_bar := (b offset, b).

Definition toy_write (b : toy_bar) (offset value : Z) : toy_bar :=
  if offset =? 0x102000 then b
  else fun o => if o =? offset then value else b o.

(** * Vocabulary of the further properties *)

(** The golden pattern of the specification for a payload of [P] bytes:
    [P / 4] words, the word at index [i] being [i mod 256]. *)
Definition golden_pattern (P : Z) : list Z :=
  map (fun i => Z.of_nat i mod 256) (seq 0 (Z.to_nat (P / 4))).

(** The calls that seed a buffer: a write to device memory, or the words
    stored in host memory. *)
Definition is_seed (e : SimpleRead.event) : bool :=
  match e with
  | SimpleRead.EvWriteFromBuffer _ _ _ _ _ | SimpleRead.EvStoreWords _ _ => true
  | _ => false
  end.

Definition seed_words (e : SimpleRead.event) : list Z :=
  match e with
  | SimpleRead.EvWriteFromBuffer _ _ words _ _ => words
  | SimpleRead.EvStoreWords _ words => words
  | _ => []
  end.

(** The words the buffers are seeded with along a run. *)
Definition seeds (tr : list SimpleRead.event) : list (list Z) :=
  map seed_words (filter is_seed tr).

(** A buffer placement the driver knows. *)
Definition valid_location (loc : string) : Prop :=
  loc = "host_mem" \/ loc = "dev_mem".

(** What the parser keeps true of a configuration. *)
Definition well_formed (cfg : SimpleRead.rdma_config_t) : Prop :=
  valid_location (SimpleRead.qp_location cfg) /\
  (SimpleRead.debug cfg <> 0 -> SimpleRead.verbose cfg <> 0).

(** An option after which the parser goes on to the next one: a letter it
    knows other than [-h], with a placement the driver knows when the
    letter is [-l]. *)
Definition goes_on (o : SimpleRead.getopt_result) : bool :=
  match SimpleRead.opt_char o with
  | "d"%char | "p"%char | "r"%char | "i"%char | "t"%char | "u"%char
  | "z"%char | "q"%char | "s"%char | "c"%char | "v"%char | "g"%char => true
  | "l"%char =>
      String.eqb (SimpleRead.optarg o) "host_mem" ||
      String.eqb (SimpleRead.optarg o) "dev_mem"
  | _ => false
  end.

(** The first option of a command line on which the parser does not go
    on, if there is one. *)
Definition first_stop (opts : list SimpleRead.getopt_result)
  : option SimpleRead.getopt_result :=
  find (fun o => negb (goes_on o)) opts.

(** The status and the lines on [stderr] with which the parser leaves at
    an option it does not go on from: help, a placement the driver does not
    know, an option the parser does not know. *)
Definition stop_report (o : SimpleRead.getopt_result) : Z * list string :=
  if Ascii.eqb (SimpleRead.opt_char o) "h" then (1, [])
  else if Ascii.eqb (SimpleRead.opt_char o) "l"
  then (-1, ["Error: Invalid QP location. Use 'host_mem' or 'dev_mem'"])
  else (-1, []).

(** The option letter [c] is on the command line. *)
Definition given (c : ascii) (opts : list SimpleRead.getopt_result) : bool :=
  existsb (fun o => Ascii.eqb (SimpleRead.opt_char o) c) opts.

(** Lines of [stderr] as events of a run. *)
Definition stderr_lines (printed : list string) : list SimpleRead.event :=
  map (fun s => SimpleRead.EvStderr (SimpleRead.Text s)) printed.

(** A line of the output of [arp -a] mentions a word. *)
Definition mentions (needle line : string) : bool :=
  match strstr line needle with Some _ => true | None => false end.

(** The calls that open and close the pipe to [arp]. *)
Definition is_pipe_call (e : SimpleRead.event) : bool :=
  match e with
  | SimpleRead.EvPopen _ | SimpleRead.EvPclose => true
  | _ => false
  end.

(** The lines before the first that decides the lookup: they mention
    neither the missing entry nor an address. *)
Definition undecided (line : string) : Prop :=
  mentions "no match found" line = false /\ mentions "at" line = false.

(** Every call of [setup_rdma_environment] that the function tests
    succeeds. *)
Definition setup_calls_succeed (w : SimpleRead.world) : Prop :=
  0 <= SimpleRead.setup_socket w /\
  SimpleRead.create_rn_dev w <> 0 /\
  SimpleRead.create_rdma_dev w <> 0 /\
  SimpleRead.alloc_cidb_buffer w <> None /\
  SimpleRead.alloc_data_buf w <> None /\
  SimpleRead.alloc_ipkterr_buf w <> None /\
  SimpleRead.alloc_err_buf w <> None /\
  SimpleRead.alloc_resp_err_buf w <> None /\
  SimpleRead.setup_allocate_rdma_pd w <> 0 /\
  0 <= SimpleRead.setup_open w.

(** Every call of [run_rdma_server] that the function tests succeeds;
    [write_from_buffer] is called for device-resident buffers only. *)
Definition server_calls_succeed (w : SimpleRead.world)
    (cfg : SimpleRead.rdma_config_t) : Prop :=
  0 <= fst (lookup_result w) /\
  SimpleRead.alloc_run_buffer w <> None /\
  (String.eqb (SimpleRead.qp_location cfg) "dev_mem" = true ->
   0 <= SimpleRead.write_from_buffer w) /\
  0 <= SimpleRead.run_socket w /\
  0 <= SimpleRead.bind_ret w /\
  0 <= SimpleRead.listen_ret w /\
  0 <= SimpleRead.accept_ret w /\
  SimpleRead.send_ret w = 8.

(** Every call of [run_rdma_client] that the function tests succeeds, with
    the receive buffer [b]. *)
Definition client_calls_succeed (w : SimpleRead.world)
    (cfg : SimpleRead.rdma_config_t) (b : SimpleRead.rdma_buff_t) : Prop :=
  0 <= SimpleRead.client_open w /\
  0 <= fst (lookup_result w) /\
  0 <= SimpleRead.run_socket w /\
  0 <= SimpleRead.connect_ret w /\
  SimpleRead.recv_ret w = 8 /\
  SimpleRead.alloc_run_buffer w = Some b /\
  0 <= SimpleRead.rdma_post_send w /\
  (String.eqb (SimpleRead.qp_location cfg) "dev_mem" = true ->
   0 <= SimpleRead.read_to_buffer w).

(** The words the client compares: read back from the device for a
    device-resident buffer, else found in host memory at the buffer. *)
Definition retrieved_words (w : SimpleRead.world)
    (cfg : SimpleRead.rdma_config_t) (b : SimpleRead.rdma_buff_t) : Z -> Z :=
  if String.eqb (SimpleRead.qp_location cfg) "dev_mem"
  then SimpleRead.dev_words w
  else SimpleRead.host_words w (SimpleRead.buffer b).

(** The first [n] words are the golden pattern. *)
Definition matches_pattern (received_data : Z -> Z) (n : Z) : Prop :=
  forall i, 0 <= i < n -> received_data i = i mod 256.

Definition is_close (e : SimpleRead.event) : bool :=
  match e with SimpleRead.EvClose _ => true | _ => false end.

(** Host memory that holds the golden pattern at every buffer. *)
Definition pattern_memory : Z -> Z -> Z := fun _ i => i mod 256.

Definition is_connect (e : SimpleRead.event) : bool :=
  match e with SimpleRead.EvConnect _ _ _ => true | _ => false end.

(** The driver calls that set up and use the queue pair. *)
Definition is_qp_call (e : SimpleRead.event) : bool :=
  match e with
  | SimpleRead.EvAllocateRdmaQp _ _ _ _ _ _ _ _ _ _ _ _
  | SimpleRead.EvConfigLastRqPsn _ _ _
  | SimpleRead.EvConfigSqPsn _ _ _
  | SimpleRead.EvCreateAWqe _ _ _ _ _ _ _ _ _
  | SimpleRead.EvRdmaPostSend _ _ => true
  | _ => false
  end.


(** The events [l] when [b] holds, none otherwise. *)
Definition events_when (b : bool) (l : list SimpleRead.event)
  : list SimpleRead.event := if b then l else [].

(** A computation that leaves the two device globals as they are and only
    adds events: run after the events [tr], it returns what it returns on
    its own and adds the events of its own run to [tr]. *)
Definition framed {A} (m : SimpleRead.M A) : Prop :=
  forall rn rdma tr,
    m (st rn rdma tr)
    = (fst (m (st rn rdma [])),
       st rn rdma (tr ++ SimpleRead.trace (snd (m (st rn rdma []))))).

(** The role [main] runs for a configuration. *)
Definition session_of (w : SimpleRead.world) (cfg : SimpleRead.rdma_config_t)
  : SimpleRead.M Z :=
  if negb (SimpleRead.is_server cfg =? 0)
  then SimpleRead.run_rdma_server w cfg
  else SimpleRead.run_rdma_client w cfg.

(** The status a function of the program returned. *)
Definition returned (r : (Z + Z) * SimpleRead.state) : Z :=
  match fst r with inl c => c | inr c => c end.

(** The world [w] in which [create_rdma_dev] fails. *)
Definition without_rdma_dev (w : SimpleRead.world) : SimpleRead.world :=
  {| SimpleRead.convert_ip_addr_to_uint := SimpleRead.convert_ip_addr_to_uint w;
     SimpleRead.convert_mac_addr_str_to_uint :=
       SimpleRead.convert_mac_addr_str_to_uint w;
     SimpleRead.HUGE_PAGE_SHIFT := SimpleRead.HUGE_PAGE_SHIFT w;
     SimpleRead.preallocated_hugepages := SimpleRead.preallocated_hugepages w;
     SimpleRead.setup_socket := SimpleRead.setup_socket w;
     SimpleRead.get_mac_addr_from_str_ip := SimpleRead.get_mac_addr_from_str_ip w;
     SimpleRead.create_rn_dev := SimpleRead.create_rn_dev w;
     SimpleRead.create_rdma_dev := 0;
     SimpleRead.alloc_cidb_buffer := SimpleRead.alloc_cidb_buffer w;
     SimpleRead.alloc_data_buf := SimpleRead.alloc_data_buf w;
     SimpleRead.alloc_ipkterr_buf := SimpleRead.alloc_ipkterr_buf w;
     SimpleRead.alloc_err_buf := SimpleRead.alloc_err_buf w;
     SimpleRead.alloc_resp_err_buf := SimpleRead.alloc_resp_err_buf w;
     SimpleRead.setup_allocate_rdma_pd := SimpleRead.setup_allocate_rdma_pd w;
     SimpleRead.setup_open := SimpleRead.setup_open w;
     SimpleRead.arp_output := SimpleRead.arp_output w;
     SimpleRead.uninit_mac := SimpleRead.uninit_mac w;
     SimpleRead.uninit_fpga_fd := SimpleRead.uninit_fpga_fd w;
     SimpleRead.alloc_run_buffer := SimpleRead.alloc_run_buffer w;
     SimpleRead.run_allocate_rdma_pd := SimpleRead.run_allocate_rdma_pd w;
     SimpleRead.write_from_buffer := SimpleRead.write_from_buffer w;
     SimpleRead.run_socket := SimpleRead.run_socket w;
     SimpleRead.bind_ret := SimpleRead.bind_ret w;
     SimpleRead.listen_ret := SimpleRead.listen_ret w;
     SimpleRead.accept_ret := SimpleRead.accept_ret w;
     SimpleRead.send_ret := SimpleRead.send_ret w;
     SimpleRead.client_open := SimpleRead.client_open w;
     SimpleRead.connect_ret := SimpleRead.connect_ret w;
     SimpleRead.recv_ret := SimpleRead.recv_ret w;
     SimpleRead.recv_bytes := SimpleRead.recv_bytes w;
     SimpleRead.rdma_post_send := SimpleRead.rdma_post_send w;
     SimpleRead.read_to_buffer := SimpleRead.read_to_buffer w;
     SimpleRead.dev_words := SimpleRead.dev_words w;
     SimpleRead.host_words := SimpleRead.host_words w |}.

(** The number a line of binary digits spells, most significant digit
    first; any other character (the spaces between bytes) is passed over. *)
Fixpoint bits_value_from (s : string) (acc : Z) : Z :=
  match s with
  | EmptyString => acc
  | String c r =>
      if Ascii.eqb c "0" then bits_value_from r (2 * acc)
      else if Ascii.eqb c "1" then bits_value_from r (2 * acc + 1)
      else bits_value_from r acc
  end.

Definition bits_value (s : string) : Z := bits_value_from s 0.

(** The number of characters of a string that are the digits 0 and 1. *)
Fixpoint count_bits (s : string) : nat :=
  match s with
  | EmptyString => 0
  | String c r =>
      if (Ascii.eqb c "0" || Ascii.eqb c "1")%bool then S (count_bits r)
      else count_bits r
  end.

(** A string of hexadecimal digits, and the number it denotes: the digit at
    distance [n] from the end counts [16 ^ n]. *)
Fixpoint all_hex (s : string) : bool :=
  match s with
  | EmptyString => true
  | String c r =>
      match hex_digit_of c with
      | Some _ => all_hex r
      | None => false
      end
  end.

Fixpoint hex_value (s : string) : Z :=
  match s with
  | EmptyString => 0
  | String c r =>
      match hex_digit_of c with
      | Some d => d * 16 ^ Z.of_nat (String.length r) + hex_value r
      | None => 0
      end
  end.



(** What the ARM tool stores to the window, and the offsets it loads
    from. *)
Definition stores_of (acc : list RegisterTestArm.access) : list (Z * Z) :=
  flat_map (fun a => match a with
                     | RegisterTestArm.Store offset value => [(offset, value)]
                     | _ => []
                     end) acc.

Definition loads_of (acc : list RegisterTestArm.access) : list Z :=
  flat_map (fun a => match a with
                     | RegisterTestArm.Load offset _ => [offset]
                     | _ => []
                     end) acc.

(** Accesses made of fenced reads and fenced writes only: a load between
    two read barriers; a store between two write barriers, followed by a
    load of the same offset and a read barrier. *)
Inductive fenced : list RegisterTestArm.access -> Prop :=
| fenced_nil : fenced []
| fenced_read offset value rest :
    fenced rest ->
    fenced (RegisterTestArm.Rmb :: RegisterTestArm.Load offset value ::
            RegisterTestArm.Rmb :: rest)
| fenced_write offset value dropped rest :
    fenced rest ->
    fenced (RegisterTestArm.Wmb :: RegisterTestArm.Store offset value ::
            RegisterTestArm.Wmb :: RegisterTestArm.Load offset dropped ::
            RegisterTestArm.Rmb :: rest).

(** What a step of the comprehensive tests adds to the accesses. *)
Definition adds {bar : Type} (stores : list (Z * Z)) (loads : list Z)
    (s s' : RegisterTestArm.tests_state bar) : Prop :=
  stores_of (snd s') = stores_of (snd s) ++ stores /\
  loads_of (snd s') = loads_of (snd s) ++ loads /\
  (fenced (snd s) -> fenced (snd s')).

(** The stores of the comprehensive tests, given the offsets of the two
    template registers. *)
Definition template_stores (scr_template clr_template : Z) : list (Z * Z) :=
  [(scr_template, 0x12345678); (scr_template, 0xDEADBEEF);
   (scr_template, 0xCAFEBABE); (scr_template, 0x55AA55AA);
   (scr_template, 0x00000000); (scr_template, 0xFFFFFFFF);
   (clr_template, 0x87654321)].



(** * Properties *)

(** ** Byte order *)

Lemma le_bytes_length (n : nat) (x : Z) : List.length (le_bytes n x) = n.
Proof.
  revert x; induction n as [|n IH]; intros x; simpl; [reflexivity|].
  now rewrite IH.
Qed.

Lemma le_bytes_is_byte (n : nat) (x : Z) : Forall is_byte (le_bytes n x).
Proof.
  revert x; induction n as [|n IH]; intros x; simpl; constructor.
  - unfold is_byte. apply Z.mod_pos_bound. lia.
  - apply IH.
Qed.

Lemma le_value_le_bytes (n : nat) (x : Z) :
  le_value (le_bytes n x) = x mod 256 ^ Z.of_nat n.
Proof.
  revert x; induction n as [|n IH]; intros x.
  - simpl. now rewrite Z.mod_1_r.
  - cbn [le_bytes le_value]. rewrite IH.
    rewrite Nat2Z.inj_succ, Z.pow_succ_r by lia.
    rewrite Z.rem_mul_r by lia. reflexivity.
Qed.

Lemma le_bytes_le_value (l : list Z) :
  Forall is_byte l -> le_bytes (List.length l) (le_value l) = l.
Proof.
  induction 1 as [|b l Hb Hl IH]; [reflexivity|].
  cbn [List.length le_bytes le_value]. unfold is_byte in Hb.
  replace (b + 256 * le_value l) with (b + le_value l * 256) by lia.
  rewrite Z.mod_add, Z.div_add by lia.
  rewrite (Z.mod_small b), (Z.div_small b) by lia.
  cbn. now rewrite IH.
Qed.

Lemma bswap64_involutive (x : Z) :
  0 <= x < 2 ^ 64 -> bswap64 (bswap64 x) = x.
Proof.
  intros Hx. unfold bswap64.
  assert (Hlen : List.length (rev (le_bytes 8 x)) = 8%nat)
    by now rewrite length_rev, le_bytes_length.
  assert (Hb : Forall is_byte (rev (le_bytes 8 x)))
    by (apply Forall_rev, le_bytes_is_byte).
  pose proof (le_bytes_le_value _ Hb) as E. rewrite Hlen in E.
  rewrite E, rev_involutive, le_value_le_bytes.
  apply Z.mod_small. exact Hx.
Qed.

Lemma bswap64_range (x : Z) : 0 <= bswap64 x < 2 ^ 64.
Proof.
  unfold bswap64.
  assert (Hlen : List.length (rev (le_bytes 8 x)) = 8%nat)
    by now rewrite length_rev, le_bytes_length.
  assert (Hb : Forall is_byte (rev (le_bytes 8 x)))
    by (apply Forall_rev, le_bytes_is_byte).
  pose proof (le_bytes_le_value _ Hb) as E. rewrite Hlen in E.
  pose proof (le_value_le_bytes 8 (le_value (rev (le_bytes 8 x)))) as V.
  rewrite E in V. rewrite V.
  change (256 ^ Z.of_nat 8) with (2 ^ 64).
  apply Z.mod_pos_bound. lia.
Qed.

Lemma load64_store64 (x : Z) : 0 <= x < 2 ^ 64 -> load64 (store64 x) = x.
Proof.
  intros Hx. unfold load64, store64.
  rewrite firstn_all2 by (rewrite le_bytes_length; lia).
  rewrite le_value_le_bytes. apply Z.mod_small. exact Hx.
Qed.

Lemma store64_htonll (x : Z) : store64 (htonll x) = be_bytes64 x.
Proof.
  unfold store64, htonll, bswap64, be_bytes64.
  assert (Hlen : List.length (rev (le_bytes 8 x)) = 8%nat)
    by now rewrite length_rev, le_bytes_length.
  assert (Hb : Forall is_byte (rev (le_bytes 8 x)))
    by (apply Forall_rev, le_bytes_is_byte).
  pose proof (le_bytes_le_value _ Hb) as E. now rewrite Hlen in E.
Qed.

(** C6. For every 64-bit address [A], the eight bytes the provider puts on
    the wire ([htonll], then the memory image handed to [send]) are the
    big-endian bytes of [A], and the reader, loading the eight bytes it
    received and applying [ntohll], recovers exactly [A]. *)
Theorem rendezvous_address_round_trip (A : Z) (HA : 0 <= A < 2 ^ 64) :
  store64 (htonll A) = be_bytes64 A /\
  List.length (store64 (htonll A)) = 8%nat /\
  ntohll (load64 (store64 (htonll A))) = A.
Proof.
  split; [apply store64_htonll|]. split.
  - unfold store64. apply le_bytes_length.
  - unfold ntohll. rewrite load64_store64 by apply bswap64_range.
    unfold htonll. now apply bswap64_involutive.
Qed.

Lemma rendezvous_address_round_trip_witness :
  0 <= 0x0102030405060708 < 2 ^ 64 /\
  store64 (htonll 0x0102030405060708) = [1; 2; 3; 4; 5; 6; 7; 8] /\
  ntohll (load64 (store64 (htonll 0x0102030405060708))) = 0x0102030405060708.
Proof.
  assert (H : 0 <= 0x0102030405060708 < 2 ^ 64) by lia.
  split; [exact H|].
  destruct (rendezvous_address_round_trip 0x0102030405060708 H) as (Hb & _ & Hr).
  split; [rewrite Hb; reflexivity | exact Hr].
Defined.

(** ** Argument parsing *)

Section ParseFacts.

Import SimpleRead.

Variable conv : string -> Z.

Lemma parse_option_keeps_qp_ids (o : getopt_result) (cfg cfg' : rdma_config_t) :
  parse_option conv o cfg = inl cfg' ->
  dst_qp_id cfg = qp_id cfg -> dst_qp_id cfg' = qp_id cfg'.
Proof.
  destruct o as [c a]. unfold parse_option. cbn [opt_char optarg].
  intros H Hq.
  destruct c as [[] [] [] [] [] [] [] []]; cbn in H;
    try discriminate H;
    try (injection H as <-; cbn; exact Hq);
    try (injection H as <-; reflexivity).
  destruct (String.eqb a "host_mem" || String.eqb a "dev_mem")%bool;
    [injection H as <-; cbn; exact Hq | discriminate H].
Qed.

Lemma parse_loop_keeps_qp_ids (opts : list getopt_result) :
  forall cfg, dst_qp_id cfg = qp_id cfg ->
  dst_qp_id (snd (parse_loop conv opts cfg)) = qp_id (snd (parse_loop conv opts cfg)).
Proof.
  induction opts as [|o rest IH]; intros cfg Hq; cbn [parse_loop].
  - exact Hq.
  - destruct (parse_option conv o cfg) as [cfg'|code] eqn:E.
    + apply IH. eapply parse_option_keeps_qp_ids; eassumption.
    + exact Hq.
Qed.

Lemma parse_arguments_config (opts : list getopt_result) (cfg : rdma_config_t) :
  snd (fst (parse_arguments conv opts cfg)) = snd (parse_loop conv opts cfg).
Proof.
  unfold parse_arguments.
  destruct (parse_loop conv opts cfg) as [[[code printed]|] cfg'];
    cbn [fst snd]; [reflexivity|].
  repeat match goal with
         | |- context [if ?b then _ else _] => destruct b
         end; reflexivity.
Qed.

Lemma parse_option_q (a : string) (cfg : rdma_config_t) :
  exists cfg', parse_option conv (Opt "q" a) cfg = inl cfg' /\
               qp_id cfg' = to_uint32 (atoi a) /\
               dst_qp_id cfg' = to_uint32 (atoi a).
Proof. eexists; split; [reflexivity|]. split; reflexivity. Qed.

End ParseFacts.

(** C10. For every configuration that argument parsing accepts, the peer
    queue-pair id equals the local one: both start from [DEFAULT_QP_ID], the
    [-q] option writes its value to both, and nothing else changes
    either. *)
Theorem peer_qp_id_equals_local_qp_id
    (conv : string -> Z) (opts : list SimpleRead.getopt_result)
    (cfg : SimpleRead.rdma_config_t)
    (Haccepted : fst (SimpleRead.parse_arguments conv opts SimpleRead.init_config)
                 = (0, cfg)) :
  SimpleRead.dst_qp_id cfg = SimpleRead.qp_id cfg /\
  SimpleRead.dst_qp_id SimpleRead.init_config = SimpleRead.DEFAULT_QP_ID /\
  SimpleRead.qp_id SimpleRead.init_config = SimpleRead.DEFAULT_QP_ID /\
  (forall a c, exists c',
      SimpleRead.parse_option conv (SimpleRead.Opt "q" a) c = inl c' /\
      SimpleRead.qp_id c' = to_uint32 (atoi a) /\
      SimpleRead.dst_qp_id c' = to_uint32 (atoi a)).
Proof.
  split; [|split; [reflexivity|split; [reflexivity|apply parse_option_q]]].
  pose proof (parse_arguments_config conv opts SimpleRead.init_config) as E.
  rewrite Haccepted in E. cbn [snd] in E. rewrite E.
  apply parse_loop_keeps_qp_ids. reflexivity.
Qed.

Lemma peer_qp_id_equals_local_qp_id_witness :
  let cfg := snd (fst (SimpleRead.parse_arguments (fun _ => 0)
                    (client_command_line ++ [option_of "q" "5"])
                    SimpleRead.init_config)) in
  SimpleRead.dst_qp_id cfg = 5 /\ SimpleRead.qp_id cfg = 5.
Proof.
  intros cfg.
  assert (Hacc : fst (SimpleRead.parse_arguments (fun _ => 0)
                   (client_command_line ++ [option_of "q" "5"])
                   SimpleRead.init_config) = (0, cfg))
    by (vm_compute; reflexivity).
  destruct (peer_qp_id_equals_local_qp_id _ _ _ Hacc) as (H & _).
  split; [rewrite H|]; vm_compute; reflexivity.
Defined.

(** ** Runs of the helper loops *)

Section RunFacts.

Import SimpleRead.

Lemma arp_loop_run (w : world) (ip : string) (lines : list string)
    (mac : mac_addr_t) (rn rdma : Z) (tr : list event) :
  exists extra,
    arp_loop w ip lines mac (st rn rdma tr)
    = (inl (arp_result w lines mac), st rn rdma (tr ++ extra)) /\
    (extra = [] \/
     (extra = [EvStderr (NoArpEntry ip)] /\ fst (arp_result w lines mac) = -1)).
Proof.
  induction lines as [|line rest IH]; cbn [arp_loop arp_result].
  - exists []. rewrite app_nil_r. split; [reflexivity|]. now left.
  - destruct (strstr line "no match found").
    + exists [EvStderr (NoArpEntry ip)]. split; [reflexivity|].
      right. auto.
    + destruct (strstr line "at").
      * exists []. rewrite app_nil_r. split; [reflexivity|]. now left.
      * exact IH.
Qed.

(** The three shapes of a link-layer lookup: [popen] failed; the table has
    no entry; or the output was read to a matching line or to its end. *)
Lemma get_remote_mac_address_run (w : world) (ip : string)
    (rn rdma : Z) (tr : list event) :
  exists extra,
    get_remote_mac_address w ip (uninit_mac w) (st rn rdma tr)
    = (inl (lookup_result w), st rn rdma (tr ++ extra)) /\
    ((extra = [EvPopen (arp_command ip);
               EvStderr (Text "Error executing arp command")] /\
      fst (lookup_result w) = -1) \/
     (extra = [EvPopen (arp_command ip); EvStderr (NoArpEntry ip); EvPclose]
      /\ fst (lookup_result w) = -1) \/
     extra = [EvPopen (arp_command ip); EvPclose]).
Proof.
  unfold get_remote_mac_address, lookup_result.
  destruct (arp_output w) as [lines|].
  - destruct (arp_loop_run w ip lines (uninit_mac w) rn rdma
                (tr ++ [EvPopen (arp_command ip)]))
      as (extra & Hrun & Hcases).
    unfold bind, emit at 1. unfold st, arp_command in *.
    cbn [rn_dev rdma_dev trace]. rewrite Hrun.
    unfold emit, ret. cbn [rn_dev rdma_dev trace].
    destruct Hcases as [-> | [-> Hr]].
    + exists [EvPopen (substring 0 127 ("arp -a " ++ ip)); EvPclose]. split.
      * rewrite app_nil_r, <- app_assoc. reflexivity.
      * right; right. reflexivity.
    + exists [EvPopen (substring 0 127 ("arp -a " ++ ip));
              EvStderr (NoArpEntry ip); EvPclose]. split.
      * rewrite <- !app_assoc. reflexivity.
      * right; left. auto.
  - exists [EvPopen (arp_command ip);
            EvStderr (Text "Error executing arp command")]. split.
    + unfold perror, bind, emit, ret, st. cbn [rn_dev rdma_dev trace].
      rewrite <- app_assoc. reflexivity.
    + left. auto.
Qed.

Lemma debug_loop_run (received_data : Z -> Z) (words : Z) (rn rdma : Z)
    (k : nat) :
  forall (i : Z) (tr : list event),
  debug_loop received_data words k i (st rn rdma tr)
  = (inl tt, st rn rdma (tr ++ debug_lines received_data words k i)).
Proof.
  induction k as [|k IH]; intros i tr; cbn [debug_loop debug_lines].
  - unfold ret. now rewrite app_nil_r.
  - destruct ((i <? 16) && (i <? words))%bool.
    + unfold bind, emit, st. cbn [rn_dev rdma_dev trace].
      fold (st rn rdma (tr ++ [EvStdout (DebugValue i (received_data i))])).
      rewrite IH. now rewrite <- app_assoc.
    + unfold ret. now rewrite app_nil_r.
Qed.

End RunFacts.

(** Tests of the program, as propositions. *)
Ltac tests_to_props :=
  repeat match goal with
         | H : (_ <? _) = true |- _ => apply Z.ltb_lt in H
         | H : (_ <? _) = false |- _ => apply Z.ltb_ge in H
         | H : negb (_ =? _) = true |- _ =>
             apply negb_true_iff, Z.eqb_neq in H
         | H : negb (_ =? _) = false |- _ =>
             apply negb_false_iff, Z.eqb_eq in H
         | H : (_ =? _) = true |- _ => apply Z.eqb_eq in H
         | H : (_ =? _) = false |- _ => apply Z.eqb_neq in H
         end.

(** A path the hypotheses exclude. *)
Ltac absurd_path := exfalso; tests_to_props; (lia || congruence).

(** ** The data-reader role *)

(** One step of a run: decide the next test of the program. *)
Ltac run_step :=
  match goal with
  | |- context [if ?c then _ else _] =>
      lazymatch c with
      | context [if _ then _ else _] => fail
      | _ => destruct c eqn:?
      end
  | |- context [match ?c with Some _ => _ | None => _ end] =>
      destruct c eqn:?
  end;
  cbn [SimpleRead.trace SimpleRead.rn_dev SimpleRead.rdma_dev app fst snd].

Ltac run_unfold :=
  unfold SimpleRead.status, SimpleRead.events;
  unfold SimpleRead.bind, SimpleRead.when, SimpleRead.perror,
    SimpleRead.eprint, SimpleRead.emit, SimpleRead.ret, SimpleRead.return_,
    SimpleRead.get_rn_dev, SimpleRead.get_rdma_dev, SimpleRead.set_rn_dev,
    SimpleRead.set_rdma_dev;
  cbn [SimpleRead.trace SimpleRead.rn_dev SimpleRead.rdma_dev app fst snd].

(** Enter the client up to the link-layer lookup, whose three shapes become
    three goals. *)
Ltac enter_client w cfg rn rdma :=
  let extra := fresh "extra" in
  let Hrun := fresh "Hrun" in
  let Hc := fresh "Hc" in
  destruct (get_remote_mac_address_run w
              (SimpleRead.cstr (SimpleRead.dst_ip_str cfg)) rn rdma
              [SimpleRead.EvOpen (SimpleRead.device_name cfg)])
    as (extra & Hrun & Hc);
  unfold st in *; unfold SimpleRead.run_rdma_client; run_unfold;
  destruct (SimpleRead.client_open w <? 0) eqn:?;
  cbn [SimpleRead.trace SimpleRead.rn_dev SimpleRead.rdma_dev app fst snd];
  [ | rewrite Hrun; clear Hrun;
      cbn [SimpleRead.trace SimpleRead.rn_dev SimpleRead.rdma_dev app fst snd];
      destruct Hc as [[-> Hc]|[[-> Hc]| ->]];
      cbn [SimpleRead.trace SimpleRead.rn_dev SimpleRead.rdma_dev app fst snd] ].

(** C2. In every run of the data-reader in which [recv] on the
    coordination socket returns fewer than 8 bytes, the session aborts
    (status -1), no queue pair is ever allocated, and when the [recv] was
    reached the run ends with the protocol diagnostic and the close of the
    socket. *)
Theorem short_recv_aborts_before_qp
    (w : SimpleRead.world) (cfg : SimpleRead.rdma_config_t) (rn rdma : Z)
    (Hshort : SimpleRead.recv_ret w < 8) :
  let r := SimpleRead.run_rdma_client w cfg (st rn rdma []) in
  SimpleRead.status r = inr (-1) /\
  forallb (fun e => negb (is_allocate_rdma_qp e)) (SimpleRead.events r) = true /\
  (existsb is_recv (SimpleRead.events r) = true ->
   last_events 3 (SimpleRead.events r)
   = [SimpleRead.EvRecv (SimpleRead.run_socket w) 8;
      SimpleRead.EvStderr
        (SimpleRead.Text "Error receiving remote buffer offset");
      SimpleRead.EvClose (SimpleRead.run_socket w)]).
Proof.
  assert (Hne : negb (SimpleRead.recv_ret w =? 8) = true).
  { apply negb_true_iff, Z.eqb_neq. lia. }
  intros r; subst r.
  enter_client w cfg rn rdma; rewrite ?Hne;
    repeat run_step; rewrite ?Hne;
    cbn [SimpleRead.trace SimpleRead.rn_dev SimpleRead.rdma_dev app fst snd];
    (split; [reflexivity|split; [reflexivity|]]);
    cbn; intros H; try discriminate H; reflexivity.
Qed.

Lemma short_recv_aborts_before_qp_witness :
  exists w cfg,
    SimpleRead.recv_ret w = 3 /\
    SimpleRead.status (SimpleRead.run_rdma_client w cfg (st 1 2 [])) = inr (-1).
Proof.
  exists (demo_world 3 [1; 2; 3] 0 zeroed_memory).
  exists SimpleRead.init_config.
  split; [reflexivity|].
  refine (proj1 (short_recv_aborts_before_qp _ _ 1 2 _)).
  cbn. lia.
Defined.

(** C3. In every run of the data-reader in which [rdma_post_send] returns
    a negative code, the session aborts (status -1) without any read-back
    of the buffer and without any comparison of the data; when the work
    request was submitted, the run ends with the diagnostic that carries
    the code and the close of the socket. *)
Theorem submit_failure_skips_retrieve_and_verify
    (w : SimpleRead.world) (cfg : SimpleRead.rdma_config_t) (rn rdma : Z)
    (Hneg : SimpleRead.rdma_post_send w < 0) :
  let r := SimpleRead.run_rdma_client w cfg (st rn rdma []) in
  SimpleRead.status r = inr (-1) /\
  forallb (fun e => negb (is_retrieve e || is_verify e)) (SimpleRead.events r)
  = true /\
  (existsb is_post_send (SimpleRead.events r) = true ->
   last_events 3 (SimpleRead.events r)
   = [SimpleRead.EvRdmaPostSend rdma (SimpleRead.qp_id cfg);
      SimpleRead.EvStderr
        (SimpleRead.PostSendFailed (SimpleRead.rdma_post_send w));
      SimpleRead.EvClose (SimpleRead.run_socket w)]).
Proof.
  assert (Hlt : (SimpleRead.rdma_post_send w <? 0) = true)
    by (apply Z.ltb_lt; exact Hneg).
  intros r; subst r.
  enter_client w cfg rn rdma; rewrite ?Hlt;
    repeat run_step; rewrite ?Hlt;
    cbn [SimpleRead.trace SimpleRead.rn_dev SimpleRead.rdma_dev app fst snd];
    (split; [reflexivity|split; [reflexivity|]]);
    cbn; intros H; try discriminate H; reflexivity.
Qed.

Lemma submit_failure_skips_retrieve_and_verify_witness :
  let w := demo_world 8 (be_bytes64 0x7f0000001000) (-22) zeroed_memory in
  let r := SimpleRead.run_rdma_client w SimpleRead.init_config (st 4096 8192 []) in
  SimpleRead.rdma_post_send w = -22 /\
  SimpleRead.status r = inr (-1) /\
  last_events 3 (SimpleRead.events r)
  = [SimpleRead.EvRdmaPostSend 8192 2;
     SimpleRead.EvStderr (SimpleRead.PostSendFailed (-22));
     SimpleRead.EvClose 5].
Proof.
  intros w r.
  assert (Hneg : SimpleRead.rdma_post_send w < 0) by (cbn; lia).
  destruct (submit_failure_skips_retrieve_and_verify w SimpleRead.init_config
              4096 8192 Hneg) as (Hs & _ & Hl).
  split; [reflexivity|]. split; [exact Hs|].
  apply Hl. reflexivity.
Defined.

(** ** The golden pattern and the comparison loop *)

Lemma fill_loop_length (f : Z -> Z) (k : nat) (i : Z) :
  List.length (SimpleRead.fill_loop f k i) = k.
Proof.
  revert i; induction k as [|k IH]; intros i; cbn; [reflexivity|].
  now rewrite IH.
Qed.

Lemma fill_loop_nth (f : Z -> Z) (k : nat) :
  forall (i : Z) (j : nat) (d : Z), (j < k)%nat ->
  nth j (SimpleRead.fill_loop f k i) d = f (i + Z.of_nat j).
Proof.
  induction k as [|k IH]; intros i j d Hj; [lia|].
  destruct j as [|j]; cbn [SimpleRead.fill_loop nth].
  - f_equal. lia.
  - rewrite IH by lia. f_equal. lia.
Qed.

Lemma golden_word (cfg : SimpleRead.rdma_config_t) (i : Z) :
  0 <= i < SimpleRead.payload_size cfg / 4 ->
  nth (Z.to_nat i) (SimpleRead.client_golden_data cfg) 0 = i mod 256.
Proof.
  intros Hi. unfold SimpleRead.client_golden_data.
  rewrite fill_loop_nth by lia. f_equal. lia.
Qed.

(** The comparison loop counts every mismatch and prints those met while
    the count is below ten. *)
Lemma verify_loop_run (received_data : Z -> Z) (golden_data : list Z)
    (rn rdma : Z) (k : nat) :
  forall (i errors : Z) (tr : list SimpleRead.event), 0 <= errors ->
  SimpleRead.verify_loop received_data golden_data k i errors (st rn rdma tr)
  = (inl (errors
          + Z.of_nat (List.length (mismatches received_data golden_data k i))),
     st rn rdma
       (tr ++ map (mismatch_line received_data golden_data)
                (firstn (Z.to_nat (10 - errors))
                   (mismatches received_data golden_data k i)))).
Proof.
  induction k as [|k IH]; intros i errors tr He;
    cbn [SimpleRead.verify_loop mismatches].
  - cbn. rewrite firstn_nil, app_nil_r, Z.add_0_r. reflexivity.
  - destruct (received_data i =? nth (Z.to_nat i) golden_data 0) eqn:E;
      cbn [negb].
    + apply IH. exact He.
    + unfold SimpleRead.bind, SimpleRead.when.
      destruct (errors <? 10) eqn:Hlt.
      * apply Z.ltb_lt in Hlt.
        unfold SimpleRead.emit, st. cbn [SimpleRead.trace SimpleRead.rn_dev
                                          SimpleRead.rdma_dev].
        fold (st rn rdma (tr ++ [SimpleRead.EvStderr
               (SimpleRead.Mismatch i (nth (Z.to_nat i) golden_data 0)
                  (received_data i))])).
        rewrite IH by lia.
        replace (Z.to_nat (10 - errors)) with (S (Z.to_nat (10 - (errors + 1))))
          by lia.
        cbn [firstn map List.length]. rewrite <- app_assoc.
        apply f_equal2; [f_equal; lia|reflexivity].
      * apply Z.ltb_ge in Hlt.
        unfold SimpleRead.ret. rewrite IH by lia.
        replace (Z.to_nat (10 - (errors + 1))) with 0%nat by lia.
        replace (Z.to_nat (10 - errors)) with 0%nat by lia.
        cbn [firstn map List.length]. apply f_equal2; [f_equal; lia|reflexivity].
Qed.

Lemma mismatches_zeroed (cfg : SimpleRead.rdma_config_t) (k : nat) :
  forall a : nat,
  Z.of_nat (a + k) <= SimpleRead.payload_size cfg / 4 ->
  mismatches zeroed (SimpleRead.client_golden_data cfg) k (Z.of_nat a)
  = filter (fun i => negb (i mod 256 =? 0)) (map Z.of_nat (seq a k)).
Proof.
  induction k as [|k IH]; intros a Ha; [reflexivity|].
  cbn [mismatches seq map filter].
  rewrite golden_word by lia.
  replace (Z.of_nat a + 1) with (Z.of_nat (S a)) by lia.
  rewrite IH by lia. unfold zeroed.
  rewrite (Z.eqb_sym 0). now destruct (Z.of_nat a mod 256 =? 0).
Qed.

Lemma nonzero_pattern_count (k : nat) :
  Z.of_nat (List.length
              (filter (fun i => negb (i mod 256 =? 0))
                 (map Z.of_nat (seq 0 k))))
  = Z.of_nat k - (Z.of_nat k + 255) / 256.
Proof.
  induction k as [|k IH]; [reflexivity|].
  rewrite seq_S, map_app, filter_app, length_app, Nat2Z.inj_add, IH.
  cbn [Nat.add map filter].
  destruct (Z.of_nat k mod 256 =? 0) eqn:E; cbn [negb List.length].
  - apply Z.eqb_eq in E.
    pose proof (Z.div_mod (Z.of_nat k) 256 ltac:(lia)) as D.
    assert (H1 : (Z.of_nat k + 255) / 256 = Z.of_nat k / 256).
    { symmetry. apply (Z.div_unique _ _ _ 255); lia. }
    assert (H2 : (Z.of_nat (S k) + 255) / 256 = Z.of_nat k / 256 + 1).
    { symmetry. apply (Z.div_unique _ _ _ 0); lia. }
    rewrite H1, H2. lia.
  - apply Z.eqb_neq in E.
    pose proof (Z.div_mod (Z.of_nat k) 256 ltac:(lia)) as D.
    pose proof (Z.mod_pos_bound (Z.of_nat k) 256 ltac:(lia)) as B.
    assert (H1 : (Z.of_nat k + 255) / 256 = Z.of_nat k / 256 + 1).
    { symmetry. apply (Z.div_unique _ _ _ (Z.of_nat k mod 256 - 1)); lia. }
    assert (H2 : (Z.of_nat (S k) + 255) / 256 = Z.of_nat k / 256 + 1).
    { symmetry. apply (Z.div_unique _ _ _ (Z.of_nat k mod 256)); lia. }
    rewrite H1, H2. lia.
Qed.

Lemma nonzero_pattern_indexes_range (n i : Z) :
  In i (nonzero_pattern_indexes n) -> 0 <= i < n /\ i mod 256 <> 0.
Proof.
  unfold nonzero_pattern_indexes. rewrite filter_In, in_map_iff.
  intros [(a & <- & Ha) Hnz]. apply in_seq in Ha.
  apply negb_true_iff, Z.eqb_neq in Hnz. split; [lia|exact Hnz].
Qed.

Lemma in_firstn_in {A} (n : nat) (l : list A) (x : A) :
  In x (firstn n l) -> In x l.
Proof.
  intros H. rewrite <- (firstn_skipn n l). apply in_or_app. now left.
Qed.

(** C4, as the program has it.  For a valid payload size [P] and a zeroed
    receive buffer, the comparison loop counts the word indexes below
    [P / 4] whose pattern word [i mod 256] is not zero, that is
    [P / 4 - ceil ((P / 4) / 256)] mismatches, fewer than [P / 4]; it
    prints the first ten of them, or all when there are fewer, each with
    its index, the expected [i mod 256] and the actual [0], and nothing
    else. *)
Theorem zeroed_buffer_mismatch_report
    (cfg : SimpleRead.rdma_config_t) (rn rdma : Z)
    (tr : list SimpleRead.event)
    (Hvalid : valid_payload (SimpleRead.payload_size cfg)) :
  let n := SimpleRead.payload_size cfg / 4 in
  let count := n - (n + 255) / 256 in
  let r := SimpleRead.verify_loop zeroed (SimpleRead.client_golden_data cfg)
             (Z.to_nat n) 0 0 (st rn rdma tr) in
  SimpleRead.status r = inl count /\
  SimpleRead.events r
  = tr ++ map (fun i => SimpleRead.EvStderr
                          (SimpleRead.Mismatch i (i mod 256) 0))
            (firstn 10 (nonzero_pattern_indexes n)) /\
  Z.of_nat (List.length (nonzero_pattern_indexes n)) = count /\
  Z.of_nat (List.length (firstn 10 (nonzero_pattern_indexes n)))
  = Z.min 10 count /\
  count < n.
Proof.
  destruct Hvalid as [Hrange Hmod]. intros n count r.
  assert (Hn : 1 <= n).
  { unfold n. apply Z.div_le_lower_bound; lia. }
  assert (Hidx : mismatches zeroed (SimpleRead.client_golden_data cfg)
                   (Z.to_nat n) 0 = nonzero_pattern_indexes n).
  { apply (mismatches_zeroed cfg (Z.to_nat n) 0). fold n. lia. }
  assert (Hcount : Z.of_nat (List.length (nonzero_pattern_indexes n)) = count).
  { unfold nonzero_pattern_indexes. rewrite nonzero_pattern_count.
    unfold count. rewrite Z2Nat.id by lia. reflexivity. }
  subst r. rewrite verify_loop_run by lia. rewrite Hidx.
  unfold SimpleRead.status, SimpleRead.events, st.
  cbn [fst snd SimpleRead.trace].
  split; [f_equal; lia|]. split.
  - f_equal. change (Z.to_nat (10 - 0)) with 10%nat.
    apply map_ext_in. intros i Hi.
    apply in_firstn_in in Hi.
    apply nonzero_pattern_indexes_range in Hi.
    unfold mismatch_line, zeroed. rewrite golden_word by (fold n; lia).
    reflexivity.
  - split; [exact Hcount|]. split.
    + rewrite length_firstn. lia.
    + assert (1 <= (n + 255) / 256); [|unfold count; lia].
      apply Z.div_le_lower_bound; lia.
Qed.

Lemma zeroed_buffer_mismatch_report_witness :
  let r := SimpleRead.verify_loop zeroed
             (SimpleRead.client_golden_data SimpleRead.init_config)
             (Z.to_nat (1024 / 4)) 0 0 (st 4096 8192 []) in
  valid_payload 1024 /\
  SimpleRead.status r = inl 255 /\
  SimpleRead.events r
  = map (fun i => SimpleRead.EvStderr (SimpleRead.Mismatch i i 0))
      [1; 2; 3; 4; 5; 6; 7; 8; 9; 10].
Proof.
  intros r.
  assert (Hvalid : valid_payload (SimpleRead.payload_size SimpleRead.init_config)).
  { change (valid_payload 1024). unfold valid_payload.
    split; [lia|reflexivity]. }
  split; [exact Hvalid|].
  destruct (zeroed_buffer_mismatch_report SimpleRead.init_config 4096 8192 []
              Hvalid) as (Hs & He & _).
  split; [exact Hs | exact He].
Defined.

(** The claim of the specification fails at the default payload: of the 256
    words of a zeroed buffer, word 0 equals its pattern word, so 255
    mismatches are counted, not [1024 / 4]; and at payload 4 nothing
    mismatches, so nothing is printed. *)
Lemma zeroed_buffer_count_is_not_word_count :
  valid_payload 1024 /\
  SimpleRead.status
    (SimpleRead.verify_loop zeroed
       (SimpleRead.client_golden_data SimpleRead.init_config)
       (Z.to_nat (1024 / 4)) 0 0 (st 4096 8192 [])) = inl 255 /\
  255 <> 1024 / 4 /\
  valid_payload 4 /\
  SimpleRead.verify_loop zeroed
    (SimpleRead.client_golden_data
       (SimpleRead.set_payload_size 4 SimpleRead.init_config))
    (Z.to_nat (4 / 4)) 0 0 (st 4096 8192 [])
  = (inl 0, st 4096 8192 []) /\
  0 <> 4 / 4.
Proof.
  unfold valid_payload.
  repeat split; try lia; try reflexivity; try discriminate.
Qed.

(** ** The payload size and the queue-pair provisioner *)

Section PayloadFacts.

Import SimpleRead.

Variable conv : string -> Z.

Lemma parse_loop_status (opts : list getopt_result) :
  forall cfg code printed cfg',
  parse_loop conv opts cfg = (Some (code, printed), cfg') -> code <> 0.
Proof.
  induction opts as [|o rest IH]; intros cfg code printed cfg' H;
    cbn [parse_loop] in H.
  - discriminate H.
  - destruct (parse_option conv o cfg) as [c|k] eqn:E.
    + eapply IH; eassumption.
    + injection H as -> <-. clear IH.
      destruct o as [ch a]. unfold parse_option in E. cbn [opt_char optarg] in E.
      destruct ch as [[] [] [] [] [] [] [] []]; cbn in E;
        try discriminate E; try (injection E as <- _; lia).
      destruct (String.eqb a "host_mem" || String.eqb a "dev_mem")%bool;
        [discriminate E | injection E as <- _; lia].
Qed.

Lemma parse_loop_app (opts : list getopt_result) (o : getopt_result) :
  forall cfg0 cfg,
  parse_loop conv opts cfg0 = (None, cfg) ->
  parse_loop conv (opts ++ [o]) cfg0 = parse_loop conv [o] cfg.
Proof.
  induction opts as [|x rest IH]; intros cfg0 cfg H.
  - cbn in H. injection H as <-. reflexivity.
  - cbn [app]. cbn [parse_loop] in H |- *.
    destruct (parse_option conv x cfg0) as [c|k]; [|discriminate H].
    now apply IH.
Qed.

Lemma accepted_with_any_payload (opts : list getopt_result)
    (cfg : rdma_config_t) (a : string) :
  fst (parse_arguments conv opts init_config) = (0, cfg) ->
  fst (parse_arguments conv (opts ++ [Opt "z" a]) init_config)
  = (0, set_payload_size (to_uint32 (atoi a)) cfg).
Proof.
  unfold parse_arguments. intros H.
  destruct (parse_loop conv opts init_config) as [[[code printed]|] c] eqn:E.
  - exfalso. cbn [fst] in H. injection H as -> _.
    now apply (parse_loop_status _ _ _ _ _ E).
  - rewrite (parse_loop_app _ _ _ _ E). cbn [parse_loop parse_option opt_char optarg].
    cbn [set_payload_size src_ip_str dst_ip_str is_server is_client].
    destruct (is_null (src_ip_str c) || is_null (dst_ip_str c))%bool;
      [discriminate H|].
    destruct ((is_server c =? 0) && (is_client c =? 0))%bool;
      [discriminate H|].
    destruct (negb (is_server c =? 0) && negb (is_client c =? 0))%bool;
      [discriminate H|].
    cbn [fst] in H |- *. injection H as <-. reflexivity.
Qed.

End PayloadFacts.

(** Running the comparison and the debug listing of the client. *)
Ltac run_loops :=
  match goal with
  | |- context [SimpleRead.verify_loop ?rd ?gd ?k ?i ?e
                  {| SimpleRead.rn_dev := ?rn; SimpleRead.rdma_dev := ?rdma;
                     SimpleRead.trace := ?tr |}] =>
      let H := fresh in
      pose proof (verify_loop_run rd gd rn rdma k i e tr ltac:(lia)) as H;
      unfold st in H; rewrite H; clear H
  | |- context [SimpleRead.debug_loop ?rd ?n ?k ?i
                  {| SimpleRead.rn_dev := ?rn; SimpleRead.rdma_dev := ?rdma;
                     SimpleRead.trace := ?tr |}] =>
      let H := fresh in
      pose proof (debug_loop_run rd n rn rdma k i tr) as H;
      unfold st in H; rewrite H; clear H
  end;
  cbn [SimpleRead.trace SimpleRead.rn_dev SimpleRead.rdma_dev app fst snd].

Ltac run_all := repeat (run_step || run_loops).

Lemma client_reaches_qp_provisioning
    (w : SimpleRead.world) (cfg : SimpleRead.rdma_config_t)
    (b : SimpleRead.rdma_buff_t) (rn rdma : Z) :
  client_reaches_provisioning w b ->
  existsb is_allocate_rdma_qp
    (SimpleRead.events (SimpleRead.run_rdma_client w cfg (st rn rdma [])))
  = true.
Proof.
  intros (Hopen & Hlook & Hsock & Hconn & Hrecv & Hbuf).
  enter_client w cfg rn rdma; try absurd_path.
  rewrite Hbuf.
  run_all; try absurd_path; reflexivity.
Qed.

(** C1, as the program has it.  Argument parsing does not look at the
    payload size: an accepted command line stays accepted when [-z N] is
    appended, for any [N], and the configuration then holds
    [(uint32_t) atoi (N)]; with that configuration the data-reader calls
    [allocate_rdma_qp] whenever the calls before it succeed. *)
Theorem payload_size_is_not_validated
    (conv : string -> Z) (opts : list SimpleRead.getopt_result)
    (cfg : SimpleRead.rdma_config_t) (a : string)
    (w : SimpleRead.world) (b : SimpleRead.rdma_buff_t) (rn rdma : Z)
    (Haccepted : fst (SimpleRead.parse_arguments conv opts SimpleRead.init_config)
                 = (0, cfg))
    (Hreach : client_reaches_provisioning w b) :
  let cfg' := SimpleRead.set_payload_size (to_uint32 (atoi a)) cfg in
  fst (SimpleRead.parse_arguments conv (opts ++ [SimpleRead.Opt "z" a])
    SimpleRead.init_config) = (0, cfg') /\
  SimpleRead.payload_size cfg' = to_uint32 (atoi a) /\
  existsb is_allocate_rdma_qp
    (SimpleRead.events (SimpleRead.run_rdma_client w cfg' (st rn rdma [])))
  = true.
Proof.
  intros cfg'. split; [now apply accepted_with_any_payload|].
  split; [reflexivity|].
  now apply (client_reaches_qp_provisioning w cfg' b).
Qed.

Lemma payload_size_is_not_validated_witness :
  let w := demo_world 8 (be_bytes64 0x7f0000001000) 0 zeroed_memory in
  let cfg := snd (fst (SimpleRead.parse_arguments (SimpleRead.convert_ip_addr_to_uint w)
                    (client_command_line ++ [option_of "z" "6"])
                    SimpleRead.init_config)) in
  SimpleRead.payload_size cfg = 6 /\
  existsb is_allocate_rdma_qp
    (SimpleRead.events (SimpleRead.run_rdma_client w cfg (st 4096 8192 [])))
  = true.
Proof.
  intros w cfg.
  assert (Hreach : client_reaches_provisioning w
                     {| SimpleRead.buffer := 0x7f0000001000;
                        SimpleRead.dma_addr := 0x40000000 |}).
  { unfold client_reaches_provisioning.
    repeat split; vm_compute; (reflexivity || discriminate). }
  assert (Hacc : fst (SimpleRead.parse_arguments
                        (SimpleRead.convert_ip_addr_to_uint w) client_command_line
                   SimpleRead.init_config)
                 = (0, SimpleRead.set_is_client 1
                         (SimpleRead.set_dst_ip 0
                            (SimpleRead.set_dst_ip_str (Some "192.168.1.100")
                               (SimpleRead.set_src_ip 0
                                  (SimpleRead.set_src_ip_str
                                     (Some "192.168.1.101")
                                     SimpleRead.init_config))))))
    by (vm_compute; reflexivity).
  destruct (payload_size_is_not_validated _ _ _ "6" w _ 4096 8192 Hacc Hreach)
    as (Hparse & Hp & Hq).
  assert (Hcfg : cfg = SimpleRead.set_payload_size (to_uint32 (atoi "6"))
                         (SimpleRead.set_is_client 1
                            (SimpleRead.set_dst_ip 0
                               (SimpleRead.set_dst_ip_str (Some "192.168.1.100")
                                  (SimpleRead.set_src_ip 0
                                     (SimpleRead.set_src_ip_str
                                        (Some "192.168.1.101")
                                        SimpleRead.init_config))))))
    by (unfold cfg; unfold option_of at 1; rewrite Hparse; reflexivity).
  rewrite Hcfg. split; [vm_compute; reflexivity | exact Hq].
Defined.

(** The claim of the specification fails on the command lines
    [-r .. -i .. -c -z 3] and [-r .. -i .. -c -z 0]: both are accepted, and
    in a world where the calls succeed [main] goes on to allocate the queue
    pair with payload sizes 3 and 0. *)
Lemma bad_payload_reaches_qp_provisioner :
  let w := demo_world 8 (be_bytes64 0x7f0000001000) 0 zeroed_memory in
  let run3 := SimpleRead.main w (client_command_line ++ [option_of "z" "3"]) in
  let run0 := SimpleRead.main w (client_command_line ++ [option_of "z" "0"]) in
  fst (fst (SimpleRead.parse_arguments (SimpleRead.convert_ip_addr_to_uint w)
         (client_command_line ++ [option_of "z" "3"]) SimpleRead.init_config))
  = 0 /\
  SimpleRead.payload_size (fst run3) = 3 /\ 3 mod 4 <> 0 /\
  existsb is_allocate_rdma_qp (SimpleRead.events (snd run3)) = true /\
  fst (fst (SimpleRead.parse_arguments (SimpleRead.convert_ip_addr_to_uint w)
         (client_command_line ++ [option_of "z" "0"]) SimpleRead.init_config))
  = 0 /\
  SimpleRead.payload_size (fst run0) = 0 /\
  existsb is_allocate_rdma_qp (SimpleRead.events (snd run0)) = true.
Proof.
  cbv zeta. repeat split; try reflexivity. discriminate.
Qed.

(** ** The data-provider role *)

(** Enter the server after the link-layer lookup, whose three shapes become
    three goals. *)
Ltac enter_server w cfg rn rdma :=
  let extra := fresh "extra" in
  let Hrun := fresh "Hrun" in
  let Hc := fresh "Hc" in
  destruct (get_remote_mac_address_run w
              (SimpleRead.cstr (SimpleRead.dst_ip_str cfg)) rn rdma [])
    as (extra & Hrun & Hc);
  unfold st in *; unfold SimpleRead.run_rdma_server; run_unfold;
  rewrite Hrun; clear Hrun;
  cbn [SimpleRead.trace SimpleRead.rn_dev SimpleRead.rdma_dev app fst snd];
  destruct Hc as [[-> Hc]|[[-> Hc]| ->]];
  cbn [SimpleRead.trace SimpleRead.rn_dev SimpleRead.rdma_dev app fst snd].

Lemma setup_opens_device_last (w : SimpleRead.world)
    (cfg : SimpleRead.rdma_config_t) (rn rdma : Z) :
  let r := SimpleRead.setup_rdma_environment w cfg (st rn rdma []) in
  SimpleRead.status r = inr 0 ->
  last_events 1 (SimpleRead.events r)
  = [SimpleRead.EvOpen (SimpleRead.device_name cfg)] /\
  SimpleRead.rn_dev (snd r) = SimpleRead.create_rn_dev w /\
  SimpleRead.rdma_dev (snd r) = SimpleRead.create_rdma_dev w.
Proof.
  intros r; subst r. unfold st, SimpleRead.setup_rdma_environment.
  run_unfold. run_all; cbn; intros H; try discriminate H;
    repeat split; reflexivity.
Qed.

(** C7, as the program has it.  In every run of [run_rdma_server] the
    stages occur in the order RESOLVE_PEER, PROVISION of the buffer, SEED_DATA,
    BIND_LISTEN_RENDEZVOUS, ACCEPT, SEND_LOCAL_ADDR, PROVISION of the queue
    pair, WAIT_FOR_OPERATOR_SIGNAL, CLOSE, a run that aborts stopping early;
    a run that returns 0 goes through all of them; the queue pair is
    allocated only after the socket is bound and the address is sent; and
    the function opens no device itself: the device file is opened by
    [setup_rdma_environment], as the last call of a setup that succeeds. *)
Theorem provider_stage_order (w : SimpleRead.world)
    (cfg : SimpleRead.rdma_config_t) (rn rdma : Z) :
  let r := SimpleRead.run_rdma_server w cfg (st rn rdma []) in
  let setup := SimpleRead.setup_rdma_environment w cfg (st rn rdma []) in
  in_order code_rank (stages (SimpleRead.events r)) = true /\
  forallb (fun s => negb (Nat.eqb (code_rank s) (code_rank OPEN_LOCAL_DEVICE)))
    (stages (SimpleRead.events r)) = true /\
  preceded is_bind is_allocate_rdma_qp false (SimpleRead.events r) = true /\
  preceded is_send is_allocate_rdma_qp false (SimpleRead.events r) = true /\
  (SimpleRead.status r = inr 0 ->
   collapse (stages (SimpleRead.events r))
   = [RESOLVE_PEER; PROVISION_BUFFER; SEED_DATA; BIND_LISTEN_RENDEZVOUS;
      ACCEPT; SEND_LOCAL_ADDR; PROVISION_QP; WAIT_FOR_OPERATOR_SIGNAL; CLOSE]) /\
  (SimpleRead.status setup = inr 0 ->
   last_events 1 (SimpleRead.events setup)
   = [SimpleRead.EvOpen (SimpleRead.device_name cfg)]).
Proof.
  intros r setup.
  assert (Hsetup : SimpleRead.status setup = inr 0 ->
                   last_events 1 (SimpleRead.events setup)
                   = [SimpleRead.EvOpen (SimpleRead.device_name cfg)]).
  { intros H. now apply setup_opens_device_last. }
  clearbody setup. subst r.
  enter_server w cfg rn rdma; run_all;
    (split; [reflexivity|split; [reflexivity|split; [reflexivity|
       split; [reflexivity|split; [|exact Hsetup]]]]]);
    cbn; intros H; try discriminate H; reflexivity.
Qed.

Lemma provider_stage_order_witness :
  let w := demo_world 8 (be_bytes64 0x7f0000001000) 0 zeroed_memory in
  let cfg := snd (fst (SimpleRead.parse_arguments
                    (SimpleRead.convert_ip_addr_to_uint w)
                    server_command_line SimpleRead.init_config)) in
  let r := SimpleRead.run_rdma_server w cfg (st 4096 8192 []) in
  SimpleRead.status r = inr 0 /\
  collapse (stages (SimpleRead.events r))
  = [RESOLVE_PEER; PROVISION_BUFFER; SEED_DATA; BIND_LISTEN_RENDEZVOUS;
     ACCEPT; SEND_LOCAL_ADDR; PROVISION_QP; WAIT_FOR_OPERATOR_SIGNAL; CLOSE].
Proof.
  intros w cfg r.
  destruct (provider_stage_order w cfg 4096 8192) as (_ & _ & _ & _ & H & _).
  split; [reflexivity|]. apply H. reflexivity.
Defined.

(** The claim of the specification fails on the run of the provider in a
    world where every call succeeds: the queue pair is allocated after the
    socket is bound and after the address is sent, so the stages are not in
    the order the specification gives. *)
Lemma provider_provisions_qp_after_send :
  let w := demo_world 8 (be_bytes64 0x7f0000001000) 0 zeroed_memory in
  let cfg := snd (fst (SimpleRead.parse_arguments
                    (SimpleRead.convert_ip_addr_to_uint w)
                    server_command_line SimpleRead.init_config)) in
  let r := SimpleRead.run_rdma_server w cfg (st 4096 8192 []) in
  SimpleRead.status r = inr 0 /\
  in_order spec_rank (stages (SimpleRead.events r)) = false /\
  preceded is_allocate_rdma_qp is_bind false (SimpleRead.events r) = false /\
  preceded is_allocate_rdma_qp is_send false (SimpleRead.events r) = false.
Proof.
  cbv zeta. repeat split; reflexivity.
Qed.

(** ** The rendezvous value *)

Lemma wqe_remote_offsets_app (l1 l2 : list SimpleRead.event) :
  wqe_remote_offsets (l1 ++ l2) = wqe_remote_offsets l1 ++ wqe_remote_offsets l2.
Proof.
  induction l1 as [|e l1 IH]; [reflexivity|].
  destruct e; cbn [app wqe_remote_offsets]; rewrite IH; reflexivity.
Qed.

Lemma wqe_remote_offsets_mismatch_lines (received_data : Z -> Z)
    (golden_data : list Z) (l : list Z) :
  wqe_remote_offsets (map (mismatch_line received_data golden_data) l) = [].
Proof. induction l as [|i l IH]; [reflexivity|exact IH]. Qed.

Lemma wqe_remote_offsets_debug_lines (received_data : Z -> Z) (words : Z)
    (k : nat) :
  forall i, wqe_remote_offsets (debug_lines received_data words k i) = [].
Proof.
  induction k as [|k IH]; intros i; cbn [debug_lines]; [reflexivity|].
  destruct ((i <? 16) && (i <? words))%bool; [apply IH|reflexivity].
Qed.

Lemma decode_be_bytes64 (p : Z) :
  0 <= p < 2 ^ 64 -> ntohll (load64 (be_bytes64 p)) = p.
Proof.
  intros Hp. rewrite <- store64_htonll.
  unfold ntohll. rewrite load64_store64 by apply bswap64_range.
  unfold htonll. now apply bswap64_involutive.
Qed.

Lemma server_sends_host_pointer (w : SimpleRead.world)
    (cfg : SimpleRead.rdma_config_t) (rn rdma : Z) :
  let r := SimpleRead.run_rdma_server w cfg (st rn rdma []) in
  (sent_messages (SimpleRead.events r) = [] /\ SimpleRead.status r <> inr 0) \/
  (exists b, SimpleRead.alloc_run_buffer w = Some b /\
             sent_messages (SimpleRead.events r)
             = [be_bytes64 (to_uint64 (SimpleRead.buffer b))]).
Proof.
  intros r; subst r.
  enter_server w cfg rn rdma; run_all;
    first [ left; split; [reflexivity|discriminate]
          | right; eexists; split; [reflexivity|];
            cbn [sent_messages]; rewrite store64_htonll; reflexivity ].
Qed.

Lemma client_installs_received_value (w : SimpleRead.world)
    (cfg : SimpleRead.rdma_config_t) (rn rdma : Z) :
  let r := SimpleRead.run_rdma_client w cfg (st rn rdma []) in
  (wqe_remote_offsets (SimpleRead.events r) = [] /\
   existsb is_post_send (SimpleRead.events r) = false) \/
  wqe_remote_offsets (SimpleRead.events r)
  = [ntohll (load64 (SimpleRead.recv_bytes w))].
Proof.
  intros r; subst r.
  enter_client w cfg rn rdma; run_all;
    first [ left; split; reflexivity
          | right; cbn [wqe_remote_offsets];
            rewrite ?wqe_remote_offsets_app, ?wqe_remote_offsets_mismatch_lines,
              ?wqe_remote_offsets_debug_lines;
            reflexivity ].
Qed.

(** C9. Whatever the provider sends on the coordination socket is the
    eight big-endian bytes of the [buffer] field (the host-virtual pointer)
    of its data buffer, and a provider that returns 0 has sent exactly that
    one message; the bus address [dma_addr] does not enter it.  Whatever
    work request the reader builds has as remote address the decoded value
    of the eight bytes received, and no work request is submitted without
    it; that value is the provider's pointer when the bytes received are the
    bytes sent. *)
Theorem rendezvous_value_is_host_pointer
    (ws wc : SimpleRead.world) (cfgs cfgc : SimpleRead.rdma_config_t)
    (rn rdma : Z) :
  let server := SimpleRead.run_rdma_server ws cfgs (st rn rdma []) in
  let client := SimpleRead.run_rdma_client wc cfgc (st rn rdma []) in
  ((sent_messages (SimpleRead.events server) = [] /\
    SimpleRead.status server <> inr 0) \/
   (exists b, SimpleRead.alloc_run_buffer ws = Some b /\
              sent_messages (SimpleRead.events server)
              = [be_bytes64 (to_uint64 (SimpleRead.buffer b))])) /\
  ((wqe_remote_offsets (SimpleRead.events client) = [] /\
    existsb is_post_send (SimpleRead.events client) = false) \/
   wqe_remote_offsets (SimpleRead.events client)
   = [ntohll (load64 (SimpleRead.recv_bytes wc))]) /\
  (forall b, SimpleRead.alloc_run_buffer ws = Some b ->
             0 <= SimpleRead.buffer b < 2 ^ 64 ->
             SimpleRead.recv_bytes wc
             = be_bytes64 (to_uint64 (SimpleRead.buffer b)) ->
             ntohll (load64 (SimpleRead.recv_bytes wc)) = SimpleRead.buffer b).
Proof.
  intros server client.
  split; [apply server_sends_host_pointer|].
  split; [apply client_installs_received_value|].
  intros b _ Hb ->. unfold to_uint64. rewrite Z.mod_small by exact Hb.
  now apply decode_be_bytes64.
Qed.

Lemma rendezvous_value_is_host_pointer_witness :
  let ws := demo_world 8 [] 0 zeroed_memory in
  let wc := demo_world 8 (be_bytes64 0x7f0000001000) 0 zeroed_memory in
  sent_messages
    (SimpleRead.events
       (SimpleRead.run_rdma_server ws SimpleRead.init_config (st 4096 8192 [])))
  = [[0; 0; 0x7f; 0; 0; 0; 0x10; 0]] /\
  be_bytes64 0x40000000 = [0; 0; 0; 0; 0x40; 0; 0; 0] /\
  wqe_remote_offsets
    (SimpleRead.events
       (SimpleRead.run_rdma_client wc SimpleRead.init_config (st 4096 8192 [])))
  = [0x7f0000001000].
Proof.
  intros ws wc.
  destruct (rendezvous_value_is_host_pointer ws wc SimpleRead.init_config
              SimpleRead.init_config 4096 8192) as (Hs & Hc & Hd).
  split; [|split].
  - destruct Hs as [[_ Hs]|(b & Hb & Hs)].
    + exfalso. apply Hs. vm_compute. reflexivity.
    + rewrite Hs. vm_compute in Hb. injection Hb as <-.
      vm_compute. reflexivity.
  - vm_compute. reflexivity.
  - destruct Hc as [[_ Hc]|Hc].
    + vm_compute in Hc. discriminate Hc.
    + rewrite Hc.
      rewrite (Hd {| SimpleRead.buffer := 0x7f0000001000;
                     SimpleRead.dma_addr := 0x40000000 |}).
      * reflexivity.
      * vm_compute. reflexivity.
      * vm_compute. split; [discriminate|reflexivity].
      * vm_compute. reflexivity.
Defined.

(** ** The register write of the two tools *)

Lemma register_test_write_report (bar : Type)
    (read32_data : bar -> Z -> Z * bar) (write32_data : bar -> Z -> Z -> bar)
    (verbose debug : Z) (axil_base : bar) (offset value : Z) :
  let read_back := fst (read32_data (write32_data axil_base offset value) offset) in
  let r := RegisterTest.test_register_write bar read32_data write32_data
             verbose debug axil_base offset value in
  fst (fst r) = 0 /\
  snd r = snd (read32_data (write32_data axil_base offset value) offset) /\
  In (LReadBack read_back) (snd (fst r)) /\
  (In LStatusSuccess (snd (fst r)) <-> read_back = value) /\
  (In LStatusWarning (snd (fst r)) <-> read_back <> value).
Proof.
  unfold RegisterTest.test_register_write.
  destruct (read32_data (write32_data axil_base offset value) offset)
    as [rb b2].
  cbn [fst snd].
  destruct (negb (verbose =? 0)), (negb (debug =? 0)),
    (value =? rb) eqn:E;
    tests_to_props;
    cbn [app In]; repeat split; auto; intros;
    repeat match goal with
           | H : _ \/ _ |- _ => destruct H
           | H : False |- _ => destruct H
           | H : _ = _ :> line |- _ => discriminate H
           end; auto; try congruence;
    solve [repeat (first [left; reflexivity | right])].
Qed.

Lemma register_test_arm_write_report (bar : Type)
    (load : bar -> Z -> Z * bar) (store : bar -> Z -> Z -> bar)
    (verbose debug : Z) (axil_base : bar) (offset value : Z) :
  let after_write := load (store axil_base offset value) offset in
  let read_back := fst (load (snd after_write) offset) in
  let r := RegisterTestArm.test_register_write bar load store
             verbose debug axil_base offset value in
  fst (fst (fst r)) = 0 /\
  snd r = [RegisterTestArm.Wmb; RegisterTestArm.Store offset value;
           RegisterTestArm.Wmb;
           RegisterTestArm.Load offset (fst after_write);
           RegisterTestArm.Rmb;
           RegisterTestArm.Rmb; RegisterTestArm.Load offset read_back;
           RegisterTestArm.Rmb] /\
  In (LReadBack read_back) (snd (fst (fst r))) /\
  (In LStatusSuccess (snd (fst (fst r))) <-> read_back = value) /\
  (In LStatusWarning (snd (fst (fst r))) <-> read_back <> value).
Proof.
  unfold RegisterTestArm.test_register_write,
    RegisterTestArm.arm_write32_data, RegisterTestArm.arm_read32_data.
  destruct (load (store axil_base offset value) offset) as [dropped b2].
  cbn [fst snd].
  destruct (load b2 offset) as [rb b3].
  cbn [fst snd].
  destruct (negb (verbose =? 0)), (negb (debug =? 0)),
    (value =? rb) eqn:E;
    tests_to_props;
    cbn [app In]; repeat split; auto; intros;
    repeat match goal with
           | H : _ \/ _ |- _ => destruct H
           | H : False |- _ => destruct H
           | H : _ = _ :> line |- _ => discriminate H
           end; auto; try congruence;
    solve [repeat (first [left; reflexivity | right])].
Qed.

(** C8. In both register test tools a register write stores [V] at byte
    offset [O], reads a word back from the same offset, prints it, and
    reports SUCCESS exactly when the word read back equals [V] and the
    warning exactly when it differs; the status returned is 0 in both
    cases.  The ARM tool issues the store between write barriers, follows
    it with a load whose value is dropped, and reads back between read
    barriers. *)
Theorem register_write_reports_read_back (bar : Type)
    (read32_data : bar -> Z -> Z * bar) (write32_data : bar -> Z -> Z -> bar)
    (verbose debug : Z) (axil_base : bar) (O V : Z) :
  let read_back := fst (read32_data (write32_data axil_base O V) O) in
  let r := RegisterTest.test_register_write bar read32_data write32_data
             verbose debug axil_base O V in
  let arm_after_write := read32_data (write32_data axil_base O V) O in
  let arm_read_back := fst (read32_data (snd arm_after_write) O) in
  let a := RegisterTestArm.test_register_write bar read32_data write32_data
             verbose debug axil_base O V in
  (fst (fst r) = 0 /\
   In (LReadBack read_back) (snd (fst r)) /\
   (In LStatusSuccess (snd (fst r)) <-> read_back = V) /\
   (In LStatusWarning (snd (fst r)) <-> read_back <> V)) /\
  (fst (fst (fst a)) = 0 /\
   snd a = [RegisterTestArm.Wmb; RegisterTestArm.Store O V;
            RegisterTestArm.Wmb;
            RegisterTestArm.Load O (fst arm_after_write);
            RegisterTestArm.Rmb;
            RegisterTestArm.Rmb; RegisterTestArm.Load O arm_read_back;
            RegisterTestArm.Rmb] /\
   In (LReadBack arm_read_back) (snd (fst (fst a))) /\
   (In LStatusSuccess (snd (fst (fst a))) <-> arm_read_back = V) /\
   (In LStatusWarning (snd (fst (fst a))) <-> arm_read_back <> V)).
Proof.
  intros read_back r arm_after_write arm_read_back a. split.
  - destruct (register_test_write_report bar read32_data write32_data
                verbose debug axil_base O V) as (H0 & _ & H1 & H2 & H3).
    repeat split; assumption || apply H2 || apply H3.
  - destruct (register_test_arm_write_report bar read32_data write32_data
                verbose debug axil_base O V) as (H0 & H1 & H2 & H3 & H4).
    repeat split; assumption || apply H3 || apply H4.
Qed.

Lemma register_write_reports_read_back_witness :
  let zero : toy_bar := fun _ => 0 in
  let template :=
    RegisterTest.test_register_write toy_bar toy_read toy_write 0 0 zero
      0x102200 0x12345678 in
  let version :=
    RegisterTestArm.test_register_write toy_bar toy_read toy_write 0 0 zero
      0x102000 0x12345678 in
  (fst (fst template) = 0 /\ In LStatusSuccess (snd (fst template))) /\
  (fst (fst (fst version)) = 0 /\ In LStatusWarning (snd (fst (fst version)))).
Proof.
  intros zero template version.
  destruct (register_write_reports_read_back toy_bar toy_read toy_write 0 0
              zero 0x102200 0x12345678) as ((T0 & _ & T1 & _) & _).
  destruct (register_write_reports_read_back toy_bar toy_read toy_write 0 0
              zero 0x102000 0x12345678) as (_ & (A0 & _ & _ & _ & A1)).
  split; split.
  - exact T0.
  - apply T1. vm_compute. reflexivity.
  - exact A0.
  - apply A1. vm_compute. discriminate.
Defined.

(** * Further properties *)

(** ** Argument parsing: what an accepted configuration is *)

Section AcceptedFacts.

Import SimpleRead.

Variable conv : string -> Z.

Lemma parse_option_goes_on (o : getopt_result) (cfg : rdma_config_t) :
  if goes_on o
  then exists cfg', parse_option conv o cfg = inl cfg'
  else parse_option conv o cfg = inr (stop_report o).
Proof.
  destruct o as [ch a]. unfold parse_option, goes_on, stop_report.
  cbn [opt_char optarg].
  destruct ch as [[] [] [] [] [] [] [] []]; cbn;
    try reflexivity; try (eexists; reflexivity).
  destruct (String.eqb a "host_mem" || String.eqb a "dev_mem")%bool;
    [eexists; reflexivity | reflexivity].
Qed.

Lemma stop_report_code (o : getopt_result) :
  fst (stop_report o) = 1 \/ fst (stop_report o) = -1.
Proof.
  unfold stop_report.
  destruct (Ascii.eqb (opt_char o) "h"); [now left|].
  destruct (Ascii.eqb (opt_char o) "l"); now right.
Qed.

(** The loop leaves at the first option it does not go on from, with the
    report of that option. *)
Lemma parse_loop_first_stop (opts : list getopt_result) :
  forall cfg,
  fst (parse_loop conv opts cfg) = option_map stop_report (first_stop opts).
Proof.
  unfold first_stop.
  induction opts as [|o rest IH]; intros cfg; cbn [parse_loop find].
  - reflexivity.
  - pose proof (parse_option_goes_on o cfg) as H.
    destruct (goes_on o); cbn [negb].
    + destruct H as [cfg' ->]. apply IH.
    + rewrite H. reflexivity.
Qed.

Lemma parse_loop_goes_on (opts : list getopt_result) (cfg : rdma_config_t) :
  forallb goes_on opts = true -> fst (parse_loop conv opts cfg) = None.
Proof.
  intros H. rewrite parse_loop_first_stop. unfold first_stop.
  destruct (find (fun o => negb (goes_on o)) opts) as [o|] eqn:E;
    [|reflexivity].
  apply find_some in E. destruct E as [Hin Hno].
  rewrite forallb_forall in H. rewrite (H o Hin) in Hno. discriminate Hno.
Qed.

Lemma parse_loop_code (opts : list getopt_result) :
  forall cfg code printed cfg',
  parse_loop conv opts cfg = (Some (code, printed), cfg') ->
  code = 1 \/ code = -1.
Proof.
  intros cfg code printed cfg' H.
  pose proof (parse_loop_first_stop opts cfg) as E. rewrite H in E.
  cbn [fst] in E. destruct (first_stop opts) as [o|]; [|discriminate E].
  injection E as E. pose proof (stop_report_code o) as C.
  rewrite <- E in C. exact C.
Qed.

Lemma parse_arguments_code (opts : list getopt_result) (cfg : rdma_config_t) :
  let code := fst (fst (parse_arguments conv opts cfg)) in
  code = 0 \/ code = 1 \/ code = -1.
Proof.
  unfold parse_arguments.
  destruct (parse_loop conv opts cfg) as [[[code printed]|] c] eqn:E;
    cbn [fst].
  - right. eapply parse_loop_code; eassumption.
  - repeat match goal with
           | |- context [if ?b then _ else _] => destruct b
           end; cbn [fst]; auto.
Qed.

(** An accepted command line writes nothing to [stderr]. *)
Lemma accepted_prints_nothing (opts : list getopt_result)
    (cfg0 : rdma_config_t) :
  fst (fst (parse_arguments conv opts cfg0)) = 0 ->
  snd (parse_arguments conv opts cfg0) = [].
Proof.
  unfold parse_arguments.
  destruct (parse_loop conv opts cfg0) as [[[code printed]|] c] eqn:E;
    cbn [fst snd].
  - intros ->. exfalso. now apply (parse_loop_status _ _ _ _ _ _ E).
  - repeat match goal with
           | |- context [if ?b then _ else _] => destruct b
           end; cbn [fst snd]; intros H; (reflexivity || discriminate H).
Qed.

(** What an option the parser goes on from does to the addresses, the
    roles and the placement. *)
Lemma parse_option_flags (o : getopt_result) (cfg cfg' : rdma_config_t) :
  parse_option conv o cfg = inl cfg' ->
  is_null (src_ip_str cfg')
  = (is_null (src_ip_str cfg) && negb (Ascii.eqb (opt_char o) "r"))%bool /\
  is_null (dst_ip_str cfg')
  = (is_null (dst_ip_str cfg) && negb (Ascii.eqb (opt_char o) "i"))%bool /\
  (is_server cfg' =? 0)
  = ((is_server cfg =? 0) && negb (Ascii.eqb (opt_char o) "s"))%bool /\
  (is_client cfg' =? 0)
  = ((is_client cfg =? 0) && negb (Ascii.eqb (opt_char o) "c"))%bool /\
  qp_location cfg'
  = (if Ascii.eqb (opt_char o) "l" then optarg o else qp_location cfg).
Proof.
  destruct o as [ch a]. unfold parse_option. cbn [opt_char optarg].
  intros H.
  destruct ch as [[] [] [] [] [] [] [] []]; cbn in H;
    try discriminate H;
    try (injection H as <-; cbn; rewrite ?andb_true_r, ?andb_false_r;
         repeat split; reflexivity).
  destruct (String.eqb a "host_mem" || String.eqb a "dev_mem")%bool;
    [|discriminate H].
  injection H as <-; cbn; rewrite ?andb_true_r. repeat split; reflexivity.
Qed.

Lemma parse_loop_flags (opts : list getopt_result) :
  forall cfg0 cfg,
  parse_loop conv opts cfg0 = (None, cfg) ->
  is_null (src_ip_str cfg)
  = (is_null (src_ip_str cfg0) && negb (given "r" opts))%bool /\
  is_null (dst_ip_str cfg)
  = (is_null (dst_ip_str cfg0) && negb (given "i" opts))%bool /\
  (is_server cfg =? 0)
  = ((is_server cfg0 =? 0) && negb (given "s" opts))%bool /\
  (is_client cfg =? 0)
  = ((is_client cfg0 =? 0) && negb (given "c" opts))%bool /\
  (given "l" opts = false -> qp_location cfg = qp_location cfg0).
Proof.
  unfold given.
  induction opts as [|o rest IH]; intros cfg0 cfg H;
    cbn [parse_loop existsb] in *.
  - injection H as <-. rewrite !andb_true_r. repeat split; reflexivity.
  - destruct (parse_option conv o cfg0) as [c|k] eqn:E; [|discriminate H].
    destruct (parse_option_flags _ _ _ E) as (F1 & F2 & F3 & F4 & F5).
    destruct (IH _ _ H) as (G1 & G2 & G3 & G4 & G5).
    rewrite G1, G2, G3, G4, F1, F2, F3, F4, !negb_orb, !andb_assoc.
    repeat split; try reflexivity.
    intros Hl. apply orb_false_iff in Hl. destruct Hl as [Hl1 Hl2].
    rewrite (G5 Hl2), F5, Hl1. reflexivity.
Qed.

Lemma parse_option_well_formed (o : getopt_result) (cfg cfg' : rdma_config_t) :
  parse_option conv o cfg = inl cfg' -> well_formed cfg -> well_formed cfg'.
Proof.
  destruct o as [ch a]. unfold parse_option, well_formed.
  cbn [opt_char optarg]. intros H [Hloc Hdbg].
  destruct ch as [[] [] [] [] [] [] [] []]; cbn in H;
    try discriminate H;
    try (injection H as <-; cbn; split; [exact Hloc | first [exact Hdbg | lia]]).
  destruct (String.eqb a "host_mem") eqn:E1;
    [|destruct (String.eqb a "dev_mem") eqn:E2];
    cbn in H; try discriminate H; injection H as <-; cbn;
    (split; [|exact Hdbg]).
  - left. now apply String.eqb_eq.
  - right. now apply String.eqb_eq.
Qed.

Lemma parse_loop_well_formed (opts : list getopt_result) :
  forall cfg, well_formed cfg ->
  well_formed (snd (parse_loop conv opts cfg)).
Proof.
  induction opts as [|o rest IH]; intros cfg Hwf; cbn [parse_loop].
  - exact Hwf.
  - destruct (parse_option conv o cfg) as [cfg'|code] eqn:E.
    + apply IH. eapply parse_option_well_formed; eassumption.
    + exact Hwf.
Qed.

Lemma init_config_well_formed : well_formed init_config.
Proof. split; [now left|]. cbn. intros H. now elim H. Qed.

End AcceptedFacts.

Lemma parse_loop_app_rest (conv : string -> Z)
    (opts rest : list SimpleRead.getopt_result) :
  forall cfg0 cfg,
  SimpleRead.parse_loop conv opts cfg0 = (None, cfg) ->
  SimpleRead.parse_loop conv (opts ++ rest) cfg0
  = SimpleRead.parse_loop conv rest cfg.
Proof.
  induction opts as [|x l IH]; intros cfg0 cfg H.
  - cbn in H. injection H as <-. reflexivity.
  - cbn [app]. cbn [SimpleRead.parse_loop] in H |- *.
    destruct (SimpleRead.parse_option conv x cfg0) as [c|k]; [|discriminate H].
    now apply IH.
Qed.

Lemma first_stop_app (xs ys : list SimpleRead.getopt_result) :
  first_stop (xs ++ ys) = None ->
  first_stop xs = None /\ first_stop ys = None.
Proof.
  unfold first_stop. induction xs as [|x xs IH]; cbn [app find].
  - auto.
  - destruct (negb (goes_on x)); [discriminate|exact IH].
Qed.

(** X1. The parser accepts a command line exactly when it goes on from
    every option, both addresses are given ([-r] and [-i]) and exactly one
    of the roles [-s] and [-c] is.  On a command line it goes on from to
    the end, it returns -1 with its diagnostic on [stderr] when an address
    is missing, else when no role is given, else when both are, and 0 with
    no diagnostic otherwise.  An accepted configuration, from any starting
    configuration, holds both addresses and exactly one role flag. *)
Theorem accepted_has_addresses_and_one_role
    (conv : string -> Z) (opts : list SimpleRead.getopt_result) :
  let r := SimpleRead.parse_arguments conv opts SimpleRead.init_config in
  let code := fst (fst r) in
  let printed := snd r in
  let addresses := (given "r" opts && given "i" opts)%bool in
  let server := given "s" opts in
  let client := given "c" opts in
  (forall cfg0 cfg,
     fst (SimpleRead.parse_arguments conv opts cfg0) = (0, cfg) ->
     (exists src dst, SimpleRead.src_ip_str cfg = Some src /\
                      SimpleRead.dst_ip_str cfg = Some dst) /\
     ((SimpleRead.is_server cfg <> 0 /\ SimpleRead.is_client cfg = 0) \/
      (SimpleRead.is_server cfg = 0 /\ SimpleRead.is_client cfg <> 0))) /\
  (first_stop opts = None ->
   (code, printed)
   = if negb addresses
     then (-1, ["Error: Source and destination IP addresses are required"])
     else if negb server && negb client
     then (-1, ["Error: Must specify either --server or --client mode"])
     else if server && client
     then (-1, ["Error: Cannot be both server and client"])
     else (0, [])) /\
  (code = 0 <->
   first_stop opts = None /\ addresses = true /\ xorb server client = true).
Proof.
  intros r code printed addresses server client.
  assert (Hvalidate :
            first_stop opts = None ->
            (code, printed)
            = if negb addresses
              then (-1,
                    ["Error: Source and destination IP addresses are required"])
              else if negb server && negb client
              then (-1,
                    ["Error: Must specify either --server or --client mode"])
              else if server && client
              then (-1, ["Error: Cannot be both server and client"])
              else (0, [])).
  { intros Hstop. subst r code printed addresses server client.
    unfold SimpleRead.parse_arguments.
    pose proof (parse_loop_first_stop conv opts SimpleRead.init_config) as F.
    rewrite Hstop in F.
    destruct (SimpleRead.parse_loop conv opts SimpleRead.init_config)
      as [stop c] eqn:E.
    cbn [fst option_map] in F. subst stop.
    destruct (parse_loop_flags conv opts _ _ E) as (G1 & G2 & G3 & G4 & _).
    cbn [SimpleRead.init_config SimpleRead.src_ip_str SimpleRead.dst_ip_str
           SimpleRead.is_server SimpleRead.is_client SimpleRead.is_null
           Z.eqb andb] in G1, G2, G3, G4.
    rewrite G1, G2, G3, G4.
    destruct (given "r" opts), (given "i" opts), (given "s" opts),
      (given "c" opts); reflexivity. }
  split; [|split; [exact Hvalidate|]].
  - intros cfg0 cfg Haccepted.
    unfold SimpleRead.parse_arguments in Haccepted.
    destruct (SimpleRead.parse_loop conv opts cfg0) as [[[k pr]|] c] eqn:E.
    + exfalso. cbn [fst] in Haccepted. injection Haccepted as -> _.
      now apply (parse_loop_status _ _ _ _ _ _ E).
    + destruct (SimpleRead.src_ip_str c) as [src|] eqn:Es;
        [|discriminate Haccepted].
      destruct (SimpleRead.dst_ip_str c) as [dst|] eqn:Ed;
        [|discriminate Haccepted].
      cbn [SimpleRead.is_null orb] in Haccepted.
      destruct (SimpleRead.is_server c =? 0) eqn:S1,
               (SimpleRead.is_client c =? 0) eqn:S2;
        cbn in Haccepted; try discriminate Haccepted;
        injection Haccepted as <-; tests_to_props;
        (split; [exists src, dst; auto|]); [right|left]; auto.
  - destruct (first_stop opts) as [o|] eqn:Hstop.
    + split; [|intros (H & _); discriminate H].
      intros Hcode. exfalso. subst r code.
      unfold SimpleRead.parse_arguments in Hcode.
      pose proof (parse_loop_first_stop conv opts SimpleRead.init_config) as F.
      rewrite Hstop in F.
      destruct (SimpleRead.parse_loop conv opts SimpleRead.init_config)
        as [[[k pr]|] c] eqn:E; [|discriminate F].
      cbn [fst] in Hcode. subst k.
      now apply (parse_loop_status _ _ _ _ _ _ E).
    + specialize (Hvalidate eq_refl). subst addresses server client.
      destruct (given "r" opts), (given "i" opts), (given "s" opts),
        (given "c" opts); cbn in Hvalidate |- *;
        injection Hvalidate as Hc _; rewrite Hc;
        (split; [intros H; first [discriminate H | auto]
                |intros (_ & H1 & H2); first [discriminate | reflexivity]]).
Qed.

Lemma accepted_has_addresses_and_one_role_witness :
  SimpleRead.parse_arguments (fun _ => 0)
    (client_command_line ++ [option_of "s" ""]) SimpleRead.init_config
  = (-1,
     snd (fst (SimpleRead.parse_arguments (fun _ => 0)
                 (client_command_line ++ [option_of "s" ""])
                 SimpleRead.init_config)),
     ["Error: Cannot be both server and client"]) /\
  fst (fst (SimpleRead.parse_arguments (fun _ => 0) [option_of "c" ""]
              SimpleRead.init_config)) = -1 /\
  fst (fst (SimpleRead.parse_arguments (fun _ => 0) server_command_line
              SimpleRead.init_config)) = 0.
Proof.
  split; [|split].
  - destruct (accepted_has_addresses_and_one_role (fun _ => 0)
                (client_command_line ++ [option_of "s" ""]))
      as (_ & H & _).
    specialize (H eq_refl).
    set (r := SimpleRead.parse_arguments _ _ _) in *. clearbody r.
    vm_compute in H. injection H as H1 H2.
    destruct r as [[k c] pr]. cbn [fst snd] in *. now subst.
  - destruct (accepted_has_addresses_and_one_role (fun _ => 0)
                [option_of "c" ""]) as (_ & H & _).
    specialize (H eq_refl).
    set (r := SimpleRead.parse_arguments _ _ _) in *. clearbody r.
    vm_compute in H. injection H as H1 _.
    destruct r as [[k c] pr]. exact H1.
  - destruct (accepted_has_addresses_and_one_role (fun _ => 0)
                server_command_line) as (_ & _ & H).
    apply H. split; [reflexivity|]. split; reflexivity.
Defined.

(** X2. The buffer placement is [host_mem] or [dev_mem] whatever the
    command line.  A [-l] with any other argument, wherever the parser
    reaches it, makes it return -1 with its diagnostic on [stderr] and
    leaves the configuration as the options before it made it.  On a
    command line the parser goes on from to the end, the placement is the
    argument of the last [-l]. *)
Theorem placement_is_host_or_device
    (conv : string -> Z) (opts : list SimpleRead.getopt_result) :
  valid_location
    (SimpleRead.qp_location
       (snd (fst (SimpleRead.parse_arguments conv opts
                    SimpleRead.init_config)))) /\
  (forall before a after cfg0,
     first_stop before = None ->
     String.eqb a "host_mem" = false -> String.eqb a "dev_mem" = false ->
     SimpleRead.parse_arguments conv (before ++ SimpleRead.Opt "l" a :: after)
       cfg0
     = (-1, snd (fst (SimpleRead.parse_arguments conv before cfg0)),
        ["Error: Invalid QP location. Use 'host_mem' or 'dev_mem'"])) /\
  (forall before a after cfg0,
     first_stop (before ++ SimpleRead.Opt "l" a :: after) = None ->
     given "l" after = false ->
     valid_location a /\
     SimpleRead.qp_location
       (snd (fst (SimpleRead.parse_arguments conv
                    (before ++ SimpleRead.Opt "l" a :: after) cfg0))) = a).
Proof.
  split; [|split].
  - rewrite parse_arguments_config.
    apply parse_loop_well_formed, init_config_well_formed.
  - intros before a after cfg0 Hstop H1 H2.
    rewrite parse_arguments_config.
    pose proof (parse_loop_first_stop conv before cfg0) as F.
    rewrite Hstop in F.
    destruct (SimpleRead.parse_loop conv before cfg0) as [stop c] eqn:E.
    cbn [fst snd option_map] in F |- *. subst stop.
    unfold SimpleRead.parse_arguments.
    rewrite (parse_loop_app_rest _ _ _ _ _ E).
    cbn [SimpleRead.parse_loop SimpleRead.parse_option SimpleRead.opt_char
           SimpleRead.optarg].
    rewrite H1, H2. reflexivity.
  - intros before a after cfg0 Hstop Hlast.
    apply first_stop_app in Hstop. destruct Hstop as [Hb Ha].
    unfold first_stop in Ha. cbn [find] in Ha.
    destruct (goes_on (SimpleRead.Opt "l" a)) eqn:Hgo; [|discriminate Ha].
    cbn [negb] in Ha. unfold goes_on in Hgo.
    cbn [SimpleRead.opt_char SimpleRead.optarg] in Hgo.
    split.
    { apply orb_true_iff in Hgo. destruct Hgo as [H|H];
        apply String.eqb_eq in H; [left|right]; exact H. }
    rewrite parse_arguments_config.
    pose proof (parse_loop_first_stop conv before cfg0) as F.
    rewrite Hb in F.
    destruct (SimpleRead.parse_loop conv before cfg0) as [stop c] eqn:E.
    cbn [fst option_map] in F. subst stop.
    rewrite (parse_loop_app_rest _ _ _ _ _ E).
    cbn [SimpleRead.parse_loop SimpleRead.parse_option SimpleRead.opt_char
           SimpleRead.optarg].
    rewrite Hgo.
    pose proof (parse_loop_first_stop conv after
                  (SimpleRead.set_qp_location a c)) as F.
    fold (first_stop after) in Ha. rewrite Ha in F.
    destruct (SimpleRead.parse_loop conv after
                (SimpleRead.set_qp_location a c)) as [stop c'] eqn:E'.
    cbn [fst snd option_map] in F |- *. subst stop.
    destruct (parse_loop_flags conv after _ _ E') as (_ & _ & _ & _ & G).
    rewrite (G Hlast). reflexivity.
Qed.

Lemma placement_is_host_or_device_witness :
  SimpleRead.parse_arguments (fun _ => 0)
    (client_command_line ++ SimpleRead.Opt "l" "nowhere" :: [option_of "h" ""])
    SimpleRead.init_config
  = (-1,
     snd (fst (SimpleRead.parse_arguments (fun _ => 0) client_command_line
                 SimpleRead.init_config)),
     ["Error: Invalid QP location. Use 'host_mem' or 'dev_mem'"]) /\
  SimpleRead.qp_location
    (snd (fst (SimpleRead.parse_arguments (fun _ => 0)
                 ([option_of "l" "host_mem"] ++
                  SimpleRead.Opt "l" "dev_mem" :: client_command_line)
                 SimpleRead.init_config))) = "dev_mem".
Proof.
  destruct (placement_is_host_or_device (fun _ => 0) []) as (_ & Hbad & Hlast).
  split.
  - apply Hbad; reflexivity.
  - apply (Hlast [option_of "l" "host_mem"] "dev_mem" client_command_line
             SimpleRead.init_config); reflexivity.
Defined.

(** X3. Debug implies verbose: from the defaults, a configuration with
    the debug flag set has the verbose flag set, in whatever order [-g] and
    the other options are given. *)
Theorem debug_implies_verbose
    (conv : string -> Z) (opts : list SimpleRead.getopt_result)
    (Hdebug : SimpleRead.debug
                (snd (fst (SimpleRead.parse_arguments conv opts
                        SimpleRead.init_config))) <> 0) :
  SimpleRead.verbose
    (snd (fst (SimpleRead.parse_arguments conv opts SimpleRead.init_config))) <> 0.
Proof.
  revert Hdebug. rewrite parse_arguments_config.
  apply (parse_loop_well_formed conv opts SimpleRead.init_config
           init_config_well_formed).
Qed.

Lemma debug_implies_verbose_witness :
  SimpleRead.verbose
    (snd (fst (SimpleRead.parse_arguments (fun _ => 0)
            (option_of "g" "" :: client_command_line)
            SimpleRead.init_config))) <> 0.
Proof.
  apply debug_implies_verbose. vm_compute. discriminate.
Defined.

(** ** main: command lines that start no session *)

Lemma eprint_lines_run (lines : list string) (rn rdma : Z) :
  forall tr : list SimpleRead.event,
  SimpleRead.eprint_lines lines (st rn rdma tr)
  = (inl tt, st rn rdma (tr ++ stderr_lines lines)).
Proof.
  induction lines as [|l rest IH]; intros tr;
    cbn [SimpleRead.eprint_lines stderr_lines map].
  - unfold SimpleRead.ret. now rewrite app_nil_r.
  - unfold SimpleRead.bind, SimpleRead.eprint, SimpleRead.emit, st.
    cbn [SimpleRead.trace SimpleRead.rn_dev SimpleRead.rdma_dev].
    fold (st rn rdma (tr ++ [SimpleRead.EvStderr (SimpleRead.Text l)])).
    rewrite IH. unfold stderr_lines. now rewrite <- app_assoc.
Qed.

Lemma main_on_status (w : SimpleRead.world)
    (opts : list SimpleRead.getopt_result) (code : Z)
    (printed : list string) :
  SimpleRead.parse_arguments (SimpleRead.convert_ip_addr_to_uint w) opts
    SimpleRead.init_config
  = (code,
     snd (fst (SimpleRead.parse_arguments
                 (SimpleRead.convert_ip_addr_to_uint w) opts
                 SimpleRead.init_config)),
     printed) ->
  code <> 0 ->
  snd (SimpleRead.main w opts)
  = (inr (if code >? 0 then 0 else 1), st 0 0 (stderr_lines printed)).
Proof.
  intros Hc Hne. unfold SimpleRead.main. cbn [snd]. rewrite Hc.
  cbn [fst snd]. unfold SimpleRead.bind at 1.
  change SimpleRead.initial_state with (st 0 0 []).
  rewrite eprint_lines_run. cbn [app].
  unfold SimpleRead.bind, SimpleRead.when, SimpleRead.return_.
  destruct (code =? 0) eqn:E; [apply Z.eqb_eq in E; contradiction|].
  reflexivity.
Qed.



(** X5. Help wins over everything after it and over the required
    options: when [-h] follows options that raise no error, [main] exits
    with 0 and starts no session, whatever comes after [-h] and whether or
    not the addresses and a role were given. *)
Theorem help_exits_zero
    (w : SimpleRead.world) (opts rest : list SimpleRead.getopt_result)
    (a : string) (cfg : SimpleRead.rdma_config_t)
    (Hbefore : SimpleRead.parse_loop (SimpleRead.convert_ip_addr_to_uint w)
                 opts SimpleRead.init_config = (None, cfg)) :
  let run := snd (SimpleRead.main w (opts ++ SimpleRead.Opt "h" a :: rest)) in
  SimpleRead.exit_code run = 0 /\ SimpleRead.events run = [].
Proof.
  intros run. subst run.
  rewrite (main_on_status w _ 1 []); [split; reflexivity| |lia].
  unfold SimpleRead.parse_arguments.
  rewrite (parse_loop_app_rest _ _ _ _ _ Hbefore). reflexivity.
Qed.

Lemma help_exits_zero_witness :
  let w := demo_world 8 [] 0 zeroed_memory in
  let run := snd (SimpleRead.main w
                    ([option_of "z" "7"] ++
                     SimpleRead.Opt "h" "" :: [option_of "l" "nowhere"])) in
  SimpleRead.exit_code run = 0 /\ SimpleRead.events run = [].
Proof.
  intros w run.
  apply (help_exits_zero w [option_of "z" "7"] [option_of "l" "nowhere"] ""
           (SimpleRead.set_payload_size 7 SimpleRead.init_config)).
  vm_compute. reflexivity.
Defined.

(** ** The link-layer lookup *)

Lemma arp_result_status (w : SimpleRead.world) (lines : list string)
    (mac : SimpleRead.mac_addr_t) :
  (fst (arp_result w lines mac) = 0 \/ fst (arp_result w lines mac) = -1) /\
  (fst (arp_result w lines mac) = -1 -> snd (arp_result w lines mac) = mac).
Proof.
  induction lines as [|line rest IH]; cbn [arp_result].
  - cbn. auto.
  - destruct (strstr line "no match found"); [cbn; auto|].
    destruct (strstr line "at"); [cbn; split; [auto|lia]|exact IH].
Qed.

Lemma arp_result_found (w : SimpleRead.world) (lines : list string)
    (mac : SimpleRead.mac_addr_t) :
  fst (arp_result w lines mac) = 0 <->
  exists before line after,
    lines = before ++ line :: after /\
    Forall undecided before /\
    mentions "no match found" line = false /\
    mentions "at" line = true.
Proof.
  induction lines as [|l rest IH]; cbn [arp_result].
  - split; [cbn; lia|]. intros (before & line & after & E & _).
    destruct before; discriminate E.
  - destruct (strstr l "no match found") as [p|] eqn:En.
    + split; [cbn; lia|].
      intros (before & line & after & E & Hb & Hn & Ha).
      destruct before as [|b before]; cbn in E; injection E as <- _.
      * unfold mentions in Hn. rewrite En in Hn. discriminate Hn.
      * inversion Hb as [|? ? [Hu _] _]. unfold mentions in Hu.
        rewrite En in Hu. discriminate Hu.
    + destruct (strstr l "at") as [q|] eqn:Ea.
      * split; [|reflexivity]. intros _.
        exists [], l, rest. unfold mentions. rewrite En, Ea.
        repeat split. constructor.
      * rewrite IH. split.
        -- intros (before & line & after & -> & Hb & Hn & Ha).
           exists (l :: before), line, after. repeat split; auto.
           constructor; [|exact Hb]. unfold undecided, mentions.
           now rewrite En, Ea.
        -- intros (before & line & after & E & Hb & Hn & Ha).
           destruct before as [|b before]; cbn in E; injection E as <- E.
           ++ unfold mentions in Ha. rewrite Ea in Ha. discriminate Ha.
           ++ exists before, line, after. inversion Hb. auto.
Qed.

(** X6. The link-layer lookup returns 0 or -1.  It returns 0 exactly
    when [popen] succeeded and the output of [arp] has a line that mentions
    "at" and not "no match found", with no earlier line that mentions
    either; when it returns -1 the caller's address is left as it was.  The
    pipe is opened once with the command [arp -a <ip>] (cut at 127
    characters), and closed once exactly when it was opened. *)
Theorem lookup_status_and_pipe
    (w : SimpleRead.world) (ip : string) (rn rdma : Z) :
  let r := SimpleRead.get_remote_mac_address w ip (SimpleRead.uninit_mac w)
             (st rn rdma []) in
  exists res,
    SimpleRead.status r = inl res /\
    (fst res = 0 \/ fst res = -1) /\
    (fst res = -1 -> snd res = SimpleRead.uninit_mac w) /\
    (fst res = 0 <->
     exists before line after,
       SimpleRead.arp_output w = Some (before ++ line :: after) /\
       Forall undecided before /\
       mentions "no match found" line = false /\
       mentions "at" line = true) /\
    filter is_pipe_call (SimpleRead.events r)
    = SimpleRead.EvPopen (substring 0 127 ("arp -a " ++ ip))
      :: match SimpleRead.arp_output w with
         | Some _ => [SimpleRead.EvPclose]
         | None => []
         end.
Proof.
  intros r. subst r.
  assert (Hpipe :
    filter is_pipe_call
      (SimpleRead.events
         (SimpleRead.get_remote_mac_address w ip (SimpleRead.uninit_mac w)
            (st rn rdma [])))
    = SimpleRead.EvPopen (substring 0 127 ("arp -a " ++ ip))
      :: match SimpleRead.arp_output w with
         | Some _ => [SimpleRead.EvPclose]
         | None => []
         end).
  { unfold SimpleRead.get_remote_mac_address.
    destruct (SimpleRead.arp_output w) as [lines|]; [|reflexivity].
    destruct (arp_loop_run w ip lines (SimpleRead.uninit_mac w) rn rdma
                [SimpleRead.EvPopen (substring 0 127 ("arp -a " ++ ip))])
      as (ex & Hl & Hex).
    unfold SimpleRead.bind, SimpleRead.emit, SimpleRead.ret,
      SimpleRead.events, st in *.
    cbn [SimpleRead.rn_dev SimpleRead.rdma_dev SimpleRead.trace app] in *.
    rewrite Hl. cbn [snd SimpleRead.trace SimpleRead.rn_dev SimpleRead.rdma_dev].
    destruct Hex as [-> | [-> _]]; reflexivity. }
  destruct (get_remote_mac_address_run w ip rn rdma []) as (extra & Hrun & _).
  rewrite Hrun in Hpipe |- *. exists (lookup_result w).
  unfold SimpleRead.status. cbn [fst].
  split; [reflexivity|].
  unfold lookup_result in *.
  destruct (SimpleRead.arp_output w) as [lines|] eqn:Eo.
  - destruct (arp_result_status w lines (SimpleRead.uninit_mac w)) as [H1 H2].
    split; [exact H1|]. split; [exact H2|]. split; [|exact Hpipe].
    rewrite arp_result_found. split.
    + intros (b & l & a & -> & H). exists b, l, a. auto.
    + intros (b & l & a & E & H). injection E as ->. exists b, l, a. auto.
  - cbn [fst snd]. split; [auto|]. split; [auto|]. split; [|exact Hpipe].
    split; [lia|]. intros (b & l & a & E & _). discriminate E.
Qed.

Lemma lookup_status_and_pipe_witness :
  let w := demo_world 8 [] 0 zeroed_memory in
  exists res,
    SimpleRead.status
      (SimpleRead.get_remote_mac_address w "192.168.1.100"
         (SimpleRead.uninit_mac w) (st 4096 8192 [])) = inl res /\
    fst res = 0.
Proof.
  intros w.
  destruct (lookup_status_and_pipe w "192.168.1.100" 4096 8192)
    as (res & Hs & _ & _ & Hfound & _).
  exists res. split; [exact Hs|]. apply Hfound.
  exists [], "? (192.168.1.100) at 0a:35:00:01:02:03 [ether] on eth1", [].
  repeat split; constructor.
Defined.

(** ** When the three stages of a session succeed *)

Ltac split_hyps :=
  repeat match goal with
         | H : _ /\ _ |- _ => destruct H
         | H : ?a = true -> _, E : ?a = true |- _ => specialize (H E)
         end.

(** Settle "the status is 0 exactly when the calls succeed" on one path of
    a run, from the tests decided along the path. *)
Ltac settle_status :=
  first
    [ solve [ split; [reflexivity || (right; reflexivity) || (left; reflexivity)|];
              split;
              [ intros _; repeat split; try intros ?; tests_to_props;
                first [lia | congruence | assumption]
              | intros _; reflexivity ] ]
    | solve [ split; [reflexivity || (right; reflexivity) || (left; reflexivity)|];
              split;
              [ intros H; discriminate H
              | intros H; exfalso; split_hyps; tests_to_props;
                first [lia | congruence] ] ] ].

Lemma setup_status (w : SimpleRead.world)
    (cfg : SimpleRead.rdma_config_t) (rn rdma : Z) :
  let r := SimpleRead.setup_rdma_environment w cfg (st rn rdma []) in
  (SimpleRead.status r = inr 0 \/ SimpleRead.status r = inr (-1)) /\
  (SimpleRead.status r = inr 0 <-> setup_calls_succeed w).
Proof.
  intros r; subst r. unfold st, SimpleRead.setup_rdma_environment,
    setup_calls_succeed.
  run_unfold. run_all; cbn [fst]; settle_status.
Qed.

(** X7. [setup_rdma_environment] returns 0 or -1, and 0 exactly when
    every call it tests succeeds: the socket, the two device objects, the
    five system buffers, the protection domain and the device file. *)
Theorem setup_succeeds_iff (w : SimpleRead.world)
    (cfg : SimpleRead.rdma_config_t) (rn rdma : Z) :
  let r := SimpleRead.setup_rdma_environment w cfg (st rn rdma []) in
  (SimpleRead.status r = inr 0 \/ SimpleRead.status r = inr (-1)) /\
  (SimpleRead.status r = inr 0 <-> setup_calls_succeed w).
Proof. apply setup_status. Qed.

(** X8. [run_rdma_server] returns 0 or -1, and 0 exactly when the lookup
    of the peer, the allocation of the data buffer, the write of the seed
    data (device-resident buffers only), [socket], [bind], [listen],
    [accept] and the 8-byte [send] succeed; the results of
    [allocate_rdma_pd], [rdma_register_memory_region] and
    [allocate_rdma_qp] are not looked at. *)
Theorem server_succeeds_iff (w : SimpleRead.world)
    (cfg : SimpleRead.rdma_config_t) (rn rdma : Z) :
  let r := SimpleRead.run_rdma_server w cfg (st rn rdma []) in
  (SimpleRead.status r = inr 0 \/ SimpleRead.status r = inr (-1)) /\
  (SimpleRead.status r = inr 0 <-> server_calls_succeed w cfg).
Proof.
  intros r; subst r. unfold server_calls_succeed.
  enter_server w cfg rn rdma; run_all; cbn [fst]; settle_status.
Qed.

Lemma mismatches_nil_iff (cfg : SimpleRead.rdma_config_t)
    (received_data : Z -> Z) (k : nat) :
  forall a : nat,
  Z.of_nat (a + k) <= SimpleRead.payload_size cfg / 4 ->
  (mismatches received_data (SimpleRead.client_golden_data cfg) k (Z.of_nat a)
   = [] <->
   forall i, Z.of_nat a <= i < Z.of_nat (a + k) -> received_data i = i mod 256).
Proof.
  induction k as [|k IH]; intros a Ha.
  - split; [intros _ i Hi; lia | reflexivity].
  - cbn [mismatches]. rewrite golden_word by lia.
    replace (Z.of_nat a + 1) with (Z.of_nat (S a)) by lia.
    destruct (received_data (Z.of_nat a) =? Z.of_nat a mod 256) eqn:E.
    + apply Z.eqb_eq in E. rewrite IH by lia. split.
      * intros H i Hi. destruct (Z.eq_dec i (Z.of_nat a)) as [->|Hne];
          [exact E|apply H; lia].
      * intros H i Hi. apply H. lia.
    + apply Z.eqb_neq in E. split; [discriminate|].
      intros H. exfalso. apply E, H. lia.
Qed.

Lemma no_mismatch_iff (cfg : SimpleRead.rdma_config_t)
    (received_data : Z -> Z) :
  mismatches received_data (SimpleRead.client_golden_data cfg)
    (Z.to_nat (SimpleRead.payload_size cfg / 4)) 0 = [] <->
  matches_pattern received_data (SimpleRead.payload_size cfg / 4).
Proof.
  unfold matches_pattern.
  destruct (Z.le_gt_cases 0 (SimpleRead.payload_size cfg / 4)) as [Hn|Hn].
  - rewrite (mismatches_nil_iff cfg received_data
               (Z.to_nat (SimpleRead.payload_size cfg / 4)) 0) by lia.
    split; intros H i Hi; apply H; lia.
  - replace (Z.to_nat (SimpleRead.payload_size cfg / 4)) with 0%nat by lia.
    split; [intros _ i Hi; lia | reflexivity].
Qed.

Lemma count_zero_iff {A} (l : list A) : 0 + Z.of_nat (List.length l) = 0 <-> l = [].
Proof.
  split; [|intros ->; reflexivity]. destruct l; [reflexivity|cbn; lia].
Qed.

(** X9. When every call of the data-reader succeeds, the session returns
    0 exactly when the first [payload_size / 4] words retrieved (read back
    from the device for a device-resident buffer, found in host memory
    otherwise) are the golden pattern; it returns -1 otherwise, and then
    prints the failure verdict with the number of mismatches. *)
Theorem client_succeeds_iff_pattern (w : SimpleRead.world)
    (cfg : SimpleRead.rdma_config_t) (b : SimpleRead.rdma_buff_t)
    (rn rdma : Z)
    (Hcalls : client_calls_succeed w cfg b) :
  let r := SimpleRead.run_rdma_client w cfg (st rn rdma []) in
  let words := SimpleRead.payload_size cfg / 4 in
  let received_data := retrieved_words w cfg b in
  (SimpleRead.status r = inr 0 \/ SimpleRead.status r = inr (-1)) /\
  (SimpleRead.status r = inr 0 <-> matches_pattern received_data words) /\
  (matches_pattern received_data words ->
   In (SimpleRead.EvStdout (SimpleRead.VerifyPassed words))
     (SimpleRead.events r)) /\
  (~ matches_pattern received_data words ->
   In (SimpleRead.EvStdout
         (SimpleRead.VerifyFailed
            (Z.of_nat (List.length
                         (mismatches received_data
                            (SimpleRead.client_golden_data cfg)
                            (Z.to_nat words) 0)))
            words))
     (SimpleRead.events r)).
Proof.
  destruct Hcalls as (Hopen & Hlook & Hsock & Hconn & Hrecv & Hbuf & Hpost & Hrd).
  intros r words received_data. subst r words received_data.
  unfold retrieved_words.
  enter_client w cfg rn rdma; try absurd_path.
  rewrite Hbuf.
  run_all; try absurd_path;
    try (exfalso; split_hyps; tests_to_props; lia);
    cbn [fst snd];
    match goal with
    | H : (0 + Z.of_nat (List.length ?m) =? 0) = true |- _ =>
        apply Z.eqb_eq, count_zero_iff in H;
        pose proof (proj1 (no_mismatch_iff cfg _) H) as Hm;
        (split; [left; reflexivity|]);
        (split; [split; [intros _; exact Hm | reflexivity]|]);
        (split; [intros _ | intros Hn; contradiction]);
        rewrite H; cbn [map firstn app];
        repeat (rewrite in_app_iff || cbn [In]); intuition auto
    | H : (0 + Z.of_nat (List.length ?m) =? 0) = false |- _ =>
        apply Z.eqb_neq in H;
        assert (Hm : ~ matches_pattern _ (SimpleRead.payload_size cfg / 4))
          by (intros Hm; apply H, count_zero_iff;
              apply (proj2 (no_mismatch_iff cfg _) Hm));
        (split; [right; reflexivity|]);
        (split; [split; [intros E; discriminate E | intros E; contradiction]|]);
        (split; [intros E; contradiction | intros _]);
        rewrite Z.add_0_l;
        repeat (rewrite in_app_iff || cbn [In]); intuition auto
    end.
Qed.

Lemma client_succeeds_iff_pattern_witness :
  let w := demo_world 8 (be_bytes64 0x7f0000001000) 0 pattern_memory in
  SimpleRead.status
    (SimpleRead.run_rdma_client w SimpleRead.init_config (st 4096 8192 []))
  = inr 0.
Proof.
  intros w.
  assert (Hcalls : client_calls_succeed w SimpleRead.init_config
                     {| SimpleRead.buffer := 0x7f0000001000;
                        SimpleRead.dma_addr := 0x40000000 |}).
  { unfold client_calls_succeed.
    repeat split; try (intros H; vm_compute in H; discriminate H);
      vm_compute; (reflexivity || discriminate). }
  destruct (client_succeeds_iff_pattern w SimpleRead.init_config _ 4096 8192
              Hcalls) as (_ & Hiff & _).
  apply Hiff. intros i _. reflexivity.
Defined.

(** ** Sockets and the queue pair along a session *)

Lemma filter_mismatch_lines (p : SimpleRead.event -> bool)
    (received_data : Z -> Z) (golden_data : list Z) (l : list Z) :
  (forall m, p (SimpleRead.EvStderr m) = false) ->
  filter p (map (mismatch_line received_data golden_data) l) = [].
Proof.
  intros Hp. induction l as [|i l IH]; [reflexivity|].
  cbn [map filter]. unfold mismatch_line at 1. now rewrite Hp.
Qed.

Lemma filter_debug_lines (p : SimpleRead.event -> bool)
    (received_data : Z -> Z) (words : Z) (k : nat) :
  (forall m, p (SimpleRead.EvStdout m) = false) ->
  forall i, filter p (debug_lines received_data words k i) = [].
Proof.
  intros Hp. induction k as [|k IH]; intros i; cbn [debug_lines];
    [reflexivity|].
  destruct ((i <? 16) && (i <? words))%bool; [|reflexivity].
  cbn [filter]. rewrite Hp. apply IH.
Qed.

(** Filter the events of a path of the client, through the lines of the
    comparison and of the debug listing. *)
Ltac filter_path p :=
  cbn [filter p app];
  rewrite ?filter_app;
  rewrite ?(filter_mismatch_lines p) by reflexivity;
  rewrite ?(filter_debug_lines p) by reflexivity;
  cbn [filter p app].

(** ** The golden pattern on both sides *)

Lemma fill_loop_pattern (k : nat) :
  forall a : nat,
  SimpleRead.fill_loop (fun i => i mod 256) k (Z.of_nat a)
  = map (fun i => Z.of_nat i mod 256) (seq a k).
Proof.
  induction k as [|k IH]; intros a; cbn [SimpleRead.fill_loop seq map].
  - reflexivity.
  - replace (Z.of_nat a + 1) with (Z.of_nat (S a)) by lia.
    now rewrite IH.
Qed.

Lemma server_test_data_pattern (cfg : SimpleRead.rdma_config_t) :
  SimpleRead.server_test_data cfg
  = golden_pattern (SimpleRead.payload_size cfg).
Proof. apply (fill_loop_pattern _ 0). Qed.

Lemma client_golden_data_pattern (cfg : SimpleRead.rdma_config_t) :
  SimpleRead.client_golden_data cfg
  = golden_pattern (SimpleRead.payload_size cfg).
Proof. apply (fill_loop_pattern _ 0). Qed.

(** The provider seeds its buffer once, with its test data, or the run
    ends before; a run that returns 0 has seeded it. *)
Lemma server_seeds (w : SimpleRead.world) (cfg : SimpleRead.rdma_config_t)
    (rn rdma : Z) :
  let server := SimpleRead.run_rdma_server w cfg (st rn rdma []) in
  (seeds (SimpleRead.events server) = [] \/
   seeds (SimpleRead.events server) = [SimpleRead.server_test_data cfg]) /\
  (SimpleRead.status server = inr 0 ->
   seeds (SimpleRead.events server) = [SimpleRead.server_test_data cfg]) /\
  Forall (fun bytes => List.length bytes = 8%nat)
    (sent_messages (SimpleRead.events server)).
Proof.
  intros server; subst server. unfold seeds.
  enter_server w cfg rn rdma; run_all;
    cbn [filter is_seed map seed_words app sent_messages];
    (split; [first [left; reflexivity | right; reflexivity]|]);
    (split; [intros H; first [discriminate H | reflexivity]|]);
    repeat constructor; apply le_bytes_length.
Qed.

(** The reader seeds nothing and sends nothing. *)
Lemma client_seeds_nothing (w : SimpleRead.world)
    (cfg : SimpleRead.rdma_config_t) (rn rdma : Z) :
  let client := SimpleRead.run_rdma_client w cfg (st rn rdma []) in
  filter is_seed (SimpleRead.events client) = [] /\
  filter is_send (SimpleRead.events client) = [].
Proof.
  intros client; subst client. split.
  - enter_client w cfg rn rdma; run_all; filter_path is_seed; reflexivity.
  - enter_client w cfg rn rdma; run_all; filter_path is_send; reflexivity.
Qed.

(** When its calls succeed, the reader returns 0 exactly when the words it
    retrieved are those of its golden data. *)
Lemma client_verdict (w : SimpleRead.world)
    (cfg : SimpleRead.rdma_config_t) (b : SimpleRead.rdma_buff_t)
    (rn rdma : Z) :
  client_calls_succeed w cfg b ->
  (SimpleRead.status (SimpleRead.run_rdma_client w cfg (st rn rdma []))
   = inr 0 <->
   mismatches (retrieved_words w cfg b) (SimpleRead.client_golden_data cfg)
     (Z.to_nat (SimpleRead.payload_size cfg / 4)) 0 = []).
Proof.
  intros (Hopen & Hlook & Hsock & Hconn & Hrecv & Hbuf & Hpost & Hrd).
  unfold retrieved_words.
  enter_client w cfg rn rdma; try absurd_path.
  rewrite Hbuf.
  run_all; try absurd_path;
    try (exfalso; split_hyps; tests_to_props; lia);
    cbn [fst snd];
    match goal with
    | H : (0 + Z.of_nat (List.length ?m) =? 0) = true |- _ =>
        apply Z.eqb_eq, count_zero_iff in H;
        split; [intros _; exact H | reflexivity]
    | H : (0 + Z.of_nat (List.length ?m) =? 0) = false |- _ =>
        apply Z.eqb_neq in H;
        split; [intros E; discriminate E
               |intros E; exfalso; apply H, count_zero_iff, E]
    end.
Qed.

(** C5. For a valid payload size [P] the golden pattern has [P / 4]
    words, the word at index [i] being [i mod 256].  The provider seeds its
    buffer with exactly this pattern: once on every run that gets as far,
    and on every run that returns 0.  The reader, when its calls succeed,
    returns 0 exactly when the words it retrieved are this pattern.  Each
    side generates the pattern from the payload size alone, in any world,
    and no pattern data is exchanged: the reader seeds and sends nothing,
    and what the provider sends has 8 bytes. *)
Theorem golden_pattern_is_index_mod_256
    (w : SimpleRead.world) (cfg : SimpleRead.rdma_config_t) (rn rdma : Z)
    (Hvalid : valid_payload (SimpleRead.payload_size cfg)) :
  let P := SimpleRead.payload_size cfg in
  let server := SimpleRead.run_rdma_server w cfg (st rn rdma []) in
  let client := SimpleRead.run_rdma_client w cfg (st rn rdma []) in
  (Z.of_nat (List.length (golden_pattern P)) = P / 4 /\
   forall i, 0 <= i < P / 4 ->
     nth (Z.to_nat i) (golden_pattern P) 0 = i mod 256) /\
  ((seeds (SimpleRead.events server) = [] \/
    seeds (SimpleRead.events server) = [golden_pattern P]) /\
   (SimpleRead.status server = inr 0 ->
    seeds (SimpleRead.events server) = [golden_pattern P])) /\
  (forall b, client_calls_succeed w cfg b ->
     (SimpleRead.status client = inr 0 <->
      forall i, 0 <= i < P / 4 ->
        retrieved_words w cfg b i = nth (Z.to_nat i) (golden_pattern P) 0)) /\
  (forall cfg', SimpleRead.payload_size cfg' = P ->
     SimpleRead.server_test_data cfg' = golden_pattern P /\
     SimpleRead.client_golden_data cfg' = golden_pattern P) /\
  (seeds (SimpleRead.events client) = [] /\
   filter is_send (SimpleRead.events client) = [] /\
   Forall (fun bytes => List.length bytes = 8%nat)
     (sent_messages (SimpleRead.events server))).
Proof.
  intros P server client. destruct Hvalid as [Hrange Hmod].
  assert (Hnth : forall i, 0 <= i < P / 4 ->
                   nth (Z.to_nat i) (golden_pattern P) 0 = i mod 256).
  { intros i Hi. subst P. rewrite <- client_golden_data_pattern.
    now apply golden_word. }
  destruct (server_seeds w cfg rn rdma) as (Hs1 & Hs2 & Hs3).
  fold server in Hs1, Hs2, Hs3.
  rewrite server_test_data_pattern in Hs1, Hs2. fold P in Hs1, Hs2.
  destruct (client_seeds_nothing w cfg rn rdma) as (Hc1 & Hc2).
  fold client in Hc1, Hc2.
  split; [split; [|exact Hnth]|].
  { unfold golden_pattern. rewrite length_map, length_seq.
    apply Z2Nat.id. apply Z.div_pos; lia. }
  split; [split; assumption|].
  split.
  { intros b Hcalls. unfold client.
    rewrite (client_verdict w cfg b rn rdma Hcalls), no_mismatch_iff.
    unfold matches_pattern. fold P.
    split; intros H i Hi; [rewrite Hnth by exact Hi|rewrite <- Hnth by exact Hi];
      now apply H. }
  split.
  { intros cfg' E.
    rewrite server_test_data_pattern, client_golden_data_pattern, E.
    split; reflexivity. }
  split; [unfold seeds; now rewrite Hc1|]. split; assumption.
Qed.

Lemma golden_pattern_is_index_mod_256_witness :
  let w := demo_world 8 (be_bytes64 0x7f0000001000) 0 pattern_memory in
  let cfg := snd (fst (SimpleRead.parse_arguments
                         (SimpleRead.convert_ip_addr_to_uint w)
                         server_command_line SimpleRead.init_config)) in
  valid_payload (SimpleRead.payload_size cfg) /\
  seeds (SimpleRead.events
           (SimpleRead.run_rdma_server w cfg (st 4096 8192 [])))
  = [golden_pattern 1024] /\
  nth 3 (golden_pattern 1024) 0 = 3 /\
  nth 255 (golden_pattern 1024) 0 = 255.
Proof.
  intros w cfg.
  assert (Hvalid : valid_payload (SimpleRead.payload_size cfg)).
  { change (valid_payload 1024). unfold valid_payload.
    split; [lia|reflexivity]. }
  split; [exact Hvalid|].
  destruct (golden_pattern_is_index_mod_256 w cfg 4096 8192 Hvalid)
    as ((_ & Hnth) & (_ & Hseed) & _).
  change (SimpleRead.payload_size cfg) with 1024 in Hnth, Hseed.
  split; [|split].
  - apply Hseed. vm_compute. reflexivity.
  - apply (Hnth 3). change (0 <= 3 < 256). lia.
  - apply (Hnth 255). change (0 <= 255 < 256). lia.
Defined.

(** X10. The coordination sockets are closed on every path.  The
    data-reader closes its socket once, on every path on which [connect]
    was attempted, and closes nothing else: the device file it opens is
    never closed.  The data-provider closes the listening socket once on
    every path on which [bind] was attempted, after the accepted socket
    when there is one. *)
Theorem coordination_sockets_are_closed (w : SimpleRead.world)
    (cfg : SimpleRead.rdma_config_t) (rn rdma : Z) :
  let client := SimpleRead.run_rdma_client w cfg (st rn rdma []) in
  let server := SimpleRead.run_rdma_server w cfg (st rn rdma []) in
  filter is_close (SimpleRead.events client)
  = events_when (existsb is_connect (SimpleRead.events client))
      [SimpleRead.EvClose (SimpleRead.run_socket w)] /\
  filter is_close (SimpleRead.events server)
  = events_when (existsb is_send (SimpleRead.events server))
      [SimpleRead.EvClose (SimpleRead.accept_ret w)] ++
    events_when (existsb is_bind (SimpleRead.events server))
      [SimpleRead.EvClose (SimpleRead.run_socket w)].
Proof.
  intros client server; subst client server. split.
  - enter_client w cfg rn rdma; run_all; filter_path is_close;
      cbn [existsb is_connect orb]; reflexivity.
  - enter_server w cfg rn rdma; run_all; reflexivity.
Qed.


(** ** The comparison loop on any buffer *)

Lemma mismatches_in (received_data : Z -> Z) (golden_data : list Z) (k : nat) :
  forall i j,
  In j (mismatches received_data golden_data k i) <->
  i <= j < i + Z.of_nat k /\
  received_data j <> nth (Z.to_nat j) golden_data 0.
Proof.
  induction k as [|k IH]; intros i j; cbn [mismatches].
  - split; [intros []|lia].
  - destruct (received_data i =? nth (Z.to_nat i) golden_data 0) eqn:E.
    + apply Z.eqb_eq in E. rewrite IH. split.
      * intros [H1 H2]. split; [lia|exact H2].
      * intros [H1 H2]. split; [|exact H2].
        destruct (Z.eq_dec j i) as [->|Hne]; [contradiction|lia].
    + apply Z.eqb_neq in E. cbn [In]. rewrite IH. split.
      * intros [<-|[H1 H2]]; (split; [lia|assumption]).
      * intros [H1 H2]. destruct (Z.eq_dec i j) as [->|Hne]; [now left|].
        right. split; [lia|exact H2].
Qed.

Lemma mismatches_length (received_data : Z -> Z) (golden_data : list Z)
    (k : nat) :
  forall i, (List.length (mismatches received_data golden_data k i) <= k)%nat.
Proof.
  induction k as [|k IH]; intros i; cbn [mismatches List.length]; [lia|].
  destruct (received_data i =? nth (Z.to_nat i) golden_data 0);
    cbn [List.length]; specialize (IH (i + 1)); lia.
Qed.

Lemma mismatches_sorted (received_data : Z -> Z) (golden_data : list Z)
    (k : nat) :
  forall i, StronglySorted Z.lt (mismatches received_data golden_data k i).
Proof.
  induction k as [|k IH]; intros i; cbn [mismatches]; [constructor|].
  destruct (received_data i =? nth (Z.to_nat i) golden_data 0);
    [apply IH|].
  constructor; [apply IH|].
  apply Forall_forall. intros j Hj. apply mismatches_in in Hj. lia.
Qed.

(** X12. On any buffer the comparison loop over [k] words from index
    [i] returns the number of words that differ from the golden data, which
    is at most [k], and prints one line for each of the first ten of them in
    increasing index order, with the index, the expected and the received
    word: at most ten lines, however many words differ. *)
Theorem comparison_counts_all_and_prints_ten
    (received_data : Z -> Z) (golden_data : list Z) (rn rdma : Z)
    (k : nat) (i : Z) (tr : list SimpleRead.event) :
  let r := SimpleRead.verify_loop received_data golden_data k i 0
             (st rn rdma tr) in
  let differing := mismatches received_data golden_data k i in
  SimpleRead.status r = inl (Z.of_nat (List.length differing)) /\
  SimpleRead.events r
  = tr ++ map (fun j => SimpleRead.EvStderr
                          (SimpleRead.Mismatch j
                             (nth (Z.to_nat j) golden_data 0)
                             (received_data j)))
            (firstn 10 differing) /\
  (forall j, In j differing <->
             i <= j < i + Z.of_nat k /\
             received_data j <> nth (Z.to_nat j) golden_data 0) /\
  StronglySorted Z.lt differing /\
  (List.length differing <= k)%nat /\
  (List.length (firstn 10 differing) <= 10)%nat.
Proof.
  intros r differing. subst r differing.
  rewrite verify_loop_run by lia.
  unfold SimpleRead.status, SimpleRead.events, st.
  cbn [fst snd SimpleRead.trace].
  split; [reflexivity|]. split; [reflexivity|].
  split; [apply mismatches_in|]. split; [apply mismatches_sorted|].
  split; [apply mismatches_length|]. rewrite length_firstn. lia.
Qed.

(** ** Sessions inside main *)

Section Framing.

Import SimpleRead.

Lemma framed_ret {A} (a : A) : framed (ret a).
Proof. intros rn rdma tr. unfold ret, st. cbn. now rewrite app_nil_r. Qed.

Lemma framed_return {A} (c : Z) : framed (@return_ A c).
Proof. intros rn rdma tr. unfold return_, st. cbn. now rewrite app_nil_r. Qed.

Lemma framed_emit (e : event) : framed (emit e).
Proof. intros rn rdma tr. reflexivity. Qed.

Lemma framed_get_rn_dev : framed get_rn_dev.
Proof. intros rn rdma tr. unfold get_rn_dev, st. cbn. now rewrite app_nil_r. Qed.

Lemma framed_get_rdma_dev : framed get_rdma_dev.
Proof. intros rn rdma tr. unfold get_rdma_dev, st. cbn. now rewrite app_nil_r. Qed.

Lemma framed_bind {A B} (m : M A) (k : A -> M B) :
  framed m -> (forall a, framed (k a)) -> framed (bind m k).
Proof.
  intros Hm Hk rn rdma tr. unfold bind.
  rewrite (Hm rn rdma tr).
  pose proof (Hm rn rdma []) as H0.
  destruct (m (st rn rdma [])) as [a0 s0]. cbn [fst snd] in *.
  injection H0 as H0. cbn [app] in H0.
  destruct a0 as [a|c]; cbv beta iota.
  - destruct s0 as [r1 r2 t0]. unfold st in H0. cbn [trace] in H0.
    injection H0 as -> ->. cbn [trace]. fold (st rn rdma t0).
    rewrite (Hk a rn rdma (tr ++ t0)), (Hk a rn rdma t0). cbn [fst snd].
    unfold st. cbn [trace]. now rewrite app_assoc.
  - reflexivity.
Qed.

Lemma framed_when (b : bool) (m : M unit) : framed m -> framed (when b m).
Proof. intros Hm. destruct b; [exact Hm|apply framed_ret]. Qed.

Lemma framed_call {A} (m : M A) (f : Z -> A) : framed m -> framed (call m f).
Proof.
  intros Hm rn rdma tr. unfold call. rewrite (Hm rn rdma tr).
  destruct (m (st rn rdma [])) as [[a|c] s0]; reflexivity.
Qed.

Lemma framed_arp_loop (w : world) (ip : string) (lines : list string)
    (mac : mac_addr_t) : framed (arp_loop w ip lines mac).
Proof.
  induction lines as [|line rest IH]; cbn [arp_loop]; [apply framed_ret|].
  destruct (strstr line "no match found").
  - apply framed_bind; [apply framed_emit|intros; apply framed_ret].
  - destruct (strstr line "at"); [apply framed_ret|exact IH].
Qed.

Lemma framed_verify_loop (received_data : Z -> Z) (golden_data : list Z)
    (k : nat) :
  forall i errors, framed (verify_loop received_data golden_data k i errors).
Proof.
  induction k as [|k IH]; intros i errors; cbn [verify_loop];
    [apply framed_ret|].
  destruct (negb (received_data i =? nth (Z.to_nat i) golden_data 0));
    [|apply IH].
  apply framed_bind; [apply framed_when, framed_emit|intros; apply IH].
Qed.

Lemma framed_debug_loop (received_data : Z -> Z) (words : Z) (k : nat) :
  forall i, framed (debug_loop received_data words k i).
Proof.
  induction k as [|k IH]; intros i; cbn [debug_loop]; [apply framed_ret|].
  destruct ((i <? 16) && (i <? words))%bool; [|apply framed_ret].
  apply framed_bind; [apply framed_emit|intros; apply IH].
Qed.

End Framing.

(** Decompose a computation of the program into framed parts. *)
Ltac framed_steps :=
  repeat first
    [ apply framed_ret | apply framed_return | apply framed_emit
    | apply framed_get_rn_dev | apply framed_get_rdma_dev
    | apply framed_arp_loop | apply framed_verify_loop
    | apply framed_debug_loop
    | apply framed_when
    | apply framed_bind; [|intros ?]
    | match goal with
      | |- framed (match ?x with Some _ => _ | None => _ end) => destruct x
      | |- framed (if ?c then _ else _) => destruct c
      end ].

Lemma framed_get_remote_mac_address (w : SimpleRead.world) (ip : string)
    (mac : SimpleRead.mac_addr_t) :
  framed (SimpleRead.get_remote_mac_address w ip mac).
Proof.
  unfold SimpleRead.get_remote_mac_address, SimpleRead.perror. cbv zeta.
  framed_steps.
Qed.

Lemma framed_run_rdma_server (w : SimpleRead.world)
    (cfg : SimpleRead.rdma_config_t) :
  framed (SimpleRead.run_rdma_server w cfg).
Proof.
  unfold SimpleRead.run_rdma_server, SimpleRead.perror, SimpleRead.eprint.
  cbv zeta.
  apply framed_bind; [apply framed_get_remote_mac_address|intros ?].
  framed_steps.
Qed.

Lemma framed_run_rdma_client (w : SimpleRead.world)
    (cfg : SimpleRead.rdma_config_t) :
  framed (SimpleRead.run_rdma_client w cfg).
Proof.
  unfold SimpleRead.run_rdma_client, SimpleRead.perror, SimpleRead.eprint.
  cbv zeta.
  do 2 (apply framed_bind; [framed_steps|intros ?]).
  apply framed_bind; [apply framed_get_remote_mac_address|intros ?].
  framed_steps.
Qed.

Lemma framed_session_of (w : SimpleRead.world)
    (cfg : SimpleRead.rdma_config_t) : framed (session_of w cfg).
Proof.
  unfold session_of. destruct (negb (SimpleRead.is_server cfg =? 0));
    [apply framed_run_rdma_server|apply framed_run_rdma_client].
Qed.

Lemma main_role_is_session (w : SimpleRead.world)
    (cfg : SimpleRead.rdma_config_t) :
  (if negb (SimpleRead.is_server cfg =? 0)
   then SimpleRead.call (SimpleRead.run_rdma_server w cfg) (fun c => c)
   else SimpleRead.call (SimpleRead.run_rdma_client w cfg) (fun c => c))
  = SimpleRead.call (session_of w cfg) (fun c => c).
Proof.
  unfold session_of. now destruct (negb (SimpleRead.is_server cfg =? 0)).
Qed.

Lemma main_accepted_run
    (w : SimpleRead.world) (opts : list SimpleRead.getopt_result)
    (cfg : SimpleRead.rdma_config_t) :
  fst (SimpleRead.parse_arguments (SimpleRead.convert_ip_addr_to_uint w) opts
    SimpleRead.init_config) = (0, cfg) ->
  setup_calls_succeed w ->
  let setup := SimpleRead.setup_rdma_environment w cfg (st 0 0 []) in
  let session := session_of w cfg
                   (st (SimpleRead.create_rn_dev w)
                      (SimpleRead.create_rdma_dev w) []) in
  snd (SimpleRead.main w opts)
  = (inr (if returned session =? 0 then 0 else 1),
     st (SimpleRead.create_rn_dev w) (SimpleRead.create_rdma_dev w)
       (SimpleRead.events setup ++ SimpleRead.events session ++
        [SimpleRead.EvDestroyRnDev (SimpleRead.create_rn_dev w)])).
Proof.
  intros Haccepted Hsetup setup session.
  pose proof (accepted_prints_nothing (SimpleRead.convert_ip_addr_to_uint w)
                opts SimpleRead.init_config) as Hn.
  unfold SimpleRead.main.
  destruct (SimpleRead.parse_arguments (SimpleRead.convert_ip_addr_to_uint w)
              opts SimpleRead.init_config) as [[k c] pr].
  cbn [fst snd] in Haccepted, Hn |- *. injection Haccepted as -> ->.
  rewrite (Hn eq_refl). cbn [SimpleRead.eprint_lines].
  rewrite main_role_is_session.
  pose proof (proj2 (proj2 (setup_status w cfg 0 0)) Hsetup) as Hs.
  pose proof (setup_opens_device_last w cfg 0 0 Hs) as (_ & Hrn & Hrdma).
  fold setup in Hs, Hrn, Hrdma.
  pose proof (framed_call _ (fun c : Z => c) (framed_session_of w cfg)) as Hf.
  change SimpleRead.initial_state with (st 0 0 []).
  unfold SimpleRead.bind at 1. unfold SimpleRead.ret at 1.
  unfold SimpleRead.bind at 1. unfold SimpleRead.when at 1.
  cbn [Z.eqb negb]. unfold SimpleRead.ret at 1.
  unfold SimpleRead.bind at 1. unfold SimpleRead.call at 1. fold setup.
  unfold SimpleRead.events at 1.
  destruct setup as [a s1]. unfold SimpleRead.status in Hs.
  cbn [fst snd] in Hs, Hrn, Hrdma |- *. subst a.
  destruct s1 as [rn1 rdma1 tr1].
  cbn [SimpleRead.rn_dev SimpleRead.rdma_dev SimpleRead.trace] in *.
  subst rn1 rdma1.
  unfold SimpleRead.bind at 1. unfold SimpleRead.when at 1.
  cbn [Z.ltb Z.compare]. unfold SimpleRead.ret at 1.
  unfold SimpleRead.bind at 1.
  fold (st (SimpleRead.create_rn_dev w) (SimpleRead.create_rdma_dev w) tr1).
  rewrite (Hf _ _ tr1).
  assert (Hcall : fst (SimpleRead.call (session_of w cfg) (fun c : Z => c)
                         (st (SimpleRead.create_rn_dev w)
                            (SimpleRead.create_rdma_dev w) []))
                  = inl (returned session) /\
                  SimpleRead.trace
                    (snd (SimpleRead.call (session_of w cfg) (fun c : Z => c)
                            (st (SimpleRead.create_rn_dev w)
                               (SimpleRead.create_rdma_dev w) [])))
                  = SimpleRead.events session).
  { unfold SimpleRead.call, returned, SimpleRead.events. fold session.
    destruct session as [[c|c] s2]; split; reflexivity. }
  destruct Hcall as [-> ->].
  unfold SimpleRead.cleanup_resources, SimpleRead.bind, SimpleRead.get_rn_dev,
    SimpleRead.when, SimpleRead.emit, SimpleRead.return_, st.
  cbn [SimpleRead.rn_dev SimpleRead.rdma_dev SimpleRead.trace fst snd].
  destruct Hsetup as (_ & Hne & _).
  destruct (SimpleRead.create_rn_dev w =? 0) eqn:E;
    [apply Z.eqb_eq in E; contradiction|].
  cbn [negb fst snd SimpleRead.trace SimpleRead.rn_dev SimpleRead.rdma_dev].
  now rewrite <- app_assoc.
Qed.

(** X13. A command line that is accepted, in a world where the setup
    succeeds, makes [main] run the setup, then the one session of the
    configured role with the device objects the setup created, then
    [destroy_rn_dev], in this order and with nothing in between; [main]
    exits with 0 when the session returned 0 and with 1 otherwise. *)
Theorem main_runs_setup_then_session
    (w : SimpleRead.world) (opts : list SimpleRead.getopt_result)
    (cfg : SimpleRead.rdma_config_t)
    (Haccepted : fst (SimpleRead.parse_arguments
                        (SimpleRead.convert_ip_addr_to_uint w) opts
                   SimpleRead.init_config) = (0, cfg))
    (Hsetup : setup_calls_succeed w) :
  let setup := SimpleRead.setup_rdma_environment w cfg (st 0 0 []) in
  let session := session_of w cfg
                   (st (SimpleRead.create_rn_dev w)
                      (SimpleRead.create_rdma_dev w) []) in
  let run := snd (SimpleRead.main w opts) in
  SimpleRead.events run
  = SimpleRead.events setup ++ SimpleRead.events session ++
    [SimpleRead.EvDestroyRnDev (SimpleRead.create_rn_dev w)] /\
  (returned session = 0 -> SimpleRead.exit_code run = 0) /\
  (returned session <> 0 -> SimpleRead.exit_code run = 1).
Proof.
  intros setup session run. subst run.
  rewrite (main_accepted_run w opts cfg Haccepted Hsetup).
  fold setup session. unfold SimpleRead.events at 1, SimpleRead.exit_code, st.
  cbn [fst snd SimpleRead.trace].
  split; [reflexivity|]. split; intros H.
  - now rewrite H.
  - apply Z.eqb_neq in H. now rewrite H.
Qed.

Lemma main_runs_setup_then_session_witness :
  let w := demo_world 8 (be_bytes64 0x7f0000001000) 0 pattern_memory in
  SimpleRead.exit_code (snd (SimpleRead.main w client_command_line)) = 0.
Proof.
  intros w.
  assert (Hacc : fst (SimpleRead.parse_arguments
                        (SimpleRead.convert_ip_addr_to_uint w) client_command_line
                   SimpleRead.init_config)
                 = (0, snd (fst (SimpleRead.parse_arguments
                              (SimpleRead.convert_ip_addr_to_uint w)
                              client_command_line SimpleRead.init_config))))
    by (vm_compute; reflexivity).
  assert (Hsetup : setup_calls_succeed w).
  { unfold setup_calls_succeed. repeat split; vm_compute; discriminate. }
  destruct (main_runs_setup_then_session w client_command_line _ Hacc Hsetup)
    as (_ & H0 & _).
  apply H0. vm_compute. reflexivity.
Defined.

(** X14. A command line that is accepted, in a world where some call of
    the setup fails, runs no session: after the events of the setup [main]
    prints that the setup failed, destroys the device object when one was
    created, and exits with 1; the setup itself looks nothing up and touches
    no queue pair. *)
Theorem failed_setup_runs_no_session
    (w : SimpleRead.world) (opts : list SimpleRead.getopt_result)
    (cfg : SimpleRead.rdma_config_t)
    (Haccepted : fst (SimpleRead.parse_arguments
                        (SimpleRead.convert_ip_addr_to_uint w) opts
                   SimpleRead.init_config) = (0, cfg))
    (Hfails : ~ setup_calls_succeed w) :
  let setup := SimpleRead.setup_rdma_environment w cfg (st 0 0 []) in
  let created := SimpleRead.rn_dev (snd setup) in
  let run := snd (SimpleRead.main w opts) in
  run
  = (inr 1,
     st created (SimpleRead.rdma_dev (snd setup))
       (SimpleRead.events setup ++
        SimpleRead.EvStderr
          (SimpleRead.Text "Error: Failed to setup RDMA environment")
        :: events_when (negb (created =? 0))
             [SimpleRead.EvDestroyRnDev created])) /\
  (created = 0 \/ created = SimpleRead.create_rn_dev w) /\
  filter is_qp_call (SimpleRead.events setup) = [] /\
  existsb is_pipe_call (SimpleRead.events setup) = false.
Proof.
  intros setup created run. subst run created.
  assert (Hs : SimpleRead.status setup = inr (-1)).
  { destruct (setup_status w cfg 0 0) as [[H|H] Hiff]; [|exact H].
    exfalso. apply Hfails, Hiff, H. }
  assert (Hshape :
    (SimpleRead.rn_dev (snd setup) = 0 \/
     SimpleRead.rn_dev (snd setup) = SimpleRead.create_rn_dev w) /\
    filter is_qp_call (SimpleRead.events setup) = [] /\
    existsb is_pipe_call (SimpleRead.events setup) = false).
  { subst setup. clear. unfold st, SimpleRead.setup_rdma_environment.
    run_unfold. run_all; cbn; auto. }
  split; [|exact Hshape].
  pose proof (accepted_prints_nothing (SimpleRead.convert_ip_addr_to_uint w)
                opts SimpleRead.init_config) as Hn.
  unfold SimpleRead.main.
  destruct (SimpleRead.parse_arguments (SimpleRead.convert_ip_addr_to_uint w)
              opts SimpleRead.init_config) as [[k c] pr].
  cbn [fst snd] in Haccepted, Hn |- *. injection Haccepted as -> ->.
  rewrite (Hn eq_refl). cbn [SimpleRead.eprint_lines].
  change SimpleRead.initial_state with (st 0 0 []).
  unfold SimpleRead.bind at 1. unfold SimpleRead.ret at 1.
  unfold SimpleRead.bind at 1. unfold SimpleRead.when at 1.
  cbn [Z.eqb negb]. unfold SimpleRead.ret at 1.
  unfold SimpleRead.bind at 1. unfold SimpleRead.call at 1. fold setup.
  unfold SimpleRead.events.
  destruct setup as [a s1]. unfold SimpleRead.status in Hs.
  cbn [fst snd] in Hs |- *. subst a.
  destruct s1 as [rn1 rdma1 tr1].
  unfold SimpleRead.cleanup_resources, SimpleRead.eprint.
  unfold SimpleRead.bind, SimpleRead.when, SimpleRead.get_rn_dev,
    SimpleRead.emit, SimpleRead.ret, SimpleRead.return_, events_when, st.
  cbn [Z.ltb Z.compare SimpleRead.rn_dev SimpleRead.rdma_dev SimpleRead.trace
         fst snd].
  destruct (negb (rn1 =? 0));
    cbn [SimpleRead.rn_dev SimpleRead.rdma_dev SimpleRead.trace];
    rewrite <- ?app_assoc; reflexivity.
Qed.

Lemma failed_setup_runs_no_session_witness :
  let w := without_rdma_dev (demo_world 8 [] 0 zeroed_memory) in
  let run := snd (SimpleRead.main w client_command_line) in
  SimpleRead.exit_code run = 1 /\
  last_events 2 (SimpleRead.events run)
  = [SimpleRead.EvStderr
       (SimpleRead.Text "Error: Failed to setup RDMA environment");
     SimpleRead.EvDestroyRnDev 4096].
Proof.
  intros w run.
  assert (Hacc : fst (SimpleRead.parse_arguments
                        (SimpleRead.convert_ip_addr_to_uint w)
                   client_command_line SimpleRead.init_config)
                 = (0, snd (fst (SimpleRead.parse_arguments
                              (SimpleRead.convert_ip_addr_to_uint w)
                              client_command_line SimpleRead.init_config))))
    by (vm_compute; reflexivity).
  assert (Hfails : ~ setup_calls_succeed w).
  { intros (_ & _ & H & _). apply H. reflexivity. }
  destruct (failed_setup_runs_no_session w client_command_line _ Hacc Hfails)
    as (Hrun & _).
  subst run. rewrite Hrun. split; vm_compute; reflexivity.
Defined.

(** ** register_test.c: printBinary *)

Lemma land_single_bit (a : Z) (i : nat) :
  Z.land a (Z.shiftl 1 (Z.of_nat i))
  = if Z.testbit a (Z.of_nat i) then 2 ^ Z.of_nat i else 0.
Proof.
  rewrite Z.shiftl_1_l. apply Z.bits_inj'. intros n Hn.
  rewrite Z.land_spec, Z.pow2_bits_eqb by lia.
  destruct (Z.testbit a (Z.of_nat i)) eqn:E.
  - rewrite Z.pow2_bits_eqb by lia.
    destruct (Z.eqb_spec (Z.of_nat i) n) as [<-|Hne];
      [now rewrite E|apply andb_false_r].
  - rewrite Z.bits_0.
    destruct (Z.eqb_spec (Z.of_nat i) n) as [<-|Hne];
      [now rewrite E|apply andb_false_r].
Qed.

Lemma mod_pow2_succ (a : Z) (i : nat) :
  a mod 2 ^ Z.of_nat (S i)
  = (if Z.testbit a (Z.of_nat i) then 2 ^ Z.of_nat i else 0)
    + a mod 2 ^ Z.of_nat i.
Proof.
  rewrite Nat2Z.inj_succ, Z.pow_succ_r by lia.
  rewrite (Z.mul_comm 2), Z.rem_mul_r by lia.
  destruct (Z.testbit a (Z.of_nat i)) eqn:E.
  - apply Z.testbit_true in E; [|lia]. rewrite E. lia.
  - apply Z.testbit_false in E; [|lia]. rewrite E. lia.
Qed.

Lemma bits_value_printBinary_loop (addr : Z) (k : nat) :
  forall acc,
  bits_value_from (RegisterTest.printBinary_loop addr k) acc
  = acc * 2 ^ Z.of_nat k + addr mod 2 ^ Z.of_nat k.
Proof.
  induction k as [|k IH]; intros acc.
  - cbn. rewrite Z.mod_1_r. lia.
  - cbn [RegisterTest.printBinary_loop].
    rewrite land_single_bit, mod_pow2_succ.
    assert (Hpow : 0 < 2 ^ Z.of_nat k) by (apply Z.pow_pos_nonneg; lia).
    assert (Hskip : forall a,
      bits_value_from
        (String.append
           (if (Z.of_nat k mod 8 =? 0) && (0 <? Z.of_nat k)
            then " "%string else ""%string)
           (RegisterTest.printBinary_loop addr k)) a
      = bits_value_from (RegisterTest.printBinary_loop addr k) a).
    { intros a. now destruct ((Z.of_nat k mod 8 =? 0) && (0 <? Z.of_nat k))%bool. }
    destruct (Z.testbit addr (Z.of_nat k)).
    + destruct (2 ^ Z.of_nat k =? 0) eqn:E; [apply Z.eqb_eq in E; lia|].
      cbn [bits_value_from Ascii.eqb Bool.eqb andb]. rewrite Hskip, IH.
      rewrite Nat2Z.inj_succ, Z.pow_succ_r by lia. lia.
    + cbn [Z.eqb bits_value_from Ascii.eqb Bool.eqb andb]. rewrite Hskip, IH.
      rewrite Nat2Z.inj_succ, Z.pow_succ_r by lia. lia.
Qed.

Lemma count_bits_printBinary_loop (addr : Z) (k : nat) :
  count_bits (RegisterTest.printBinary_loop addr k) = k.
Proof.
  induction k as [|k IH]; [reflexivity|].
  cbn [RegisterTest.printBinary_loop].
  assert (Hskip :
    count_bits
      (String.append
         (if (Z.of_nat k mod 8 =? 0) && (0 <? Z.of_nat k)
          then " "%string else ""%string)
         (RegisterTest.printBinary_loop addr k))
    = count_bits (RegisterTest.printBinary_loop addr k)).
  { now destruct ((Z.of_nat k mod 8 =? 0) && (0 <? Z.of_nat k))%bool. }
  destruct (Z.land addr (Z.shiftl 1 (Z.of_nat k)) =? 0);
    cbn [count_bits Ascii.eqb Bool.eqb andb orb]; now rewrite Hskip, IH.
Qed.

(** X15. [printBinary] prints a 32-bit value so that it can be read
    back: the line has 35 characters, of which 32 are binary digits, with a
    space after the 8th, the 16th and the 24th digit, and the digits, most
    significant first, spell exactly the value. *)
Theorem printBinary_spells_the_value (addr : Z)
    (Hrange : 0 <= addr < 2 ^ 32) :
  bits_value (RegisterTest.printBinary addr) = addr /\
  String.length (RegisterTest.printBinary addr) = 35%nat /\
  count_bits (RegisterTest.printBinary addr) = 32%nat /\
  String.get 8 (RegisterTest.printBinary addr) = Some " "%char /\
  String.get 17 (RegisterTest.printBinary addr) = Some " "%char /\
  String.get 26 (RegisterTest.printBinary addr) = Some " "%char.
Proof.
  split.
  - unfold bits_value, RegisterTest.printBinary.
    rewrite bits_value_printBinary_loop.
    change (2 ^ Z.of_nat 32) with (2 ^ 32). rewrite Z.mod_small by exact Hrange.
    lia.
  - unfold RegisterTest.printBinary.
    split; [vm_compute; reflexivity|].
    split; [apply count_bits_printBinary_loop|].
    repeat split; vm_compute; reflexivity.
Qed.

Lemma printBinary_spells_the_value_witness :
  RegisterTest.printBinary 0x12345678 = "00010010 00110100 01010110 01111000" /\
  bits_value "00010010 00110100 01010110 01111000" = 0x12345678.
Proof.
  assert (Hrange : 0 <= 0x12345678 < 2 ^ 32) by lia.
  destruct (printBinary_spells_the_value 0x12345678 Hrange) as (H & _).
  split; [vm_compute; reflexivity|].
  assert (E : RegisterTest.printBinary 0x12345678
              = "00010010 00110100 01010110 01111000")
    by (vm_compute; reflexivity).
  rewrite <- E. exact H.
Defined.

(** ** The register tools: parse_hex_value *)

Lemma hex_digit_range (c : ascii) (d : Z) :
  hex_digit_of c = Some d -> 0 <= d < 16.
Proof.
  destruct c as [[] [] [] [] [] [] [] []]; vm_compute; intros H;
    try discriminate H; injection H as <-; split; (discriminate || reflexivity).
Qed.

(** A hexadecimal digit is not white space, not a sign and not the letter
    of the prefix. *)
Lemma hex_digit_plain (c : ascii) (d : Z) :
  hex_digit_of c = Some d ->
  isspace c = false /\ is_x c = false /\
  Ascii.eqb c "-" = false /\ Ascii.eqb c "+" = false.
Proof.
  destruct c as [[] [] [] [] [] [] [] []]; vm_compute; intros H;
    try discriminate H; repeat split.
Qed.

Lemma hex_value_bound (s : string) :
  all_hex s = true -> 0 <= hex_value s < 16 ^ Z.of_nat (String.length s).
Proof.
  induction s as [|c r IH]; cbn [all_hex hex_value String.length].
  - intros _. cbn. lia.
  - destruct (hex_digit_of c) as [d|] eqn:E; [|discriminate].
    intros H. specialize (IH H). apply hex_digit_range in E.
    rewrite Nat2Z.inj_succ, Z.pow_succ_r by lia. nia.
Qed.

Lemma read_hex_digits_stop (s tail : string) :
  all_hex s = true -> starts_with_hex_digit tail = false ->
  forall acc,
  read_hex_digits (s ++ tail) acc
  = (acc * 16 ^ Z.of_nat (String.length s) + hex_value s, tail).
Proof.
  intros Hs Ht.
  induction s as [|c r IH];
    cbn [all_hex hex_value String.length read_hex_digits String.append] in *.
  - intros acc. replace (acc * 16 ^ Z.of_nat 0 + 0) with acc by (cbn; lia).
    destruct tail as [|t tail']; [reflexivity|].
    cbn [read_hex_digits]. cbn [starts_with_hex_digit] in Ht.
    now destruct (hex_digit_of t).
  - destruct (hex_digit_of c) as [d|] eqn:E; [|discriminate].
    intros acc. rewrite (IH Hs).
    rewrite Nat2Z.inj_succ, Z.pow_succ_r by lia. f_equal. lia.
Qed.

(** The second character of the string is not the letter of the prefix. *)
Lemma no_prefix_letter (r tail : string) :
  all_hex r = true ->
  match tail with String t _ => is_x t = false | EmptyString => True end ->
  match (r ++ tail)%string with
  | String x _ => is_x x = false
  | EmptyString => True
  end.
Proof.
  intros Hr Ht. destruct r as [|x r0]; [exact Ht|].
  cbn [String.append]. cbn [all_hex] in Hr.
  destruct (hex_digit_of x) as [dx|] eqn:Ex; [|discriminate Hr].
  now destruct (hex_digit_plain x dx Ex) as (_ & Hxx & _).
Qed.

Lemma strtoull16_hex (c : ascii) (r tail : string) :
  all_hex (String c r) = true ->
  starts_with_hex_digit tail = false ->
  match tail with String t _ => is_x t = false | EmptyString => True end ->
  strtoull16 (String c r ++ tail)
  = (if hex_value (String c r) >? ULLONG_MAX then ULLONG_MAX
     else hex_value (String c r), tail).
Proof.
  intros H Ht Htx. pose proof H as Hall. cbn [all_hex] in H.
  destruct (hex_digit_of c) as [d|] eqn:E; [|discriminate H].
  destruct (hex_digit_plain c d E) as (Hsp & Hx & Hm & Hp).
  pose proof (no_prefix_letter r tail H Htx) as Hsecond.
  unfold strtoull16. cbn [String.append skip_spaces]. rewrite Hsp.
  assert (Hsign :
    match String c (r ++ tail) with
    | String "-" r0 => (true, r0)
    | String "+" r0 => (false, r0)
    | _ => (false, String c (r ++ tail))
    end = (false, String c (r ++ tail))).
  { clear - Hm Hp. destruct c as [[] [] [] [] [] [] [] []];
      try reflexivity; vm_compute in Hm, Hp; discriminate. }
  rewrite Hsign. clear Hsign.
  assert (Hprefix :
    match String c (r ++ tail) with
    | String "0" (String x r0) =>
        if is_x x then (true, r0) else (false, String c (r ++ tail))
    | _ => (false, String c (r ++ tail))
    end = (false, String c (r ++ tail))).
  { destruct (r ++ tail)%string as [|x r0].
    - destruct c as [[] [] [] [] [] [] [] []]; reflexivity.
    - rewrite Hsecond.
      destruct c as [[] [] [] [] [] [] [] []]; reflexivity. }
  rewrite Hprefix. clear Hprefix.
  cbn [starts_with_hex_digit]. rewrite E.
  change (String c (r ++ tail)) with (String c r ++ tail)%string.
  rewrite (read_hex_digits_stop _ _ Hall Ht). cbn [Z.mul Z.add].
  reflexivity.
Qed.

Lemma substring_all (s : string) : substring 0 (String.length s) s = s.
Proof. induction s as [|c r IH]; [reflexivity|]. cbn. now rewrite IH. Qed.

Lemma append_empty (s : string) : (s ++ "")%string = s.
Proof. induction s as [|c r IH]; [reflexivity|]. cbn. now rewrite IH. Qed.

(** Neither prefix starts a string whose second character is not its
    letter. *)
Lemma no_hex_prefix (c : ascii) (rest : string) :
  match rest with String x _ => is_x x = false | EmptyString => True end ->
  (String.prefix "0x" (String c rest) || String.prefix "0X" (String c rest))%bool
  = false.
Proof.
  intros H. cbn [String.prefix].
  destruct (ascii_dec "0" c) as [_|_]; [|reflexivity].
  destruct rest as [|x r0]; [reflexivity|]. cbn [String.prefix].
  destruct (ascii_dec "x" x) as [<-|_]; [discriminate H|].
  destruct (ascii_dec "X" x) as [<-|_]; [discriminate H|reflexivity].
Qed.

(** X16. [parse_hex_value] reads a string of 1 to 16 hexadecimal digits
    as the number it denotes, below [2 ^ 64], whether or not the string
    starts with the prefix ["0x"] or ["0X"], and prints nothing.  The same
    digits followed by a character that is neither a hexadecimal digit nor
    the letter of the prefix give 0 and the diagnostic; so does the null
    string. *)
Theorem parse_hex_value_reads_hex (c : ascii) (r : string)
    (Hhex : all_hex (String c r) = true)
    (Hlen : (String.length (String c r) <= 16)%nat) :
  let digits := String c r in
  ToolTypes.parse_hex_value (Some digits) = (hex_value digits, []) /\
  ToolTypes.parse_hex_value (Some ("0x" ++ digits)%string)
  = (hex_value digits, []) /\
  ToolTypes.parse_hex_value (Some ("0X" ++ digits)%string)
  = (hex_value digits, []) /\
  0 <= hex_value digits < 2 ^ 64 /\
  (forall junk rest, hex_digit_of junk = None -> is_x junk = false ->
     ToolTypes.parse_hex_value
       (Some (digits ++ String junk rest)%string)
     = (0, [ToolTypes.THexInvalid (digits ++ String junk rest)%string])) /\
  ToolTypes.parse_hex_value None = (0, [ToolTypes.THexNull]).
Proof.
  intros digits.
  pose proof (hex_value_bound digits Hhex) as Hb.
  assert (Hrange : 0 <= hex_value digits < 2 ^ 64).
  { split; [lia|]. eapply Z.lt_le_trans; [apply Hb|].
    change (2 ^ 64) with (16 ^ 16).
    apply Z.pow_le_mono_r; [lia|]. subst digits. lia. }
  assert (Hstr : forall tail,
            starts_with_hex_digit tail = false ->
            match tail with
            | String t _ => is_x t = false
            | EmptyString => True
            end ->
            strtoull16 (digits ++ tail) = (hex_value digits, tail)).
  { intros tail Ht Htx. subst digits.
    rewrite (strtoull16_hex c r tail Hhex Ht Htx).
    destruct (hex_value (String c r) >? ULLONG_MAX) eqn:E; [|reflexivity].
    unfold ULLONG_MAX in E. lia. }
  assert (Hhex' : all_hex r = true).
  { cbn [all_hex] in Hhex. now destruct (hex_digit_of c). }
  pose proof (Hstr EmptyString eq_refl I) as Hstr0.
  rewrite append_empty in Hstr0.
  split; [|split; [|split; [|split; [exact Hrange|split]]]].
  - unfold ToolTypes.parse_hex_value. subst digits.
    rewrite no_hex_prefix
      by (pose proof (no_prefix_letter r EmptyString Hhex' I) as H;
          now rewrite append_empty in H).
    now rewrite Hstr0.
  - unfold ToolTypes.parse_hex_value.
    replace (String.prefix "0x" ("0x" ++ digits)) with true by reflexivity.
    cbn [orb String.append String.length Nat.sub substring].
    rewrite Nat.sub_0_r, substring_all. now rewrite Hstr0.
  - unfold ToolTypes.parse_hex_value.
    replace (String.prefix "0X" ("0X" ++ digits)) with true by reflexivity.
    rewrite orb_true_r.
    cbn [String.append String.length Nat.sub substring].
    rewrite Nat.sub_0_r, substring_all. now rewrite Hstr0.
  - intros junk rest Hj Hjx. unfold ToolTypes.parse_hex_value.
    assert (Ht : starts_with_hex_digit (String junk rest) = false)
      by (cbn; now rewrite Hj).
    subst digits. cbn [String.append].
    rewrite no_hex_prefix
      by (apply (no_prefix_letter r (String junk rest) Hhex' Hjx)).
    change (String c (r ++ String junk rest))
      with (String c r ++ String junk rest)%string.
    now rewrite (Hstr _ Ht Hjx).
  - reflexivity.
Qed.

Lemma parse_hex_value_reads_hex_witness :
  ToolTypes.parse_hex_value (Some ("0x" ++ "102000")%string)
  = (hex_value "102000", []) /\
  ToolTypes.parse_hex_value (Some "102000") = (hex_value "102000", []) /\
  hex_value "102000" = 0x102000.
Proof.
  destruct (parse_hex_value_reads_hex "1" "02000" eq_refl ltac:(cbn; lia))
    as (H1 & H2 & _).
  split; [exact H2|]. split; [exact H1|]. vm_compute. reflexivity.
Defined.

(** ** register_test.c: main *)

Section RegisterMainFacts.

Import ToolTypes.

Variable bar : Type.
Variable read32_data : bar -> Z -> Z * bar.
Variable write32_data : bar -> Z -> Z -> bar.




End RegisterMainFacts.



(** ** register_test_arm.c: the comprehensive tests and main *)

Section ArmFacts.

Import ToolTypes.

Variable bar : Type.
Variable load : bar -> Z -> Z * bar.
Variable store : bar -> Z -> Z -> bar.
Variables version fatal_err trmhr trmlr scr_template clr_template : Z.

Local Abbreviation arm_read := (RegisterTestArm.arm_read32_data bar load).
Local Abbreviation arm_test_read := (RegisterTestArm.test_register_read bar load).
Local Abbreviation arm_test_write :=
  (RegisterTestArm.test_register_write bar load store).
Local Abbreviation read_step := (RegisterTestArm.read_step bar load).
Local Abbreviation write_step := (RegisterTestArm.write_step bar load store).
Local Abbreviation template_loop :=
  (RegisterTestArm.template_loop bar load store scr_template).
Local Abbreviation timing_loop := (RegisterTestArm.timing_loop bar load version).

Lemma arm_read_shape (b : bar) (offset : Z) :
  exists v b',
    arm_read b offset
    = (v, b', [RegisterTestArm.Rmb; RegisterTestArm.Load offset v;
               RegisterTestArm.Rmb]).
Proof.
  unfold RegisterTestArm.arm_read32_data.
  destruct (load b offset) as [v b']. now exists v, b'.
Qed.

Lemma arm_test_read_shape (verbose debug : Z) (b : bar) (offset : Z) :
  exists v b' lines,
    arm_test_read verbose debug b offset
    = (0, lines, b',
       [RegisterTestArm.Rmb; RegisterTestArm.Load offset v;
        RegisterTestArm.Rmb]).
Proof.
  unfold RegisterTestArm.test_register_read.
  destruct (arm_read_shape b offset) as (v & b' & ->).
  now eexists v, b', _.
Qed.

Lemma arm_test_write_shape (verbose debug : Z) (b : bar) (offset v : Z) :
  exists dropped read_back b' lines,
    arm_test_write verbose debug b offset v
    = (0, lines, b',
       [RegisterTestArm.Wmb; RegisterTestArm.Store offset v;
        RegisterTestArm.Wmb; RegisterTestArm.Load offset dropped;
        RegisterTestArm.Rmb;
        RegisterTestArm.Rmb; RegisterTestArm.Load offset read_back;
        RegisterTestArm.Rmb]).
Proof.
  unfold RegisterTestArm.test_register_write,
    RegisterTestArm.arm_write32_data.
  destruct (load (store b offset v) offset) as [dropped b1].
  destruct (arm_read_shape b1 offset) as (r & b' & ->).
  now eexists dropped, r, b', _.
Qed.

Lemma read_step_shape (verbose debug offset : Z)
    (b : bar) (ev : list tool_event) (acc : list RegisterTestArm.access) :
  exists v b' lines,
    read_step verbose debug offset (b, ev, acc)
    = (b', ev ++ [TReadReport lines],
       acc ++ [RegisterTestArm.Rmb; RegisterTestArm.Load offset v;
               RegisterTestArm.Rmb]).
Proof.
  unfold RegisterTestArm.read_step.
  destruct (arm_test_read_shape verbose debug b offset)
    as (v & b' & lines & ->).
  now exists v, b', lines.
Qed.

Lemma write_step_shape (verbose debug offset v : Z)
    (b : bar) (ev : list tool_event) (acc : list RegisterTestArm.access) :
  exists dropped read_back b' lines,
    write_step verbose debug offset v (b, ev, acc)
    = (b', ev ++ [TWriteReport lines],
       acc ++ [RegisterTestArm.Wmb; RegisterTestArm.Store offset v;
               RegisterTestArm.Wmb; RegisterTestArm.Load offset dropped;
               RegisterTestArm.Rmb;
               RegisterTestArm.Rmb; RegisterTestArm.Load offset read_back;
               RegisterTestArm.Rmb]).
Proof.
  unfold RegisterTestArm.write_step.
  destruct (arm_test_write_shape verbose debug b offset v)
    as (d & r & b' & lines & ->).
  now exists d, r, b', lines.
Qed.

Lemma stores_of_app (a b : list RegisterTestArm.access) :
  stores_of (a ++ b) = stores_of a ++ stores_of b.
Proof. apply flat_map_app. Qed.

Lemma loads_of_app (a b : list RegisterTestArm.access) :
  loads_of (a ++ b) = loads_of a ++ loads_of b.
Proof. apply flat_map_app. Qed.

Lemma fenced_app (a b : list RegisterTestArm.access) :
  fenced a -> fenced b -> fenced (a ++ b).
Proof.
  intros Ha Hb. induction Ha; cbn [app]; [exact Hb| |];
    constructor; assumption.
Qed.

Lemma adds_trans stores1 loads1 stores2 loads2
    (s1 s2 s3 : RegisterTestArm.tests_state bar) :
  adds stores1 loads1 s1 s2 -> adds stores2 loads2 s2 s3 ->
  adds (stores1 ++ stores2) (loads1 ++ loads2) s1 s3.
Proof.
  intros (A1 & A2 & A3) (B1 & B2 & B3). repeat split.
  - now rewrite B1, A1, app_assoc.
  - now rewrite B2, A2, app_assoc.
  - auto.
Qed.

Lemma read_step_adds (verbose debug offset : Z)
    (s : RegisterTestArm.tests_state bar) :
  adds [] [offset] s (read_step verbose debug offset s).
Proof.
  destruct s as [[b ev] acc].
  destruct (read_step_shape verbose debug offset b ev acc)
    as (v & b' & lines & ->).
  unfold adds. cbn [snd]. rewrite stores_of_app, loads_of_app.
  repeat split; try reflexivity.
  intros H. apply fenced_app; [exact H|]. repeat constructor.
Qed.

Lemma write_step_adds (verbose debug offset v : Z)
    (s : RegisterTestArm.tests_state bar) :
  adds [(offset, v)] [offset; offset] s (write_step verbose debug offset v s).
Proof.
  destruct s as [[b ev] acc].
  destruct (write_step_shape verbose debug offset v b ev acc)
    as (d & r & b' & lines & ->).
  unfold adds. cbn [snd]. rewrite stores_of_app, loads_of_app.
  repeat split; try reflexivity.
  intros H. apply fenced_app; [exact H|]. repeat constructor.
Qed.

Lemma template_loop_adds (verbose debug : Z) (values : list Z) :
  forall s : RegisterTestArm.tests_state bar,
  adds (map (fun v => (scr_template, v)) values)
       (flat_map (fun _ => [scr_template; scr_template]) values)
       s (template_loop verbose debug values s).
Proof.
  induction values as [|v rest IH]; intros s;
    cbn [RegisterTestArm.template_loop map flat_map].
  - unfold adds. rewrite !app_nil_r. auto.
  - pose proof (write_step_adds verbose debug scr_template v s) as Hw.
    destruct (write_step verbose debug scr_template v s) as [[b ev] acc].
    specialize (IH (b, ev ++ [TUsleep 1000], acc)).
    exact (adds_trans [(scr_template, v)] [scr_template; scr_template] _ _
             s (b, ev, acc) _ Hw IH).
Qed.

Lemma timing_loop_adds (iterations : nat) :
  forall s : RegisterTestArm.tests_state bar,
  adds [] (repeat version iterations) s (timing_loop iterations s).
Proof.
  induction iterations as [|k IH]; intros s;
    cbn [RegisterTestArm.timing_loop repeat].
  - unfold adds. rewrite !app_nil_r. auto.
  - destruct s as [[b ev] acc].
    destruct (arm_read_shape b version) as (v & b' & ->).
    apply (adds_trans [] [version] [] (repeat version k) (b, ev, acc)
             (b', ev,
              acc ++ [RegisterTestArm.Rmb; RegisterTestArm.Load version v;
                      RegisterTestArm.Rmb])); [|apply IH].
    unfold adds. cbn [snd]. rewrite stores_of_app, loads_of_app.
    repeat split; try reflexivity.
    intros H. apply fenced_app; [exact H|]. repeat constructor.
Qed.

Lemma comprehensive_tests_add (verbose debug : Z) (axil_base : bar) :
  fst (RegisterTestArm.run_comprehensive_tests bar load store
         version fatal_err trmhr trmlr scr_template clr_template
         verbose debug axil_base) = 0 /\
  adds (template_stores scr_template clr_template)
       ([version; fatal_err; trmhr; trmlr] ++ repeat scr_template 12 ++
        [clr_template; clr_template] ++ repeat version 100)
       (axil_base, [], [])
       (snd (RegisterTestArm.run_comprehensive_tests bar load store
               version fatal_err trmhr trmlr scr_template clr_template
               verbose debug axil_base)).
Proof.
  unfold RegisterTestArm.run_comprehensive_tests. cbv zeta. cbn [fst snd].
  split; [reflexivity|].
  set (s0 := (axil_base, [], []) : RegisterTestArm.tests_state bar).
  set (s1 := read_step verbose debug version s0).
  set (s2a := read_step verbose debug fatal_err s1).
  set (s2b := read_step verbose debug trmhr s2a).
  set (s2 := read_step verbose debug trmlr s2b).
  set (s3 := template_loop verbose debug RegisterTestArm.test_values s2).
  set (s4 := write_step verbose debug clr_template 0x87654321 s3).
  pose proof (read_step_adds verbose debug version s0) as H1.
  pose proof (read_step_adds verbose debug fatal_err s1) as H2.
  pose proof (read_step_adds verbose debug trmhr s2a) as H3.
  pose proof (read_step_adds verbose debug trmlr s2b) as H4.
  pose proof (template_loop_adds verbose debug RegisterTestArm.test_values s2)
    as H5.
  pose proof (write_step_adds verbose debug clr_template 0x87654321 s3) as H6.
  pose proof (timing_loop_adds 100 s4) as H7.
  fold s1 in H1. fold s2a in H2. fold s2b in H3. fold s2 in H4.
  fold s3 in H5. fold s4 in H6.
  pose proof (adds_trans _ _ _ _ _ _ _
                (adds_trans _ _ _ _ _ _ _
                   (adds_trans _ _ _ _ _ _ _
                      (adds_trans _ _ _ _ _ _ _
                         (adds_trans _ _ _ _ _ _ _
                            (adds_trans _ _ _ _ _ _ _ H1 H2) H3) H4) H5) H6)
                H7) as H.
  exact H.
Qed.

End ArmFacts.

Section ArmMainFacts.

Import ToolTypes.



End ArmMainFacts.

(** X18. The comprehensive tests of the ARM tool return 0 and store to the
    two template registers only: the six test values to the SCR template
    register, in order, then 0x87654321 to the CLR template register.  They
    load the version and the three status registers once, each template
    register twice per store (the read-back of the write and the one of the
    report), and the version register 100 times for the timing. *)
Theorem comprehensive_tests_store_to_templates_only
    (bar : Type) (load : bar -> Z -> Z * bar) (store : bar -> Z -> Z -> bar)
    (version fatal_err trmhr trmlr scr_template clr_template : Z)
    (verbose debug : Z) (axil_base : bar) :
  let r := RegisterTestArm.run_comprehensive_tests bar load store
             version fatal_err trmhr trmlr scr_template clr_template
             verbose debug axil_base in
  fst r = 0 /\
  stores_of (snd (snd r))
  = [(scr_template, 0x12345678); (scr_template, 0xDEADBEEF);
     (scr_template, 0xCAFEBABE); (scr_template, 0x55AA55AA);
     (scr_template, 0); (scr_template, 0xFFFFFFFF);
     (clr_template, 0x87654321)] /\
  loads_of (snd (snd r))
  = [version; fatal_err; trmhr; trmlr] ++ repeat scr_template 12 ++
    [clr_template; clr_template] ++ repeat version 100.
Proof.
  intros r. subst r.
  destruct (comprehensive_tests_add bar load store version fatal_err trmhr
              trmlr scr_template clr_template verbose debug axil_base)
    as (Hc & Hs & Hl & _).
  cbn [snd stores_of loads_of flat_map app] in Hs, Hl.
  split; [exact Hc|]. split; [exact Hs | exact Hl].
Qed.

(** X19. Whatever the command line and whatever the calls on the resource
    file return, the ARM tool accesses the window through fenced reads and
    fenced writes only: every load stands between two read barriers or
    follows the write barrier after a store to the same offset, and every
    store stands between two write barriers. *)
Theorem arm_tool_accesses_are_fenced
    (bar : Type) (load : bar -> Z -> Z * bar) (store : bar -> Z -> Z -> bar)
    (version fatal_err trmhr trmlr scr_template clr_template : Z)
    (w : ToolTypes.tool_world bar) (opts : list SimpleRead.getopt_result) :
  fenced (snd (RegisterTestArm.main bar load store
                 version fatal_err trmhr trmlr scr_template clr_template
                 w opts)).
Proof.
  unfold RegisterTestArm.main.
  destruct (RegisterTestArm.main_loop opts RegisterTestArm.initial_args)
    as [[a|c] printed]; [|constructor].
  destruct (ToolTypes.operation a =? 0); [constructor|].
  destruct (((ToolTypes.operation a =? 1) || (ToolTypes.operation a =? 2)) &&
            (ToolTypes.address_set a =? 0))%bool; [constructor|].
  destruct ((ToolTypes.operation a =? 2) && (ToolTypes.value_set a =? 0))%bool;
    [constructor|].
  destruct (ToolTypes.open_ret w <? 0); [constructor|].
  destruct (ToolTypes.mmap_ret w) as [axil_base|]; [|constructor].
  destruct (ToolTypes.operation a =? 1).
  { destruct (arm_test_read_shape bar load (ToolTypes.verbose a)
                (ToolTypes.debug a) axil_base (ToolTypes.address a))
      as (v & b' & lines & ->).
    cbn [snd]. repeat constructor. }
  destruct (ToolTypes.operation a =? 2).
  { destruct (arm_test_write_shape bar load store (ToolTypes.verbose a)
                (ToolTypes.debug a) axil_base (ToolTypes.address a)
                (ToolTypes.value a))
      as (d & rb & b' & lines & ->).
    cbn [snd]. repeat constructor. }
  destruct (ToolTypes.operation a =? 3); [|cbn [snd]; constructor].
  destruct (comprehensive_tests_add bar load store version fatal_err trmhr
              trmlr scr_template clr_template (ToolTypes.verbose a)
              (ToolTypes.debug a) axil_base) as (_ & _ & _ & Hf).
  destruct (RegisterTestArm.run_comprehensive_tests bar load store
              version fatal_err trmhr trmlr scr_template clr_template
              (ToolTypes.verbose a) (ToolTypes.debug a) axil_base)
    as [code [[b ev] acc]].
  cbn [snd] in *. apply Hf. constructor.
Qed.


